(** * ofxtools: binding OFX element trees to typed aggregates

    A shallow embedding of
      - [ofxtools/models/email.py]        (OFX section 9 schemas, [MAIL.groom])
      - [ofxtools/ofxalchemy/models.py]   (SQLAlchemy object model and its
                                           pre-flatten hooks)
    The element trees of [xml.etree.ElementTree] are mutable objects that the
    hooks edit in place, so they live in a heap of nodes addressed by
    location; the SQLAlchemy session is a list of instances. *)

From Stdlib Require Import ZArith Lia Ascii.
From stdpp Require Import base strings list option gmap.

Set Warnings "-register-all".
Open Scope string_scope.
Open Scope list_scope.

(** ** Python exceptions and the state-and-exception monad *)

Inductive exn : Type :=
  | KeyError (key : string)
  | ValueError (msg : string)
  | NameError (name : string)
  | AttributeError (attr : string)
  | TypeError (what : string)
  | NoResultFound
  | MultipleResultsFound
  | RecursionError.

Inductive result (E A : Type) : Type :=
  | Ok (a : A)
  | Raise (e : E).
Arguments Ok {E A} a.
Arguments Raise {E A} e.

(** A computation reads and writes a state [S] and either returns or raises;
    the state survives a raise, as the Python heap does. *)
Definition M (S A : Type) : Type := S -> result exn A * S.

Definition ret {S A} (a : A) : M S A := fun s => (Ok a, s).
Definition raise {S A} (e : exn) : M S A := fun s => (Raise e, s).
Definition bind {S A B} (m : M S A) (k : A -> M S B) : M S B :=
  fun s => match m s with
           | (Ok a, s') => k a s'
           | (Raise e, s') => (Raise e, s')
           end.
Definition get_state {S} : M S S := fun s => (Ok s, s).
Definition put_state {S} (s : S) : M S unit := fun _ => (Ok tt, s).

Declare Scope py_scope.
Delimit Scope py_scope with py.
Notation "x <~ m ;; k" := (bind m (fun x => k))
  (at level 100, m at next level, right associativity) : py_scope.
Notation "m ;;; k" := (bind m (fun _ => k))
  (at level 100, right associativity) : py_scope.
Open Scope py_scope.


(** ** Element trees *)

(** The caller's view of a tree: tag, optional text, ordered children. *)
Inductive Element : Type :=
  | Elem (tag : string) (text : option string) (children : list Element).

Definition etag (t : Element) : string := let 'Elem tg _ _ := t in tg.
Definition etext (t : Element) : option string := let 'Elem _ tx _ := t in tx.
Definition echildren (t : Element) : list Element := let 'Elem _ _ ks := t in ks.

Fixpoint height (t : Element) : nat :=
  let 'Elem _ _ ks := t in S (foldr (fun k n => Nat.max (height k) n) 0 ks).

Module ET.

(** An [Element] object: its children are references to other objects. *)
Abbreviation loc := nat.
Record node : Type := Node { ntag : string; ntext : option string; nkids : list loc }.
Abbreviation heap := (list node).

(** Building a tree in the heap ([Element(..)], [SubElement(..)]):
    children first, left to right, then the node itself. *)
Fixpoint alloc (t : Element) (h : heap) : loc * heap :=
  let 'Elem tg tx ks := t in
  let '(ls, h1) :=
    (fix go (ks : list Element) (h : heap) : list loc * heap :=
       match ks with
       | [] => ([], h)
       | k :: ks' =>
           let '(l, h') := alloc k h in
           let '(ls, h'') := go ks' h' in
           (l :: ls, h'')
       end) ks h in
  (length h1, h1 ++ [Node tg tx ls]).

Fixpoint alloc_list (ks : list Element) (h : heap) : list loc * heap :=
  match ks with
  | [] => ([], h)
  | k :: ks' =>
      let '(l, h') := alloc k h in
      let '(ls, h'') := alloc_list ks' h' in
      (l :: ls, h'')
  end.

(** The tree an object stands for; [n] bounds the nesting depth. *)
Fixpoint read (n : nat) (h : heap) (l : loc) : option Element :=
  match n with
  | 0 => None
  | S n' =>
      match h !! l with
      | None => None
      | Some nd =>
          match mapM (read n' h) (nkids nd) with
          | None => None
          | Some ks => Some (Elem (ntag nd) (ntext nd) ks)
          end
      end
  end.

Definition get_node (l : loc) : M heap node :=
  fun h => match h !! l with
           | Some nd => (Ok nd, h)
           | None => (Raise (TypeError "not an Element"), h)
           end.

Definition tag_of (h : heap) (l : loc) : option string := ntag <$> h !! l.

Definition has_tag (h : heap) (tg : string) (l : loc) : bool :=
  match tag_of h l with
  | Some tg' => String.eqb tg' tg
  | None => false
  end.

(** [elem.find("TAG")], [elem.find("./TAG")]: first child tagged TAG. *)
Definition find_child (tg : string) (l : loc) : M heap (option loc) :=
  nd <~ get_node l ;;
  fun h => (Ok (List.find (has_tag h tg) (nkids nd)), h).

(** [elem.find("*/TAG")]: first grandchild tagged TAG, in document order. *)
Definition find_grandchild (tg : string) (l : loc) : M heap (option loc) :=
  nd <~ get_node l ;;
  fun h =>
    let grandkids :=
      flat_map (fun c => match h !! c with
                         | Some cn => nkids cn
                         | None => []
                         end) (nkids nd) in
    (Ok (List.find (has_tag h tg) grandkids), h).

(** The proper descendants of [l] in document order ([elem.iter()] without
    [elem] itself). *)
Fixpoint descendants (n : nat) (h : heap) (l : loc) : list loc :=
  match n with
  | 0 => []
  | S n' =>
      match h !! l with
      | None => []
      | Some nd => flat_map (fun c => c :: descendants n' h c) (nkids nd)
      end
  end.

(** [elem.find(".//TAG")]: first proper descendant tagged TAG. *)
Definition find_descendant (tg : string) (l : loc) : M heap (option loc) :=
  fun h => (Ok (List.find (has_tag h tg) (descendants (length h) h l)), h).

(** [elem.tag = tg] *)
Definition set_tag (l : loc) (tg : string) : M heap unit :=
  nd <~ get_node l ;;
  fun h => (Ok tt, <[l := Node tg (ntext nd) (nkids nd)]> h).

(** [list.remove(x)]: drop the first occurrence. *)
Fixpoint remove_first (c : loc) (ls : list loc) : option (list loc) :=
  match ls with
  | [] => None
  | l :: ls' =>
      if Nat.eqb l c then Some ls'
      else match remove_first c ls' with
           | Some r => Some (l :: r)
           | None => None
           end
  end.

(** [parent.remove(child)]; [ValueError] when [child] is not a child. *)
Definition remove (parent child : loc) : M heap unit :=
  nd <~ get_node parent ;;
  match remove_first child (nkids nd) with
  | Some ks => fun h => (Ok tt, <[parent := Node (ntag nd) (ntext nd) ks]> h)
  | None => raise (ValueError "list.remove(x): x not in list")
  end.


(** [for child in elem] iterates the children present when it starts. *)
Definition children_of (l : loc) : M heap (list loc) :=
  nd <~ get_node l ;; ret (nkids nd).

(** [elem.text] *)
Definition text_of (l : loc) : M heap (option string) :=
  nd <~ get_node l ;; ret (ntext nd).

(** [copy.deepcopy(elem)]: a fresh object for every node under [elem]. *)
Definition deepcopy (l : loc) : M heap loc :=
  fun h => match read (length h) h l with
           | Some t => let '(l', h') := alloc t h in (Ok l', h')
           | None => (Raise RecursionError, h)
           end.

End ET.

(** ** ofxtools/ofxalchemy/models.py *)

Module Alchemy.
Import ET.

(** *** Values, instances and the world *)

Inductive pyval : Type :=
  | VNone
  | VBool (b : bool)
  | VInt (n : Z)
  | VStr (s : string).

#[global] Instance pyval_eq_dec : EqDecision pyval.
Proof. solve_decision. Defined.

(** Python truth value: [if x:] *)
Definition truthy (v : pyval) : bool :=
  match v with
  | VNone => false
  | VBool b => b
  | VInt n => negb (Z.eqb n 0)
  | VStr s => negb (String.eqb s "")
  end.

(** Keyword arguments and attribute dictionaries. *)
Abbreviation kwargs := (gmap string pyval).

(** A mapped object: its class and the attributes it was given. *)
Record Instance : Type := { cls : string; attrs : kwargs }.

(** [instance.name]: an attribute never set reads as [None]. *)
Definition getattr (i : Instance) (k : string) : pyval :=
  default VNone (attrs i !! k).

(** Instances are objects: [ref] is the identity of one. [session] lists
    the objects [DBSession] holds, oldest first. *)
Abbreviation ref := nat.
Record world : Type :=
  World { hp : heap; objs : list Instance; session : list ref }.

Definition on_heap {A} (m : M heap A) : M world A :=
  fun w => let '(r, h) := m (hp w) in (r, World h (objs w) (session w)).

Definition try_except {S A} (m : M S A) (caught : exn -> bool) (handler : M S A)
  : M S A :=
  fun s => match m s with
           | (Raise e, s') => if caught e then handler s' else (Raise e, s')
           | r => r
           end.

Definition is_NoResultFound (e : exn) : bool :=
  match e with NoResultFound => true | _ => false end.

(** *** The classes of the module *)

(** What dispatch needs of a class statement: its bases, the methods and
    [pks] its body binds, the value of [pks], the columns its body (or a
    [declared_attr] of it) declares with [primary_key=True], and the
    columns its body declares with [nullable=False]. *)
Record pyclass : Type :=
  Class { bases : list string; defs : list string;
          cpks : option (list string); pk_columns : list string;
          not_null : list string }.

(** Each call [Inheritor('t')] makes a class of its own, [Inheritor_t]. *)
Definition classes : list (string * pyclass) :=
  [
    ("object",
      Class [] [] None
        []
        []);
    ("Aggregate",
      Class ["object"] ["primary_keys"; "get"; "get_or_create"; "from_etree"; "_preflatten"; "_postflatten"] None
        []
        []);
    ("CURRENCY",
      Class ["object"] [] None
        []
        []);
    ("ORIGCURRENCY",
      Class ["CURRENCY"] ["_do_origcurrency"] None
        []
        []);
    ("Inheritor_acctfrom",
      Class ["object"] ["primary_keys"] None
        []
        ["subclass"]);
    ("ACCTFROM",
      Class ["Inheritor_acctfrom"; "Aggregate"] [] None
        []
        []);
    ("BANKACCTFROM",
      Class ["ACCTFROM"] ["pks"] (Some ["bankid"; "acctid"])
        []
        ["bankid"; "acctid"; "accttype"]);
    ("CCACCTFROM",
      Class ["ACCTFROM"] ["pks"] (Some ["acctid"])
        []
        ["acctid"]);
    ("INVACCTFROM",
      Class ["ACCTFROM"] ["pks"] (Some ["brokerid"; "acctid"])
        []
        ["brokerid"; "acctid"]);
    ("Inheritor_acctto",
      Class ["object"] ["primary_keys"] None
        []
        ["subclass"]);
    ("ACCTTO",
      Class ["Inheritor_acctto"; "Aggregate"] [] None
        []
        []);
    ("BANKACCTTO",
      Class ["ACCTTO"] ["pks"] (Some ["bankid"; "acctid"])
        []
        ["bankid"; "acctid"; "accttype"]);
    ("CCACCTTO",
      Class ["ACCTTO"] ["pks"] (Some ["acctid"])
        []
        ["acctid"]);
    ("Balance",
      Class ["object"] [] None
        ["acctfrom_id"; "dtasof"]
        []);
    ("LEDGERBAL",
      Class ["Balance"; "Aggregate"] [] None
        []
        ["balamt"]);
    ("AVAILBAL",
      Class ["Balance"; "Aggregate"] [] None
        []
        ["balamt"]);
    ("INVBAL",
      Class ["Balance"; "Aggregate"] [] None
        []
        ["availcash"; "marginbalance"; "shortbalance"]);
    ("BAL",
      Class ["Balance"; "CURRENCY"; "Aggregate"] [] None
        ["name"]
        ["desc"; "baltype"; "value"]);
    ("SECID",
      Class ["object"] ["_do_secid"] None
        []
        []);
    ("Inheritor_secinfo",
      Class ["object"] ["primary_keys"] None
        []
        ["subclass"]);
    ("SECINFO",
      Class ["Inheritor_secinfo"; "CURRENCY"; "Aggregate"] ["pks"] (Some ["uniqueid"; "uniqueidtype"])
        []
        ["uniqueidtype"; "uniqueid"; "secname"]);
    ("DEBTINFO",
      Class ["SECINFO"] [] None
        []
        ["parvalue"; "debttype"]);
    ("MFINFO",
      Class ["SECINFO"] ["from_etree"] None
        []
        []);
    ("PORTION",
      Class ["Aggregate"] [] None
        ["mfinfo_id"; "assetclass"]
        ["percent"]);
    ("FIPORTION",
      Class ["Aggregate"] [] None
        ["mfinfo_id"; "fiassetclass"]
        ["percent"]);
    ("OPTINFO",
      Class ["SECINFO"] ["_preflatten"; "_do_secid"] None
        []
        ["opttype"; "strikeprice"; "dtexpire"; "shperctrct"]);
    ("OTHERINFO",
      Class ["SECINFO"] [] None
        []
        []);
    ("STOCKINFO",
      Class ["SECINFO"] ["_postflatten"] None
        []
        []);
    ("PAYEE",
      Class ["Aggregate"] [] None
        ["name"]
        ["addr1"; "city"; "state"; "postalcode"; "phone"]);
    ("BANKTRAN",
      Class ["ORIGCURRENCY"] ["_preflatten"] None
        ["fitid"]
        ["trntype"; "dtposted"; "trnamt"]);
    ("STMTTRN",
      Class ["BANKTRAN"; "Aggregate"] [] None
        ["acctfrom_id"]
        []);
    ("INVBANKTRAN",
      Class ["BANKTRAN"; "Aggregate"] [] None
        ["acctfrom_id"]
        ["subacctfund"]);
    ("Inheritor_invtran",
      Class ["object"] ["primary_keys"] None
        []
        ["subclass"]);
    ("INVTRAN",
      Class ["Inheritor_invtran"; "Aggregate"] ["pks"; "_preflatten"; "_do_secid"; "_do_origcurrency"] (Some ["acctfrom_id"; "fitid"])
        []
        ["subclass"; "dttrade"]);
    ("INVBUYSELL",
      Class ["SECID"; "ORIGCURRENCY"] [] None
        []
        ["units"; "unitprice"; "total"]);
    ("INVBUY",
      Class ["INVBUYSELL"] [] None
        []
        []);
    ("INVSELL",
      Class ["INVBUYSELL"] [] None
        []
        []);
    ("BUYDEBT",
      Class ["INVBUY"; "INVTRAN"] [] None
        []
        []);
    ("BUYMF",
      Class ["INVBUY"; "INVTRAN"] [] None
        []
        ["buytype"]);
    ("BUYOPT",
      Class ["INVBUY"; "INVTRAN"] [] None
        []
        ["optbuytype"; "shperctrct"]);
    ("BUYOTHER",
      Class ["INVBUY"; "INVTRAN"] [] None
        []
        []);
    ("BUYSTOCK",
      Class ["INVBUY"; "INVTRAN"] [] None
        []
        ["buytype"]);
    ("CLOSUREOPT",
      Class ["SECID"; "INVTRAN"] [] None
        []
        ["units"; "shperctrct"; "subacctsec"]);
    ("INCOME",
      Class ["SECID"; "ORIGCURRENCY"; "INVTRAN"] [] None
        []
        ["incometype"; "total"; "subacctsec"; "subacctfund"]);
    ("INVEXPENSE",
      Class ["SECID"; "ORIGCURRENCY"; "INVTRAN"] [] None
        []
        ["total"; "subacctsec"; "subacctfund"]);
    ("JRNLFUND",
      Class ["INVTRAN"] [] None
        []
        ["subacctto"; "subacctfrom"; "total"]);
    ("JRNLSEC",
      Class ["SECID"; "INVTRAN"] [] None
        []
        ["subacctto"; "subacctfrom"; "units"]);
    ("MARGININTEREST",
      Class ["ORIGCURRENCY"; "INVTRAN"] [] None
        []
        ["total"; "subacctfund"]);
    ("REINVEST",
      Class ["SECID"; "ORIGCURRENCY"; "INVTRAN"] [] None
        []
        ["incometype"; "total"; "units"; "unitprice"]);
    ("RETOFCAP",
      Class ["SECID"; "ORIGCURRENCY"; "INVTRAN"] [] None
        []
        ["total"; "subacctsec"; "subacctfund"]);
    ("SELLDEBT",
      Class ["INVSELL"; "INVTRAN"] [] None
        []
        ["sellreason"]);
    ("SELLMF",
      Class ["INVSELL"; "INVTRAN"] [] None
        []
        ["selltype"]);
    ("SELLOPT",
      Class ["INVSELL"; "INVTRAN"] [] None
        []
        ["optselltype"; "shperctrct"]);
    ("SELLOTHER",
      Class ["INVSELL"; "INVTRAN"] [] None
        []
        []);
    ("SELLSTOCK",
      Class ["INVSELL"; "INVTRAN"] [] None
        []
        ["selltype"]);
    ("SPLIT",
      Class ["SECID"; "INVTRAN"] [] None
        []
        ["subacctsec"; "oldunits"; "newunits"; "numerator"; "denominator"]);
    ("TRANSFER",
      Class ["SECID"; "INVTRAN"] [] None
        []
        ["subacctsec"; "units"; "tferaction"; "postype"]);
    ("Inheritor_invpos",
      Class ["object"] ["primary_keys"] None
        []
        ["subclass"]);
    ("INVPOS",
      Class ["Inheritor_invpos"; "SECID"; "CURRENCY"; "Aggregate"] ["pks"; "_preflatten"] (Some ["acctfrom_id"; "secinfo_id"; "dtasof"])
        []
        ["heldinacct"; "postype"; "units"; "unitprice"; "mktval"; "dtpriceasof"]);
    ("POSDEBT",
      Class ["INVPOS"] [] None
        []
        []);
    ("POSMF",
      Class ["INVPOS"] [] None
        []
        []);
    ("POSOPT",
      Class ["INVPOS"] [] None
        []
        []);
    ("POSOTHER",
      Class ["INVPOS"] [] None
        []
        []);
    ("POSSTOCK",
      Class ["INVPOS"] [] None
        []
        [])
  ].

Definition class_of (c : string) : option pyclass :=
  snd <$> List.find (fun p => String.eqb (fst p) c) classes.

Definition mem (x : string) (xs : list string) : bool :=
  existsb (String.eqb x) xs.

(** C3 linearisation ([cls.__mro__]). *)
Definition good_head (seqs : list (list string)) (x : string) : bool :=
  forallb (fun s => negb (mem x (tail s))) seqs.

Definition pick_head (seqs : list (list string)) : option string :=
  List.find (good_head seqs) (omap head seqs).

Definition drop_head (x : string) (s : list string) : list string :=
  match s with
  | y :: s' => if String.eqb x y then s' else s
  | [] => []
  end.

Fixpoint c3_merge (n : nat) (seqs : list (list string)) : option (list string) :=
  match n with
  | 0 => None
  | S n' =>
      match List.filter (fun s => negb (Nat.eqb (length s) 0)) seqs with
      | [] => Some []
      | seqs' =>
          match pick_head seqs' with
          | None => None
          | Some x =>
              match c3_merge n' (map (drop_head x) seqs') with
              | Some r => Some (x :: r)
              | None => None
              end
          end
      end
  end.

Fixpoint linearise (n : nat) (c : string) : option (list string) :=
  match n with
  | 0 => None
  | S n' =>
      match class_of c with
      | None => None
      | Some k =>
          match mapM (linearise n') (bases k) with
          | None => None
          | Some ms =>
              match c3_merge 64 (ms ++ [bases k]) with
              | Some r => Some (c :: r)
              | None => None
              end
          end
      end
  end.

Definition mro (c : string) : list string := default [] (linearise 16 c).

(** Attribute lookup on a class: the first class of the MRO binding it. *)
Definition defined_in (m : string) (c : string) : bool :=
  match class_of c with
  | Some k => mem m (defs k)
  | None => false
  end.

Definition resolve (c m : string) : option string :=
  List.find (defined_in m) (mro c).

(** [isinstance(x, c)] for an instance of class [k]; a query on [c] returns
    the rows of [c] and of its subclasses. *)
Definition issubclass (k c : string) : bool := mem c (mro k).

(** What [globals()] maps a name to: a class of the module, or something
    else (an import, a constant, [DBSession], [Inheritor]). *)
Inductive gobject : Type :=
  | GClass (c : string)
  | GOther.

Definition other_globals : list string :=
  [
    "Column"; "Boolean"; "Enum"; "Integer"; "String"; "Text"; "ForeignKey";
    "ForeignKeyConstraint"; "sqlalchemy"; "UniqueConstraint";
    "declarative_base"; "as_declarative"; "declared_attr";
    "has_inherited_table"; "scoped_session"; "sessionmaker";
    "relationship"; "backref"; "NoResultFound"; "Numeric"; "OFXDateTime";
    "LANG_CODES"; "CURRENCY_CODES"; "COUNTRY_CODES"; "INV401KSOURCES";
    "ACCTTYPES"; "INVSUBACCTS"; "BUYTYPES"; "SELLTYPES"; "INCOMETYPES";
    "ASSETCLASSES"; "DBSession"; "Inheritor"
  ].

(** Names every module has. *)
Definition module_dunders : list string :=
  ["__builtins__"; "__doc__"; "__file__"; "__name__"; "__package__"].

Definition is_module_class (c : string) : bool :=
  negb (String.eqb c "object") && negb (String.prefix "Inheritor_" c).

Definition globals : list (string * gobject) :=
  map (fun n => (n, GOther)) (module_dunders ++ other_globals)
  ++ map (fun p => (fst p, GClass (fst p)))
         (List.filter (fun p => is_module_class (fst p)) classes).

(** [globals()[name]] *)
Definition globals_lookup (name : string) : result exn gobject :=
  match List.find (fun p => String.eqb (fst p) name) globals with
  | Some p => Ok (snd p)
  | None => Raise (KeyError name)
  end.

(** *** The session *)

Definition new_object (i : Instance) : M world ref :=
  fun w => (Ok (length (objs w)), World (hp w) (objs w ++ [i]) (session w)).

(** [DBSession.add(instance)] *)
Definition session_add (r : ref) : M world unit :=
  fun w => (Ok tt, World (hp w) (objs w) (session w ++ [r])).

(** [instance.name] through a reference. *)
Definition getattr_of (r : ref) (k : string) : M world pyval :=
  fun w => match objs w !! r with
           | Some i => (Ok (getattr i k), w)
           | None => (Raise (AttributeError k), w)
           end.

(** The row test of [query(c).filter_by(...)] with keywords [pk]. *)
Definition row_matches (c : string) (pk : list (string * pyval)) (i : Instance)
  : bool :=
  issubclass (cls i) c
  && forallb (fun kv => bool_decide (getattr i (fst kv) = snd kv)) pk.

Definition query (c : string) (pk : list (string * pyval)) (w : world)
  : list ref :=
  List.filter (fun r => match objs w !! r with
                        | Some i => row_matches c pk i
                        | None => false
                        end) (session w).

(** [Query.one()] *)
Definition one (rows : list ref) : M world ref :=
  match rows with
  | [r] => ret r
  | [] => raise NoResultFound
  | _ => raise MultipleResultsFound
  end.

Section Binding.

(** [Element._flatten] belongs to the parser and the declarative
    constructor to SQLAlchemy; both are taken as given.  [_flatten]
    reads the tree under an element into a dictionary, or blows up;
    [accepts c kw] tells whether the constructor of [c] takes the
    keywords [kw]. *)
Variable _flatten : heap -> loc -> option kwargs.
Variable accepts : string -> kwargs -> bool.

(** [cls(...)] with keywords [attributes] *)
Definition construct (c : string) (attributes : kwargs) : M world ref :=
  if accepts c attributes
  then new_object {| cls := c; attrs := attributes |}
  else raise (TypeError "invalid keyword argument").

(** [Aggregate.primary_keys] and [InheritanceMixin.primary_keys] *)
Definition primary_keys (c : string) : M world (list string) :=
  match resolve c "primary_keys" with
  | None => raise (AttributeError "primary_keys")
  | Some d =>
      if String.eqb d "Aggregate"
      then ret (flat_map (fun k => match class_of k with
                                   | Some kc => pk_columns kc
                                   | None => []
                                   end) (mro c))
      else match resolve c "pks" with
           | Some k =>
               match class_of k ≫= cpks with
               | Some ps => ret ps
               | None => raise (AttributeError "pks")
               end
           | None => raise (AttributeError "pks")
           end
  end.

(** [Aggregate.get] *)
Definition get (c : string) (attributes : kwargs) : M world ref :=
  pks <~ primary_keys c ;;
  match mapM (fun k => pair k <$> attributes !! k) pks with
  | None => raise (ValueError "Required attributes not satisfied by arguments")
  | Some pk => w <~ get_state ;; one (query c pk w)
  end.

(** [Aggregate.get_or_create] *)
Definition get_or_create (c : string) (attributes : kwargs) : M world ref :=
  try_except (get c attributes) is_NoResultFound
    (instance <~ construct c attributes ;;
     session_add instance ;;;
     ret instance).

(** [obj.text] where [obj] may be [None]. *)
Definition text_attr (o : option loc) : M world pyval :=
  match o with
  | None => raise (AttributeError "text")
  | Some l =>
      tx <~ on_heap (text_of l) ;;
      ret (match tx with Some s => VStr s | None => VNone end)
  end.

(** [SECID._do_secid] *)
Definition SECID__do_secid (element : loc) (extra_attrs : kwargs)
  : M world (loc * kwargs) :=
  secid <~ on_heap (find_descendant "SECID" element) ;;
  match secid with
  | None => raise (AttributeError "find")
  | Some secid =>
      uniqueidtype <~ on_heap (find_child "UNIQUEIDTYPE" secid) ;;
      uniqueid <~ on_heap (find_child "UNIQUEID" secid) ;;
      ut <~ text_attr uniqueidtype ;;
      ui <~ text_attr uniqueid ;;
      secinfo <~ get "SECINFO" {[ "uniqueidtype" := ut; "uniqueid" := ui ]} ;;
      id <~ getattr_of secinfo "id" ;;
      let extra_attrs := <["secinfo_id" := id]> extra_attrs in
      match uniqueidtype, uniqueid with
      | Some uniqueidtype, Some uniqueid =>
          on_heap (remove secid uniqueidtype) ;;;
          on_heap (remove secid uniqueid) ;;;
          ret (element, extra_attrs)
      | _, _ => raise (TypeError "remove() argument must be Element")
      end
  end.

(** [OPTINFO._do_secid] *)
Definition OPTINFO__do_secid (element : loc) (extra_attrs : kwargs)
  : M world (loc * kwargs) :=
  secid <~ on_heap (find_child "SECID" element) ;;
  match secid with
  | Some secid => on_heap (remove element secid) ;;; ret (element, extra_attrs)
  | None => ret (element, extra_attrs)
  end.

(** [cls._do_secid(element, **extra_attrs)].  [INVTRAN._do_secid] is a
    plain function (its [classmethod] line lacks the [@]), so calling it
    through the class is a [TypeError]. *)
Definition call_do_secid (c : string) (element : loc) (extra_attrs : kwargs)
  : M world (loc * kwargs) :=
  match resolve c "_do_secid" with
  | None => raise (AttributeError "_do_secid")
  | Some d =>
      if String.eqb d "SECID" then SECID__do_secid element extra_attrs
      else if String.eqb d "OPTINFO" then OPTINFO__do_secid element extra_attrs
      else raise (TypeError "_do_secid")
  end.

(** [ORIGCURRENCY._do_origcurrency].  The message of the [ValueError]
    is formatted from [elem.tag], and the module binds no [elem]. *)
Definition ORIGCURRENCY__do_origcurrency (element : loc) (extra_attrs : kwargs)
  : M world (loc * kwargs) :=
  currency <~ on_heap (find_grandchild "CURRENCY" element) ;;
  origcurrency <~ on_heap (find_grandchild "ORIGCURRENCY" element) ;;
  match currency, origcurrency with
  | Some _, Some _ => raise (NameError "elem")
  | _, _ =>
      let curtype := match currency with
                     | Some c => Some c
                     | None => origcurrency
                     end in
      curtype <~ match curtype with
                 | Some c => nd <~ on_heap (get_node c) ;; ret (VStr (ntag nd))
                 | None => ret VNone
                 end ;;
      ret (element, <["curtype" := curtype]> extra_attrs)
  end.

(** [cls._do_origcurrency(element, **extra_attrs)] *)
Definition call_do_origcurrency (c : string) (element : loc)
    (extra_attrs : kwargs) : M world (loc * kwargs) :=
  match resolve c "_do_origcurrency" with
  | None => raise (AttributeError "_do_origcurrency")
  | Some d =>
      if String.eqb d "ORIGCURRENCY"
      then ORIGCURRENCY__do_origcurrency element extra_attrs
      else ret (element, extra_attrs)
  end.

(** [if elem:] an element with no children is false. *)
Definition element_truthy (o : option loc) : M world bool :=
  match o with
  | None => ret false
  | Some l => ks <~ on_heap (children_of l) ;; ret (negb (Nat.eqb (length ks) 0))
  end.

(** [BANKTRAN._preflatten]; [bind_child] is [Aggregate.from_etree].  The
    BANKACCTTO branch hands [element.remove] the instance, which is not
    a child of [element]. *)
Definition BANKTRAN__preflatten (bind_child : loc -> kwargs -> M world ref)
    (element : loc) (extra_attrs : kwargs) : M world (loc * kwargs) :=
  bankacctto <~ on_heap (find_child "BANKACCTTO" element) ;;
  b <~ element_truthy bankacctto ;;
  extra_attrs <~
    (match bankacctto, b with
     | Some bankacctto, true =>
         instance <~ bind_child bankacctto {[ "get_or_create" := VBool true ]} ;;
         id <~ getattr_of instance "id" ;;
         raise (ValueError "list.remove(x): x not in list")
     | _, _ =>
         ccacctto <~ on_heap (find_child "CCACCTTO" element) ;;
         b <~ element_truthy ccacctto ;;
         match ccacctto, b with
         | Some ccacctto, true =>
             instance <~ bind_child ccacctto {[ "get_or_create" := VBool true ]} ;;
             id <~ getattr_of instance "id" ;;
             on_heap (remove element ccacctto) ;;;
             ret (<["acctto_id" := id]> extra_attrs)
         | _, _ => ret extra_attrs
         end
     end) ;;
  payee <~ on_heap (find_child "PAYEE" element) ;;
  b <~ element_truthy payee ;;
  match payee, b with
  | Some payee, true =>
      instance <~ bind_child payee {[ "get_or_create" := VBool true ]} ;;
      name <~ getattr_of instance "name" ;;
      on_heap (remove element payee) ;;;
      ret (element, <["payee_name" := name]> extra_attrs)
  | _, _ => ret (element, extra_attrs)
  end.

(** [SubClass._preflatten(element, **extra_attrs)] *)
Definition call_preflatten (bind_child : loc -> kwargs -> M world ref)
    (c : string) (element : loc) (extra_attrs : kwargs)
  : M world (loc * kwargs) :=
  match resolve c "_preflatten" with
  | None => raise (AttributeError "_preflatten")
  | Some d =>
      if String.eqb d "OPTINFO" then call_do_secid c element extra_attrs
      else if String.eqb d "BANKTRAN"
           then BANKTRAN__preflatten bind_child element extra_attrs
      else if String.eqb d "INVTRAN"
           then r <~ call_do_secid c element extra_attrs ;;
                call_do_origcurrency c (fst r) (snd r)
      else if String.eqb d "INVPOS" then call_do_secid c element extra_attrs
      else ret (element, extra_attrs)
  end.

(** [STOCKINFO._postflatten] *)
Definition STOCKINFO__postflatten (attributes extra_attrs : kwargs)
  : kwargs * kwargs :=
  let yld := default VNone (attributes !! "yield") in
  let attributes := delete "yield" attributes in
  (if truthy yld then <["yld" := yld]> attributes else attributes, extra_attrs).

(** [SubClass._postflatten(attributes, **extra_attrs)] *)
Definition call_postflatten (c : string) (attributes extra_attrs : kwargs)
  : M world (kwargs * kwargs) :=
  match resolve c "_postflatten" with
  | None => raise (AttributeError "_postflatten")
  | Some d =>
      if String.eqb d "STOCKINFO"
      then ret (STOCKINFO__postflatten attributes extra_attrs)
      else ret (attributes, extra_attrs)
  end.

(** [element._flatten()] *)
Definition call_flatten (element : loc) : M world kwargs :=
  fun w => match _flatten (hp w) element with
           | Some a => (Ok a, w)
           | None => (Raise (ValueError "_flatten"), w)
           end.

(** The body of [Aggregate.from_etree] below the lookup of [SubClass];
    [bind_child] is [Aggregate.from_etree] itself, for the hooks that
    bind a child element. *)
Definition bind_as (bind_child : loc -> kwargs -> M world ref)
    (SubClass : string) (get_or_create_flag : pyval)
    (element : loc) (extra_attrs : kwargs) : M world ref :=
  r <~ call_preflatten bind_child SubClass element extra_attrs ;;
  attributes <~ call_flatten (fst r) ;;
  r' <~ call_postflatten SubClass attributes (snd r) ;;
  let attributes := snd r' ∪ fst r' in
  if truthy get_or_create_flag
  then match resolve SubClass "get_or_create" with
       | Some _ => get_or_create SubClass attributes
       | None => raise (AttributeError "get_or_create")
       end
  else construct SubClass attributes.

(** [Aggregate.from_etree]; [n] bounds the nesting of calls. *)
Fixpoint from_etree (n : nat) (element : loc) (extra_attrs : kwargs)
  : M world ref :=
  match n with
  | 0 => raise RecursionError
  | S n' =>
      let get_or_create_flag :=
        default (VBool false) (extra_attrs !! "get_or_create") in
      let extra_attrs := delete "get_or_create" extra_attrs in
      nd <~ on_heap (get_node element) ;;
      match globals_lookup (ntag nd) with
      | Raise e => raise e
      | Ok GOther => raise (AttributeError "_preflatten")
      | Ok (GClass SubClass) =>
          bind_as (from_etree n') SubClass get_or_create_flag element extra_attrs
      end
  end.


End Binding.


(** *** A parser and a constructor to run the binder with *)

Definition lower_ascii (c : ascii) : ascii :=
  let n := nat_of_ascii c in
  if Nat.leb 65 n && Nat.leb n 90 then ascii_of_nat (n + 32) else c.

Fixpoint lower (s : string) : string :=
  match s with
  | EmptyString => EmptyString
  | String c s' => String (lower_ascii c) (lower s')
  end.

(** Modelled from the spec: [Element._flatten] of the ofxalchemy parser,
    which is not among the sources.  Every data-bearing leaf under the
    element becomes an attribute named by its lower-cased tag, nested
    aggregates are flattened onto the same dictionary (section 4.5), and
    a name met twice "blows up" (docstring of [MFINFO.from_etree]). *)
Fixpoint flatten_tree (t : Element) : option kwargs :=
  let 'Elem _ _ ks := t in
  foldl (fun acc k =>
           match acc with
           | None => None
           | Some a =>
               match k with
               | Elem tg (Some text) [] =>
                   match a !! lower tg with
                   | None => Some (<[lower tg := VStr text]> a)
                   | Some _ => None
                   end
               | _ =>
                   match flatten_tree k with
                   | None => None
                   | Some b => if decide (a ##ₘ b) then Some (a ∪ b) else None
                   end
               end
           end) (Some ∅) ks.

Definition flatten_leaves (h : heap) (l : loc) : option kwargs :=
  read (length h) h l ≫= flatten_tree.

(** A constructor that takes every keyword. *)
Definition accept_all (c : string) (kw : kwargs) : bool := true.

(** A world holding the tree [t] and the given session objects. *)
Definition world_of (t : Element) (rows : list Instance) : loc * world :=
  let '(l, h) := alloc t [] in
  (l, World h rows (seq 0 (length rows))).

End Alchemy.

(** ** ofxtools/models: the binder and renderer, and email.py *)

Module Models.
Import ET.

(** *** Hooks on trees *)

(** A hook is Python code on [Element] objects.  The binder hands it a
    tree: the tree is built in an empty heap, the hook runs there, and the
    tree under the element it returns is read back. *)
Definition on_tree (hook : loc -> M heap loc) (t : Element) : result exn Element :=
  let '(l, h) := alloc t [] in
  match hook l h with
  | (Ok l', h') =>
      match read (length h') h' l' with
      | Some t' => Ok t'
      | None => Raise RecursionError
      end
  | (Raise e, _) => Raise e
  end.

(** Modelled from the spec: [Aggregate.groom] and [Aggregate.ungroom] of
    ofxtools/models/base.py, which is not among the sources; the pre-hook
    and the tag-restoration pass are "identity by default". *)
Definition Aggregate_groom (elem : loc) : M heap loc := ret elem.
Definition Aggregate_ungroom (elem : loc) : M heap loc := ret elem.

(** [MAIL.groom] *)
Definition MAIL_groom (elem : loc) : M heap loc :=
  elem <~ deepcopy elem ;;
  frm <~ find_child "FROM" elem ;;
  match frm with
  | Some frm => set_tag frm "FRM"
  | None => ret tt
  end ;;;
  Aggregate_groom elem.

(** [MAIL.ungroom] *)
Definition MAIL_ungroom (elem : loc) : M heap loc :=
  elem <~ deepcopy elem ;;
  frm <~ find_child "FRM" elem ;;
  match frm with
  | Some frm => set_tag frm "FROM"
  | None => ret tt
  end ;;;
  Aggregate_ungroom elem.

(** What the two hooks amount to on a tree: the first child tagged [old]
    is retagged [new]. *)
Fixpoint retag_first (old new : string) (ks : list Element) : list Element :=
  match ks with
  | [] => []
  | Elem tg tx cs :: ks' =>
      if String.eqb tg old then Elem new tx cs :: ks'
      else Elem tg tx cs :: retag_first old new ks'
  end.

Definition retag_child (old new : string) (t : Element) : Element :=
  let 'Elem tg tx ks := t in Elem tg tx (retag_first old new ks).

(** *** Errors of the binder (spec, section 7) *)

Inductive BindError : Type :=
  | UnknownAggregateError (tag : string)
  | MissingRequiredError (tag member : string)
  | InvalidContainmentError (tag child : string)
  | ValueTypeError (tag member : string)
  | HookError (e : exn)
  | NestingTooDeep.

Definition rbind {E A B} (m : result E A) (k : A -> result E B) : result E B :=
  match m with
  | Ok a => k a
  | Raise e => Raise e
  end.

Notation "x <-! m ;; k" := (rbind m (fun x => k))
  (at level 100, m at next level, right associativity) : py_scope.

(** [str.upper] on ASCII letters: member [usehtml] is the child USEHTML. *)
Definition upper_ascii (c : ascii) : ascii :=
  let n := nat_of_ascii c in
  if Nat.leb 97 n && Nat.leb n 122 then ascii_of_nat (n - 32) else c.

Fixpoint upper (s : string) : string :=
  match s with
  | EmptyString => EmptyString
  | String c s' => String (upper_ascii c) (upper s')
  end.

Fixpoint assoc {A} (k : string) (l : list (string * A)) : option A :=
  match l with
  | [] => None
  | (k', a) :: l' => if String.eqb k' k then Some a else assoc k l'
  end.

Definition child (tg : string) (ks : list Element) : option Element :=
  List.find (fun k => String.eqb (etag k) tg) ks.

Section Binder.

(** The date/time codec of ofxtools/Types.py is not among the sources;
    its values and its two directions are taken as given. *)
Variable datetime : Type.
Variable parse_datetime : string -> option datetime.
Variable render_datetime : datetime -> option string.

(** Modelled from the spec: the field types of ofxtools/Types.py
    (section 4.1) that email.py declares members with, and the
    "unsupported" placeholder. *)
Inductive FieldType : Type :=
  | String (length : N)
  | Bool
  | DateTime
  | OneOf (allowed : list string)
  | Unsupported.

Inductive Value : Type :=
  | VText (s : string)
  | VBool (b : bool)
  | VDateTime (d : datetime).

(** Modelled from the spec: [parse(text) -> value] of a field type
    (section 4.1).  [None] is the type error; [Some None] is "absent",
    what the unsupported type yields for any input. *)
Definition parse (ft : FieldType) (text : string) : option (option Value) :=
  match ft with
  | String n =>
      if N.leb (N.of_nat (String.length text)) n
      then Some (Some (VText text)) else None
  | Bool =>
      if String.eqb text "Y" then Some (Some (VBool true))
      else if String.eqb text "N" then Some (Some (VBool false))
      else None
  | DateTime =>
      match parse_datetime text with
      | Some d => Some (Some (VDateTime d))
      | None => None
      end
  | OneOf allowed =>
      if existsb (String.eqb text) allowed then Some (Some (VText text)) else None
  | Unsupported => Some None
  end.

(** Modelled from the spec: [render(value) -> text] of a field type
    (section 4.1); [None] when the value is outside the type's domain. *)
Definition render (ft : FieldType) (v : Value) : option string :=
  match ft, v with
  | String n, VText s =>
      if N.leb (N.of_nat (String.length s)) n then Some s else None
  | Bool, VBool true => Some "Y"
  | Bool, VBool false => Some "N"
  | DateTime, VDateTime d => render_datetime d
  | OneOf allowed, VText s =>
      if existsb (String.eqb s) allowed then Some s else None
  | _, _ => None
  end.

(** *** Schemas and instances (spec, section 3) *)

Inductive Member : Type :=
  | Scalar (ft : FieldType) (required : bool)
  | SubAggregate (schema : string) (required : bool).

Record Schema : Type :=
  { members : list (string * Member);
    dataTags : list string;
    groom : Element -> result exn Element;
    ungroom : Element -> result exn Element }.

(** An instance: its schema's tag, the scalar attributes, the
    sub-aggregates, and the ordered items of a list aggregate. *)
Inductive Instance : Type :=
  | Inst (tag : string) (scalars : list (string * Value))
         (subs : list (string * Instance)) (items : list Instance).

Definition itag (x : Instance) : string := let 'Inst tg _ _ _ := x in tg.
Definition iscalars (x : Instance) := let 'Inst _ sc _ _ := x in sc.
Definition isubs (x : Instance) := let 'Inst _ _ sb _ := x in sb.
Definition iitems (x : Instance) := let 'Inst _ _ _ it := x in it.

(** The registry: tag to schema, read-only. *)
Variable registry : list (string * Schema).

Definition resolve (tg : string) : option Schema := assoc tg registry.

(** The tag a member is read from and written to. *)
Definition member_tag (m : string * Member) : string :=
  match snd m with
  | Scalar _ _ => upper (fst m)
  | SubAggregate schema _ => schema
  end.

Definition member_tags (s : Schema) : list string := map member_tag (members s).

Definition permitted (s : Schema) (k : Element) : bool :=
  existsb (String.eqb (etag k)) (member_tags s)
  || existsb (String.eqb (etag k)) (dataTags s).

Definition is_item (s : Schema) (k : Element) : bool :=
  negb (existsb (String.eqb (etag k)) (member_tags s)).

(** Scalar members, in declared order. *)
Fixpoint bind_scalars (tg : string) (ms : list (string * Member))
    (ks : list Element) : result BindError (list (string * Value)) :=
  match ms with
  | [] => Ok []
  | (name, Scalar ft _) :: ms' =>
      match child (upper name) ks with
      | None => bind_scalars tg ms' ks
      | Some k =>
          match parse ft (default "" (etext k)) with
          | None => Raise (ValueTypeError tg name)
          | Some None => bind_scalars tg ms' ks
          | Some (Some v) =>
              rest <-! bind_scalars tg ms' ks ;; Ok ((name, v) :: rest)
          end
      end
  | (_, SubAggregate _ _) :: ms' => bind_scalars tg ms' ks
  end.

(** Sub-aggregate members, in declared order. *)
Fixpoint bind_subs (bind : Element -> result BindError Instance)
    (ms : list (string * Member)) (ks : list Element)
  : result BindError (list (string * Instance)) :=
  match ms with
  | [] => Ok []
  | (name, SubAggregate schema _) :: ms' =>
      match child schema ks with
      | None => bind_subs bind ms' ks
      | Some k =>
          x <-! bind k ;;
          rest <-! bind_subs bind ms' ks ;;
          Ok ((name, x) :: rest)
      end
  | (_, Scalar _ _) :: ms' => bind_subs bind ms' ks
  end.

(** List items, in encountered order. *)
Fixpoint bind_items (bind : Element -> result BindError Instance)
    (ks : list Element) : result BindError (list Instance) :=
  match ks with
  | [] => Ok []
  | k :: ks' =>
      x <-! bind k ;;
      rest <-! bind_items bind ks' ;;
      Ok (x :: rest)
  end.

Definition is_required (m : Member) : bool :=
  match m with
  | Scalar _ r => r
  | SubAggregate _ r => r
  end.

Definition present (scalars : list (string * Value))
    (subs : list (string * Instance)) (m : string * Member) : bool :=
  match snd m with
  | Scalar _ _ => bool_decide (is_Some (assoc (fst m) scalars))
  | SubAggregate _ _ => bool_decide (is_Some (assoc (fst m) subs))
  end.

(** The first required member that is absent. *)
Definition missing_required (s : Schema) (scalars : list (string * Value))
    (subs : list (string * Instance)) : option string :=
  fst <$> List.find (fun m => is_required (snd m) && negb (present scalars subs m))
                    (members s).

(** Modelled from the spec: [Aggregate.from_etree] of
    ofxtools/models/base.py, which is not among the sources (section 4.3,
    steps 1 to 6; the post-hook is the identity for every schema of
    email.py and is left out).  [n] bounds the nesting depth. *)
Fixpoint from_etree (n : nat) (elem : Element) : result BindError Instance :=
  match n with
  | 0 => Raise NestingTooDeep
  | S n' =>
      let tg := etag elem in
      match resolve tg with
      | None => Raise (UnknownAggregateError tg)
      | Some s =>
          match groom s elem with
          | Raise e => Raise (HookError e)
          | Ok elem =>
              let ks := echildren elem in
              match List.find (fun k => negb (permitted s k)) ks with
              | Some k => Raise (InvalidContainmentError tg (etag k))
              | None =>
                  scalars <-! bind_scalars tg (members s) ks ;;
                  subs <-! bind_subs (from_etree n') (members s) ks ;;
                  items <-! bind_items (from_etree n') (List.filter (is_item s) ks) ;;
                  match missing_required s scalars subs with
                  | Some name => Raise (MissingRequiredError tg name)
                  | None => Ok (Inst tg scalars subs items)
                  end
              end
          end
      end
  end.

(** Rendering the members of one kind, in declared order. *)
Fixpoint render_scalars (tg : string) (ms : list (string * Member))
    (scalars : list (string * Value)) : result BindError (list Element) :=
  match ms with
  | [] => Ok []
  | (name, Scalar ft _) :: ms' =>
      match assoc name scalars with
      | None => render_scalars tg ms' scalars
      | Some v =>
          match render ft v with
          | None => Raise (ValueTypeError tg name)
          | Some text =>
              rest <-! render_scalars tg ms' scalars ;;
              Ok (Elem (upper name) (Some text) [] :: rest)
          end
      end
  | (_, SubAggregate _ _) :: ms' => render_scalars tg ms' scalars
  end.

Fixpoint render_subs (ms : list (string * Member))
    (rendered : list (string * result BindError Element))
  : result BindError (list Element) :=
  match ms with
  | [] => Ok []
  | (name, SubAggregate _ _) :: ms' =>
      match assoc name rendered with
      | None => render_subs ms' rendered
      | Some r =>
          k <-! r ;;
          rest <-! render_subs ms' rendered ;;
          Ok (k :: rest)
      end
  | (_, Scalar _ _) :: ms' => render_subs ms' rendered
  end.

Fixpoint sequence {E A} (rs : list (result E A)) : result E (list A) :=
  match rs with
  | [] => Ok []
  | r :: rs' => a <-! r ;; rest <-! sequence rs' ;; Ok (a :: rest)
  end.

(** Modelled from the spec: [Aggregate.to_etree] of
    ofxtools/models/base.py, which is not among the sources (section
    4.3): scalar members, then sub-aggregate members, then list items,
    then the tag-restoration pass. *)
Fixpoint to_etree (x : Instance) : result BindError Element :=
  let 'Inst tg scalars subs items := x in
  match resolve tg with
  | None => Raise (UnknownAggregateError tg)
  | Some s =>
      sk <-! render_scalars tg (members s) scalars ;;
      ak <-! render_subs (members s) (map (fun p => (fst p, to_etree (snd p))) subs) ;;
      ik <-! sequence (map to_etree items) ;;
      match ungroom s (Elem tg None (sk ++ ak ++ ik)) with
      | Ok t => Ok t
      | Raise e => Raise (HookError e)
      end
  end.

End Binder.

Arguments Inst {datetime} tag scalars subs items.
Arguments VText {datetime} s.
Arguments VBool {datetime} b.
Arguments VDateTime {datetime} d.
Arguments itag {datetime} x.
Arguments iscalars {datetime} x.
Arguments isubs {datetime} x.
Arguments iitems {datetime} x.
Arguments present {datetime} scalars subs m.
Arguments missing_required {datetime} s scalars subs.

(** *** ofxtools/models/email.py *)

Section Email.

(** The envelope bases of ofxtools/models/wrapperbases.py are not among
    the sources; the members they contribute are taken as given.  A
    schema's members are those of its bases, then its own. *)
Variables TrnRq TrnRs SyncRqList SyncRsList : list (string * Member).

(** A class with the hooks of [Aggregate]. *)
Definition aggregate (ms : list (string * Member)) (tags : list string)
  : Schema :=
  {| members := ms; dataTags := tags;
     groom := on_tree Aggregate_groom; ungroom := on_tree Aggregate_ungroom |}.

Definition MAIL : Schema :=
  {| members :=
       [ ("userid", Scalar (String 32%N) true);
         ("dtcreated", Scalar DateTime true);
         ("frm", Scalar (String 32%N) true);
         ("to", Scalar (String 32%N) true);
         ("subject", Scalar (String 60%N) true);
         ("msgbody", Scalar (String 10000%N) true);
         ("incimages", Scalar Bool true);
         ("usehtml", Scalar Bool true) ];
     dataTags := [];
     groom := on_tree MAIL_groom;
     ungroom := on_tree MAIL_ungroom |}.

Definition MAILRQ := aggregate [ ("mail", SubAggregate "MAIL" true) ] [].
Definition MAILRS := aggregate [ ("mail", SubAggregate "MAIL" true) ] [].
Definition MAILTRNRQ :=
  aggregate (TrnRq ++ [ ("mailrq", SubAggregate "MAILRQ" true) ]) [].
Definition MAILTRNRS :=
  aggregate (TrnRs ++ [ ("mailrs", SubAggregate "MAILRS" false) ]) [].
Definition MAILSYNCRQ :=
  aggregate (SyncRqList ++ [ ("incimages", Scalar Bool true);
                             ("usehtml", Scalar Bool true) ])
            [ "MAILTRNRQ" ].
Definition MAILSYNCRS := aggregate SyncRsList [ "MAILTRNRS" ].
Definition GETMIMERQ := aggregate [ ("url", Scalar (String 255%N) true) ] [].
Definition GETMIMERS := aggregate [ ("url", Scalar (String 255%N) true) ] [].
Definition GETMIMETRNRQ :=
  aggregate (TrnRq ++ [ ("getmimerq", SubAggregate "GETMIMERQ" true) ]) [].
Definition GETMIMETRNRS :=
  aggregate (TrnRs ++ [ ("getmimers", SubAggregate "GETMIMERS" false) ]) [].
Definition EMAILMSGSRQV1 :=
  aggregate [] [ "MAILTRNRQ"; "GETMIMETRNRQ"; "MAILSYNCRQ" ].
Definition EMAILMSGSRSV1 :=
  aggregate [] [ "MAILTRNRS"; "GETMIMETRNRS"; "MAILSYNCRS" ].
Definition EMAILMSGSETV1 :=
  aggregate [ ("msgsetcore", SubAggregate "MSGSETCORE" true);
              ("mailsup", Scalar Bool true);
              ("getmimesup", Scalar Bool true) ] [].
Definition EMAILMSGSET :=
  aggregate [ ("emailmsgsetv1", SubAggregate "EMAILMSGSETV1" true) ] [].

(** The classes email.py adds to the registry ([__all__]). *)
Definition email_schemas : list (string * Schema) :=
  [ ("MAIL", MAIL); ("MAILRQ", MAILRQ); ("MAILRS", MAILRS);
    ("MAILTRNRQ", MAILTRNRQ); ("MAILTRNRS", MAILTRNRS);
    ("MAILSYNCRQ", MAILSYNCRQ); ("MAILSYNCRS", MAILSYNCRS);
    ("GETMIMERQ", GETMIMERQ); ("GETMIMERS", GETMIMERS);
    ("GETMIMETRNRQ", GETMIMETRNRQ); ("GETMIMETRNRS", GETMIMETRNRS);
    ("EMAILMSGSRQV1", EMAILMSGSRQV1); ("EMAILMSGSRSV1", EMAILMSGSRSV1);
    ("EMAILMSGSETV1", EMAILMSGSETV1); ("EMAILMSGSET", EMAILMSGSET) ].

End Email.

End Models.


(** * Vocabulary of the statements *)

Module AlchemyDefs.
Import ET Alchemy.

(** The children [ks] without the first one tagged [tg]. *)
Fixpoint drop_first_tagged (h : heap) (tg : string) (ks : list loc) : list loc :=
  match ks with
  | [] => []
  | c :: ks' => if has_tag h tg c then ks' else c :: drop_first_tagged h tg ks'
  end.

(** The heap after [element] lost its first child tagged [tg]. *)
Definition without_child (tg : string) (element : loc) (h : heap) : heap :=
  match h !! element with
  | Some nd =>
      <[element := Node (ntag nd) (ntext nd) (drop_first_tagged h tg (nkids nd))]> h
  | None => h
  end.

(** The grandchildren of a node, in document order. *)
Definition grandkids (h : heap) (nd : node) : list loc :=
  flat_map (fun c => match h !! c with
                     | Some cn => nkids cn
                     | None => []
                     end) (nkids nd).

(** [obj.text] as a Python value. *)
Definition text_value (nd : node) : pyval :=
  match ntext nd with
  | Some s => VStr s
  | None => VNone
  end.

(** A class that mixes [SECID] into an [Aggregate]. *)
Definition secid_class (c : string) : bool :=
  mem "SECID" (mro c) && mem "Aggregate" (mro c).

Definition secid_dispatch (c : string) : bool :=
  match resolve c "_do_secid", resolve c "_preflatten",
        resolve c "_postflatten", globals_lookup c with
  | Some d, Some p, Some q, Ok (GClass c') =>
      String.eqb d "SECID"
      && (String.eqb p "INVTRAN" || String.eqb p "INVPOS")
      && String.eqb q "Aggregate" && String.eqb c' c
      && negb (issubclass c "SECINFO")
  | _, _, _, _ => false
  end.

(** [ks] without the first occurrence of [c], if any. *)
Definition drop_loc (c : loc) (ks : list loc) : list loc :=
  default ks (remove_first c ks).

(** The heap after [SECID._do_secid] took UNIQUEIDTYPE [t] and UNIQUEID
    [u] out of the SECID node [s]. *)
Definition emptied_secid (s t u : loc) (h : heap) : heap :=
  match h !! s with
  | Some sn =>
      <[s := Node (ntag sn) (ntext sn) (drop_loc u (drop_loc t (nkids sn)))]> h
  | None => h
  end.

(** Every reference of the session names an object. *)
Definition session_ok (w : world) : Prop :=
  Forall (fun r => r < length (objs w)) (session w).

(** The natural key [Aggregate.get] extracts from its keywords:
    [{k: attrs[k] for k in pks}]. *)
Definition key_of (pks : list string) (attributes : kwargs)
  : option (list (string * pyval)) :=
  mapM (fun k => pair k <$> attributes !! k) pks.

(** The columns a class maps with [nullable=False], its own and inherited. *)
Definition required_columns (c : string) : list string :=
  flat_map (fun k => match class_of k with
                     | Some kc => not_null kc
                     | None => []
                     end) (mro c).

(** **** Sample documents *)

Definition leaf (tg tx : string) : Element := Elem tg (Some tx) [].

Definition secid_berkshire : Element :=
  Elem "SECID" None [leaf "UNIQUEID" "084670108"; leaf "UNIQUEIDTYPE" "CUSIP"].

Definition buystock (currencies : list Element) : Element :=
  Elem "BUYSTOCK" None
    [ Elem "INVBUY" None
        ([ Elem "INVTRAN" None [leaf "FITID" "1001"; leaf "DTTRADE" "20190102"];
           secid_berkshire; leaf "UNITS" "10"; leaf "UNITPRICE" "300";
           leaf "TOTAL" "-3000" ] ++ currencies);
      leaf "BUYTYPE" "BUY" ].

Definition currency : Element :=
  Elem "CURRENCY" None [leaf "CURRATE" "1.1"; leaf "CURSYM" "EUR"].
Definition origcurrency : Element :=
  Elem "ORIGCURRENCY" None [leaf "CURRATE" "1.1"; leaf "CURSYM" "EUR"].

(** The security master row the sample SECID names. *)
Definition berkshire : Instance :=
  {| cls := "STOCKINFO";
     attrs := {[ "id" := VInt 7; "uniqueid" := VStr "084670108";
                 "uniqueidtype" := VStr "CUSIP"; "secname" := VStr "BRK.B" ]} |}.

Definition payee_without_addr1 : Element :=
  Elem "PAYEE" None [leaf "NAME" "ACME"; leaf "CITY" "Springfield"].

Definition optinfo : Element :=
  Elem "OPTINFO" None
    [ Elem "SECINFO" None [secid_berkshire; leaf "SECNAME" "BRK call"];
      leaf "OPTTYPE" "CALL"; leaf "STRIKEPRICE" "300";
      leaf "DTEXPIRE" "20200117"; leaf "SHPERCTRCT" "100";
      Elem "SECID" None [leaf "UNIQUEID" "999999999"; leaf "UNIQUEIDTYPE" "CUSIP"] ].





(** **** Sample sessions *)

(** The sample BUYSTOCK in a session that holds its security. *)
Definition buystock_world : loc * world := world_of (buystock []) [berkshire].

(** The same document before the security master was loaded. *)
Definition buystock_world_empty : loc * world := world_of (buystock []) [].

Definition optinfo_world : loc * world := world_of optinfo [].


(** The sample PAYEE in an empty session. *)
Definition payee_world : loc * world := world_of payee_without_addr1 [].

(** Two sets of keywords for the same payee. *)
Definition acme : kwargs :=
  {[ "name" := VStr "ACME"; "city" := VStr "Springfield" ]}.

End AlchemyDefs.

Module ModelsDefs.
Import Models.

Definition scalar_tags (ms : list (string * Member)) : list string :=
  flat_map (fun m => match snd m with
                     | Scalar _ _ => [upper (fst m)]
                     | SubAggregate _ _ => []
                     end) ms.

Definition sub_tags (ms : list (string * Member)) : list string :=
  flat_map (fun m => match snd m with
                     | Scalar _ _ => []
                     | SubAggregate schema _ => [schema]
                     end) ms.

(** On what the renderer emits for schema [s], the pre-hook undoes the
    tag-restoration pass, and the restored tree keeps the schema's tag. *)
Definition hooks_inverse (tg : string) (s : Schema) : Prop :=
  forall ks, forallb (permitted s) ks = true ->
    exists t, ungroom s (Elem tg None ks) = Ok t /\ etag t = tg
              /\ groom s t = Ok (Elem tg None ks).

(** A schema the binder can tell the children of apart: members have
    distinct names and distinct tags, and no list item carries the tag
    of a member. *)
Definition schema_ok (tg : string) (s : Schema) : Prop :=
  NoDup (map fst (members s))
  /\ NoDup (scalar_tags (members s) ++ sub_tags (members s))
  /\ (forall T, In T (dataTags s) -> ~ In T (member_tags s))
  /\ hooks_inverse tg s.

Section Validity.
Context {datetime : Type}.
Variable render_datetime : datetime -> option string.
Variable registry : list (string * Schema).

(** The scalar attributes are those of the declared members that are
    present, in declared order, each in its type's domain. *)
Fixpoint fits_scalars (ms : list (string * Member))
    (sc : list (string * Value datetime)) : bool :=
  match ms with
  | [] => match sc with [] => true | _ => false end
  | (name, Scalar ft _) :: ms' =>
      match sc with
      | (k, v) :: sc' =>
          if String.eqb k name
          then match render datetime render_datetime ft v with
               | Some _ => fits_scalars ms' sc'
               | None => false
               end
          else fits_scalars ms' sc
      | [] => fits_scalars ms' []
      end
  | (_, SubAggregate _ _) :: ms' => fits_scalars ms' sc
  end.

(** The same for the sub-aggregates, given as name and schema tag. *)
Fixpoint fits_subs (ms : list (string * Member)) (sb : list (string * string))
  : bool :=
  match ms with
  | [] => match sb with [] => true | _ => false end
  | (name, SubAggregate schema _) :: ms' =>
      match sb with
      | (k, tg) :: sb' =>
          if String.eqb k name
          then String.eqb tg schema && fits_subs ms' sb'
          else fits_subs ms' sb
      | [] => fits_subs ms' []
      end
  | (_, Scalar _ _) :: ms' => fits_subs ms' sb
  end.

(** A valid instance of a registered, well-formed schema. *)
Fixpoint valid (x : Instance datetime) : Prop :=
  let 'Inst tg sc sb it := x in
  match resolve registry tg with
  | None => False
  | Some s =>
      schema_ok tg s
      /\ fits_scalars (members s) sc = true
      /\ fits_subs (members s) (map (fun p => (fst p, itag (snd p))) sb) = true
      /\ missing_required s sc sb = None
      /\ (fix all (l : list (string * Instance datetime)) : Prop :=
            match l with
            | [] => True
            | p :: l' => valid (snd p) /\ all l'
            end) sb
      /\ (fix all (l : list (Instance datetime)) : Prop :=
            match l with
            | [] => True
            | i :: l' => (valid i /\ In (itag i) (dataTags s)) /\ all l'
            end) it
  end.

Fixpoint depth (x : Instance datetime) : nat :=
  let 'Inst _ _ sb it := x in
  S (Nat.max (foldr (fun p n => Nat.max (depth (snd p)) n) 0 sb)
             (foldr (fun i n => Nat.max (depth i) n) 0 it)).
End Validity.
End ModelsDefs.

Module EmailDefs.
Import Models ModelsDefs.

(** The literal a boolean member is written as. *)
Definition yn (b : bool) : string := if b then "Y" else "N".

Definition mail_leaf (tg tx : string) : Element := Elem tg (Some tx) [].

(** A MAIL aggregate as the specification spells it, FROM included. *)
Definition mail_tree (userid dtcreated frm to subject msgbody : string)
    (incimages usehtml : bool) : Element :=
  Elem "MAIL" None
    [ mail_leaf "USERID" userid; mail_leaf "DTCREATED" dtcreated;
      mail_leaf "FROM" frm; mail_leaf "TO" to; mail_leaf "SUBJECT" subject;
      mail_leaf "MSGBODY" msgbody; mail_leaf "INCIMAGES" (yn incimages);
      mail_leaf "USEHTML" (yn usehtml) ].

(** The instance it binds to; the member is [frm]. *)
Definition mail_instance {datetime} (userid : string) (dtcreated : datetime)
    (frm to subject msgbody : string) (incimages usehtml : bool)
  : Instance datetime :=
  Inst "MAIL"
    [ ("userid", VText userid); ("dtcreated", VDateTime dtcreated);
      ("frm", VText frm); ("to", VText to); ("subject", VText subject);
      ("msgbody", VText msgbody); ("incimages", VBool incimages);
      ("usehtml", VBool usehtml) ] [] [].

Definition fits (n : N) (s : string) : Prop := (N.of_nat (String.length s) <= n)%N.

(** Modelled from the spec: the envelope bases of
    ofxtools/models/wrapperbases.py, which is not among the sources
    (section 4.4).  A request envelope has a transaction id and an optional
    client cookie; a response envelope a transaction id and a status; a
    sync list a token and the "reject if the token is stale" flag. *)
Definition TrnRq : list (string * Member) :=
  [ ("trnuid", Scalar (String 36%N) true); ("cltcookie", Scalar (String 32%N) false) ].
Definition TrnRs : list (string * Member) :=
  [ ("trnuid", Scalar (String 36%N) true); ("status", SubAggregate "STATUS" true) ].
Definition SyncRqList : list (string * Member) :=
  [ ("token", Scalar (String 10%N) false); ("rejectifmissing", Scalar Bool true) ].
Definition SyncRsList : list (string * Member) :=
  [ ("token", Scalar (String 10%N) true) ].

(** The registry email.py builds over those bases. *)
Definition email_registry : list (string * Schema) :=
  email_schemas TrnRq TrnRs SyncRqList SyncRsList.

(** Timestamps kept as their text, to run the examples with. *)
Definition text_datetime (s : string) : option string := Some s.

(** Scenario A of the specification. *)
Definition scenario_a_tree : Element :=
  mail_tree "x" "20190102120000" "a@b" "c@d" "hi" "body" false true.
Definition scenario_a_instance : Instance string :=
  mail_instance "x" "20190102120000" "a@b" "c@d" "hi" "body" false true.

(** A mail request in its envelope. *)
Definition mailtrnrq_instance : Instance string :=
  Inst "MAILTRNRQ" [ ("trnuid", VText "42") ]
       [ ("mailrq", Inst "MAILRQ" [] [ ("mail", scenario_a_instance) ] []) ] [].
Definition mailtrnrq_tree : Element :=
  Elem "MAILTRNRQ" None
    [ mail_leaf "TRNUID" "42"; Elem "MAILRQ" None [ scenario_a_tree ] ].

(** The other two members of scenario B. *)
Definition getmimetrnrq_tree : Element :=
  Elem "GETMIMETRNRQ" None
    [ mail_leaf "TRNUID" "43";
      Elem "GETMIMERQ" None [ mail_leaf "URL" "http://example.com/a.png" ] ].
Definition mailsyncrq_tree : Element :=
  Elem "MAILSYNCRQ" None
    [ mail_leaf "REJECTIFMISSING" "N"; mail_leaf "INCIMAGES" "N";
      mail_leaf "USEHTML" "Y"; mailtrnrq_tree ].
Definition mailtrnrs_tree : Element :=
  Elem "MAILTRNRS" None [ mail_leaf "TRNUID" "42" ].

(** One of each allowed child, out of the declared order. *)
Definition scenario_b_children : list Element :=
  [ mailsyncrq_tree; mailtrnrq_tree; getmimetrnrq_tree ].

(** What scenario B binds to. *)
Definition getmimetrnrq_instance : Instance string :=
  Inst "GETMIMETRNRQ" [ ("trnuid", VText "43") ]
       [ ("getmimerq",
          Inst "GETMIMERQ" [ ("url", VText "http://example.com/a.png") ] [] []) ]
       [].
Definition mailsyncrq_instance : Instance string :=
  Inst "MAILSYNCRQ"
       [ ("rejectifmissing", VBool false); ("incimages", VBool false);
         ("usehtml", VBool true) ]
       [] [ mailtrnrq_instance ].
Definition scenario_b_items : list (Instance string) :=
  [ mailsyncrq_instance; mailtrnrq_instance; getmimetrnrq_instance ].

(** Scenario A without its SUBJECT. *)
Definition mail_without_subject : Element :=
  Elem "MAIL" None
    [ mail_leaf "USERID" "x"; mail_leaf "DTCREATED" "20190102120000";
      mail_leaf "FROM" "a@b"; mail_leaf "TO" "c@d";
      mail_leaf "MSGBODY" "body"; mail_leaf "INCIMAGES" "N";
      mail_leaf "USEHTML" "Y" ].

(** A sync request that names no token. *)
Definition mailsyncrq_without_token : Element :=
  Elem "MAILSYNCRQ" None
    [ mail_leaf "REJECTIFMISSING" "N"; mail_leaf "INCIMAGES" "N";
      mail_leaf "USEHTML" "Y" ].
End EmailDefs.

(** *** More sample documents, and the keywords the hooks set *)

Module MoreDefs.
Import ET Alchemy AlchemyDefs.

(** The keywords the pre-flatten hooks set. *)
Definition hook_keys : list string :=
  ["secinfo_id"; "curtype"; "acctto_id"; "payee_name"].

Definition stmttrn (more : list Element) : Element :=
  Elem "STMTTRN" None
    ([ leaf "TRNTYPE" "CHECK"; leaf "DTPOSTED" "20190102"; leaf "TRNAMT" "-25";
       leaf "FITID" "2001" ] ++ more).

Definition payee : Element :=
  Elem "PAYEE" None [leaf "NAME" "ACME"; leaf "CITY" "Springfield"].

Definition bankacctto : Element :=
  Elem "BANKACCTTO" None
    [ leaf "BANKID" "111000614"; leaf "ACCTID" "123456";
      leaf "ACCTTYPE" "CHECKING" ].

Definition jrnlfund : Element :=
  Elem "JRNLFUND" None
    [ Elem "INVTRAN" None [leaf "FITID" "3001"; leaf "DTTRADE" "20190102"];
      leaf "SUBACCTTO" "MARGIN"; leaf "SUBACCTFROM" "CASH"; leaf "TOTAL" "100" ].

(** An INCOME as OFX writes it: CURRENCY is a child of the transaction. *)
Definition income : Element :=
  Elem "INCOME" None
    [ Elem "INVTRAN" None [leaf "FITID" "4001"; leaf "DTTRADE" "20190102"];
      secid_berkshire; leaf "INCOMETYPE" "DIV"; leaf "TOTAL" "12";
      leaf "SUBACCTSEC" "CASH"; leaf "SUBACCTFUND" "CASH"; currency ].

Definition ccacctto : Element := Elem "CCACCTTO" None [leaf "ACCTID" "4111"].

Definition stmttrn_payee_world : loc * world := world_of (stmttrn [payee]) [].
Definition stmttrn_acctto_world : loc * world := world_of (stmttrn [bankacctto]) [].
Definition stmttrn_ccacctto_world : loc * world := world_of (stmttrn [ccacctto]) [].
Definition jrnlfund_world : loc * world := world_of jrnlfund [].
Definition income_world : loc * world := world_of income [berkshire].
Definition buystock_currency_world : loc * world :=
  world_of (buystock [currency]) [berkshire].


End MoreDefs.

(** * Lists *)

Module ListFacts.

Lemma find_none_all {A} (f : A -> bool) (l : list A) :
  (forall x, In x l -> f x = false) -> List.find f l = None.
Proof.
  induction l as [|a l IH]; simpl; intros H; [reflexivity|].
  rewrite (H a) by (left; reflexivity). apply IH. intros x Hx. apply H. by right.
Qed.

Lemma filter_none {A} (f : A -> bool) (l : list A) :
  (forall x, In x l -> f x = false) -> List.filter f l = [].
Proof.
  induction l as [|a l IH]; simpl; intros H; [reflexivity|].
  rewrite (H a) by (left; reflexivity). apply IH. intros x Hx. apply H. by right.
Qed.

Lemma find_first {A} (f : A -> bool) (l : list A) x :
  In x l -> f x = true -> exists y, List.find f l = Some y.
Proof.
  intros Hin Hx. destruct (List.find f l) as [y|] eqn:E; [eauto|].
  pose proof (find_none _ _ E x Hin). congruence.
Qed.

Lemma existsb_elem_of T (l : list string) :
  existsb (String.eqb T) l = true <-> T ∈ l.
Proof.
  rewrite existsb_exists. split.
  - intros (x & Hx & E). apply String.eqb_eq in E. subst x. by apply list_elem_of_In.
  - intros H. exists T. split; [by apply list_elem_of_In | apply String.eqb_refl].
Qed.

End ListFacts.

(** * The heap of elements *)

Module ETFacts.
Import ET.

Lemma Element_ind' (P : Element -> Prop) :
  (forall tg tx ks, Forall P ks -> P (Elem tg tx ks)) -> forall t, P t.
Proof.
  intros H. fix IH 1. intros [tg tx ks]. apply H.
  induction ks as [|k ks IHks]; constructor; [apply IH | exact IHks].
Qed.

Lemma alloc_unfold tg tx ks h :
  alloc (Elem tg tx ks) h =
  let '(ls, h1) := alloc_list ks h in (length h1, h1 ++ [Node tg tx ls]).
Proof. reflexivity. Qed.

(** [h'] and [h] hold the same objects at the locations from [a] up to [b]. *)
Definition agree (h' h : heap) (a b : nat) : Prop :=
  forall k, a <= k < b -> h' !! k = h !! k.

Definition retag (tg : string) (nd : node) : node := Node tg (ntext nd) (nkids nd).

(** What allocating [t] on top of [h] guarantees. *)
Definition alloc_ok (t : Element) : Prop :=
  forall h l h1, alloc t h = (l, h1) ->
    length h <= l /\ length h1 = S l /\ (exists ext, h1 = h ++ ext)
    /\ height t <= length h1 - length h
    /\ (exists ls, h1 !! l = Some (Node (etag t) (etext t) ls))
    /\ (forall h' n tg', agree h' h1 (length h) l ->
          h' !! l = retag tg' <$> h1 !! l -> height t <= n ->
          read n h' l = Some (Elem tg' (etext t) (echildren t))).

Definition heights_le (n : nat) (ks : list Element) : Prop :=
  Forall (fun k => height k <= n) ks.

Lemma height_unfold tg tx ks n :
  height (Elem tg tx ks) <= S n <-> heights_le n ks.
Proof.
  simpl. unfold heights_le. induction ks as [|k ks IH]; simpl.
  - split; [constructor | lia].
  - rewrite Forall_cons. split.
    + intros H. split; [lia|]. apply IH. lia.
    + intros [H1 H2]. apply IH in H2. lia.
Qed.

Lemma agree_weaken h' h a b a' b' :
  agree h' h a b -> a <= a' -> b' <= b -> agree h' h a' b'.
Proof. intros H ? ? k Hk. apply H. lia. Qed.

Lemma agree_prefix h' h ext a b :
  agree h' (h ++ ext) a b -> b <= length h -> agree h' h a b.
Proof.
  intros H Hb k Hk. rewrite H by exact Hk. apply lookup_app_l. lia.
Qed.

Lemma alloc_list_ok ks :
  Forall alloc_ok ks ->
  forall h ls h1, alloc_list ks h = (ls, h1) ->
    length h <= length h1 /\ (exists ext, h1 = h ++ ext)
    /\ Forall (fun c => length h <= c < length h1) ls
    /\ (forall n, length h1 - length h <= n -> heights_le n ks)
    /\ Forall2 (fun c k => exists cs, h1 !! c = Some (Node (etag k) (etext k) cs)) ls ks
    /\ (forall h' n, agree h' h1 (length h) (length h1) -> heights_le n ks ->
          mapM (read n h') ls = Some ks).
Proof.
  induction 1 as [|k ks Hk Hks IH]; intros h ls h1 Hal; simpl in Hal.
  - inversion Hal; subst. repeat split; try constructor; auto.
    exists []. by rewrite app_nil_r.
  - destruct (alloc k h) as [l ha] eqn:Ek.
    destruct (alloc_list ks ha) as [ls' hb] eqn:Eks.
    inversion Hal; subst ls h1. clear Hal.
    destruct (Hk _ _ _ Ek) as (Hl & Hlen & [e1 He1] & Hh & [cs Hcs] & Hread).
    destruct (IH _ _ _ Eks) as (Hlen' & [e2 He2] & Hls & Hhs & Htags & Hreads).
    assert (Hpre : forall j, j < length ha -> hb !! j = ha !! j).
    { intros j Hj. rewrite He2. apply lookup_app_l. exact Hj. }
    repeat split.
    + lia.
    + exists (e1 ++ e2). rewrite He2, He1. by rewrite app_assoc.
    + constructor; [lia|]. eapply Forall_impl; [exact Hls|]. simpl. intros; lia.
    + intros n Hn. constructor; [lia|]. apply Hhs. lia.
    + constructor.
      * exists cs. rewrite Hpre by lia. exact Hcs.
      * exact Htags.
    + intros h' n Hag Hn. apply Forall_cons in Hn as [Hn1 Hn2].
      simpl. rewrite (Hread h' n (etag k)); [simpl | | | exact Hn1].
      * destruct k as [tg tx cs']; simpl.
        rewrite (Hreads h' n); [reflexivity | | exact Hn2].
        eapply agree_weaken; [exact Hag | lia | lia].
      * intros j Hj. rewrite Hag by lia. apply Hpre. lia.
      * rewrite Hag by lia. rewrite Hpre by lia. rewrite Hcs. reflexivity.
Qed.

Lemma alloc_spec t : alloc_ok t.
Proof.
  induction t as [tg tx ks IH] using Element_ind'.
  intros h l h1 Hal. rewrite alloc_unfold in Hal.
  destruct (alloc_list ks h) as [ls h0] eqn:Eks.
  inversion Hal; subst l h1. clear Hal.
  destruct (alloc_list_ok ks IH _ _ _ Eks) as (Hlen & [e He] & Hls & Hhs & Htags & Hreads).
  assert (Hroot : (h0 ++ [Node tg tx ls]) !! length h0 = Some (Node tg tx ls)).
  { rewrite lookup_app_r by lia. by rewrite Nat.sub_diag. }
  repeat split.
  - exact Hlen.
  - rewrite length_app. simpl. lia.
  - exists (e ++ [Node tg tx ls]). rewrite He. by rewrite app_assoc.
  - rewrite length_app. simpl length.
    replace (length h0 + 1 - length h) with (S (length h0 - length h)) by lia.
    apply height_unfold. apply Hhs. lia.
  - exists ls. exact Hroot.
  - intros h' n tg' Hag Hr Hn. destruct n as [|n]; [simpl in Hn; lia|].
    apply height_unfold in Hn. simpl.
    rewrite Hr, Hroot. simpl.
    rewrite (Hreads h' n); [reflexivity | | exact Hn].
    intros j Hj. rewrite Hag by lia. apply lookup_app_l. lia.
Qed.

(** Reading back a tree that was just allocated. *)
Lemma read_alloc t h l h1 n :
  alloc t h = (l, h1) -> length h1 <= n -> read n h1 l = Some t.
Proof.
  intros Hal Hn.
  destruct (alloc_spec t _ _ _ Hal) as (Hl & Hlen & _ & Hh & [ls Hls] & Hread).
  specialize (Hread h1 n (etag t)).
  destruct t as [tg tx ks]. apply Hread.
  - intros k _. reflexivity.
  - rewrite Hls. reflexivity.
  - lia.
Qed.


Lemma all_alloc_ok ks : Forall alloc_ok ks.
Proof. apply Forall_forall. intros t _. apply alloc_spec. Qed.

Lemma alloc_list_retag ks :
  forall h ls h1, alloc_list ks h = (ls, h1) ->
  forall hx old, agree hx h1 (length h) (length h1) ->
    match List.find (has_tag hx old) ls with
    | None => forall new, Models.retag_first old new ks = ks
    | Some c =>
        length h <= c < length h1 /\
        exists ndc, hx !! c = Some ndc /\
          forall new h' n,
            (forall k, length h <= k < length h1 -> k <> c -> h' !! k = hx !! k) ->
            h' !! c = Some (retag new ndc) ->
            heights_le n ks ->
            mapM (read n h') ls = Some (Models.retag_first old new ks)
    end.
Proof.
  induction ks as [|k ks IH]; intros h ls h1 Hal hx old Hag; simpl in Hal.
  - inversion Hal; subst. simpl. reflexivity.
  - destruct (alloc k h) as [l ha] eqn:Ek.
    destruct (alloc_list ks ha) as [ls' hb] eqn:Eks.
    inversion Hal; subst ls h1. clear Hal.
    destruct (alloc_spec k _ _ _ Ek) as (Hl & Hlen & [e1 He1] & Hh & [cs Hcs] & Hread).
    destruct (alloc_list_ok ks (all_alloc_ok ks)
                _ _ _ Eks) as (Hlen' & [e2 He2] & Hls & Hhs & Htags & Hreads).
    assert (Hpre : forall j, j < length ha -> hb !! j = ha !! j).
    { intros j Hj. rewrite He2. apply lookup_app_l. exact Hj. }
    assert (Hxl : hx !! l = Some (Node (etag k) (etext k) cs)).
    { rewrite Hag by lia. rewrite Hpre by lia. exact Hcs. }
    simpl. unfold has_tag at 1, tag_of. rewrite Hxl. simpl.
    destruct k as [tg tx kcs]; simpl in *.
    destruct (String.eqb tg old) eqn:Etg.
    + split; [lia|]. eexists; split; [exact Hxl|].
      intros new h' n Hoth Hc Hn. apply Forall_cons in Hn as [Hn1 Hn2].
      simpl. rewrite (Hread h' n new); [simpl | | | exact Hn1].
      * rewrite (Hreads h' n); [reflexivity | | exact Hn2].
        intros j Hj. rewrite Hoth by lia. apply Hag. lia.
      * intros j Hj. rewrite Hoth by lia. rewrite Hag by lia. apply Hpre. lia.
      * rewrite Hc, Hcs. reflexivity.
    + specialize (IH _ _ _ Eks hx old).
      assert (Hag' : agree hx hb (length ha) (length hb)).
      { eapply agree_weaken; [exact Hag | lia | lia]. }
      specialize (IH Hag').
      destruct (List.find (has_tag hx old) ls') as [c|].
      * destruct IH as (Hc & ndc & Hndc & IH).
        split; [lia|]. exists ndc. split; [exact Hndc|].
        intros new h' n Hoth Hc' Hn. apply Forall_cons in Hn as [Hn1 Hn2].
        simpl. rewrite (Hread h' n tg); [simpl | | | exact Hn1].
        -- rewrite (IH new h' n); [reflexivity | | exact Hc' | exact Hn2].
           intros j Hj Hne. apply Hoth; [lia | exact Hne].
        -- intros j Hj. rewrite Hoth by lia. rewrite Hag by lia. apply Hpre. lia.
        -- rewrite Hoth by lia. rewrite Hxl, Hcs. reflexivity.
      * intros new. rewrite IH. reflexivity.
Qed.

(** The shape of [MAIL.groom] and [MAIL.ungroom]. *)
Definition rename_hook (old new : string) (elem : loc) : M heap loc :=
  elem <~ deepcopy elem ;;
  frm <~ find_child old elem ;;
  match frm with
  | Some frm => set_tag frm new
  | None => ret tt
  end ;;;
  ret elem.

Lemma on_tree_rename old new t :
  Models.on_tree (rename_hook old new) t = Ok (Models.retag_child old new t).
Proof.
  unfold Models.on_tree. destruct (alloc t []) as [l h] eqn:E0.
  pose proof (read_alloc t [] l h (length h) E0 (le_n _)) as Hr.
  unfold rename_hook, bind, deepcopy. rewrite Hr.
  destruct t as [tg tx ks]. rewrite alloc_unfold.
  destruct (alloc_list ks h) as [ls h0] eqn:Eks.
  destruct (alloc_list_ok ks (all_alloc_ok ks)
              _ _ _ Eks) as (Hlen & [e He] & Hls & Hhs & Htags & Hreads).
  set (h2 := h0 ++ [Node tg tx ls]).
  assert (Hroot : h2 !! length h0 = Some (Node tg tx ls)).
  { unfold h2. rewrite lookup_app_r by lia. by rewrite Nat.sub_diag. }
  assert (Hag : agree h2 h0 (length h) (length h0)).
  { intros j Hj. unfold h2. apply lookup_app_l. lia. }
  pose proof (alloc_list_retag ks _ _ _ Eks h2 old Hag) as Hre.
  unfold find_child, bind, get_node. rewrite Hroot. cbn [nkids].
  destruct (List.find (has_tag h2 old) ls) as [c|].
  - destruct Hre as (Hc & ndc & Hndc & Hre).
    unfold set_tag, bind, get_node. rewrite Hndc. unfold ret.
    rewrite length_insert.
    assert (Hl2 : length h2 = S (length h0)).
    { unfold h2. rewrite length_app. simpl. lia. }
    rewrite Hl2. simpl read.
    rewrite list_lookup_insert_ne by lia. rewrite Hroot. simpl.
    rewrite (Hre new _ (length h0)).
    + reflexivity.
    + intros j Hj Hne. apply list_lookup_insert_ne. congruence.
    + apply list_lookup_insert_eq. lia.
    + apply Hhs. lia.
  - unfold ret.
    assert (Hl2 : length h2 = S (length h0)).
    { unfold h2. rewrite length_app. simpl. lia. }
    rewrite Hl2. simpl read. rewrite Hroot. simpl.
    rewrite (Hreads h2 (length h0)).
    + simpl. rewrite Hre. reflexivity.
    + exact Hag.
    + apply Hhs. lia.
Qed.

(** A hook of that shape only adds objects: those the caller holds stay
    as they were. *)
Lemma rename_hook_frame old new elem h r h' :
  rename_hook old new elem h = (r, h') -> exists ext, h' = h ++ ext.
Proof.
  unfold rename_hook, bind at 1, deepcopy.
  destruct (read (length h) h elem) as [t|].
  2:{ intros [= <- <-]. exists []. by rewrite app_nil_r. }
  destruct t as [tg tx ks]. rewrite alloc_unfold.
  destruct (alloc_list ks h) as [ls h0] eqn:Eks.
  destruct (alloc_list_ok ks (all_alloc_ok ks) _ _ _ Eks)
    as (Hlen & [e He] & Hls & _).
  set (h2 := h0 ++ [Node tg tx ls]).
  assert (Hroot : h2 !! length h0 = Some (Node tg tx ls)).
  { unfold h2. rewrite lookup_app_r by lia. by rewrite Nat.sub_diag. }
  assert (Hh2 : h2 = h ++ (e ++ [Node tg tx ls])).
  { unfold h2. rewrite He. by rewrite app_assoc. }
  unfold bind at 1, find_child, bind, get_node. rewrite Hroot. cbn [nkids].
  destruct (List.find (has_tag h2 old) ls) as [c|] eqn:Ef.
  - apply find_some in Ef as [Hin _].
    rewrite Forall_forall in Hls.
    specialize (Hls c (proj2 (list_elem_of_In _ _) Hin)).
    unfold set_tag, bind, get_node.
    destruct (h2 !! c) as [ndc|].
    + unfold ret. intros [= <- <-]. rewrite Hh2.
      rewrite insert_app_r_alt by lia. eauto.
    + intros [= <- <-]. eauto.
  - unfold ret. intros [= <- <-]. eauto.
Qed.

Lemma read_app n : forall h ext l t,
  read n h l = Some t -> read n (h ++ ext) l = Some t.
Proof.
  induction n as [|n IH]; intros h ext l t; cbn [read]; [done|].
  destruct (h !! l) as [nd|] eqn:E; [|done].
  rewrite (lookup_app_l_Some _ _ _ _ E).
  destruct (mapM (read n h) (nkids nd)) as [ks|] eqn:Em; [|done].
  intros [= <-].
  assert (Hm : mapM (read n (h ++ ext)) (nkids nd) = Some ks).
  { apply mapM_Some. apply mapM_Some in Em.
    eapply Forall2_impl; [exact Em|]. intros x y Hxy. by apply IH. }
  by rewrite Hm.
Qed.

Lemma MAIL_groom_tree t :
  Models.on_tree Models.MAIL_groom t = Ok (Models.retag_child "FROM" "FRM" t).
Proof. exact (on_tree_rename "FROM" "FRM" t). Qed.

Lemma MAIL_ungroom_tree t :
  Models.on_tree Models.MAIL_ungroom t = Ok (Models.retag_child "FRM" "FROM" t).
Proof. exact (on_tree_rename "FRM" "FROM" t). Qed.

Lemma Aggregate_groom_tree t : Models.on_tree Models.Aggregate_groom t = Ok t.
Proof.
  unfold Models.on_tree. destruct (alloc t []) as [l h] eqn:E0.
  unfold Models.Aggregate_groom, ret.
  by rewrite (read_alloc t [] l h (length h) E0 (le_n _)).
Qed.

End ETFacts.

(** * ofxalchemy: dispatch, references, natural keys *)

Module AlchemyFacts.
Import ET Alchemy AlchemyDefs ListFacts.

(** **** Lists and lookups *)



(** Every class statement of the module is found under its own name. *)
Lemma module_classes_registered :
  forallb (fun p => if is_module_class (fst p)
                    then match globals_lookup (fst p) with
                         | Ok (GClass c) => String.eqb c (fst p)
                         | _ => false
                         end
                    else true) classes = true.
Proof. vm_compute. reflexivity. Qed.

Lemma has_tag_true h tg c :
  has_tag h tg c = true -> exists nd, h !! c = Some nd /\ ntag nd = tg.
Proof.
  unfold has_tag, tag_of. destruct (h !! c) as [nd|]; simpl; [|discriminate].
  intros H. apply String.eqb_eq in H. eauto.
Qed.

Lemma find_remove_first h tg ks s :
  List.find (has_tag h tg) ks = Some s ->
  remove_first s ks = Some (drop_first_tagged h tg ks).
Proof.
  induction ks as [|c ks IH]; simpl; [discriminate|].
  destruct (has_tag h tg c) eqn:E.
  - intros [= ->]. by rewrite Nat.eqb_refl.
  - intros Hf. destruct (Nat.eqb c s) eqn:Ecs.
    + apply Nat.eqb_eq in Ecs. subst c.
      apply find_some in Hf as [_ Hs]. congruence.
    + by rewrite (IH Hf).
Qed.

Lemma find_none_drop h tg ks :
  List.find (has_tag h tg) ks = None -> drop_first_tagged h tg ks = ks.
Proof.
  induction ks as [|c ks IH]; simpl; [reflexivity|].
  destruct (has_tag h tg c); [discriminate|]. intros H. by rewrite IH.
Qed.

Lemma world_eta w : World (hp w) (objs w) (session w) = w.
Proof. by destruct w. Qed.

Lemma OPTINFO__do_secid_spec element extra_attrs w :
  is_Some (hp w !! element) ->
  OPTINFO__do_secid element extra_attrs w
  = (Ok (element, extra_attrs),
     World (without_child "SECID" element (hp w)) (objs w) (session w)).
Proof.
  intros [nd Hnd]. unfold OPTINFO__do_secid, without_child. rewrite Hnd.
  unfold bind at 1, on_heap at 1, find_child, bind, get_node. rewrite Hnd. simpl.
  destruct (List.find (has_tag (hp w) "SECID") (nkids nd)) as [s|] eqn:Ef.
  - unfold bind, on_heap, remove, bind, get_node. simpl. rewrite Hnd.
    rewrite (find_remove_first _ _ _ _ Ef). reflexivity.
  - rewrite (find_none_drop _ _ _ Ef). unfold ret.
    rewrite list_insert_id; [by rewrite world_eta | by destruct nd].
Qed.

Lemma on_heap_read {A} (m : M heap A) (w : world) (a : result exn A) :
  m (hp w) = (a, hp w) -> on_heap m w = (a, w).
Proof. intros H. unfold on_heap. rewrite H. by rewrite world_eta. Qed.

Lemma on_heap_find_child tg l w nd :
  hp w !! l = Some nd ->
  on_heap (find_child tg l) w = (Ok (List.find (has_tag (hp w) tg) (nkids nd)), w).
Proof.
  intros H. apply on_heap_read. unfold find_child, bind, get_node. by rewrite H.
Qed.

Lemma on_heap_find_grandchild tg l w nd :
  hp w !! l = Some nd ->
  on_heap (find_grandchild tg l) w
  = (Ok (List.find (has_tag (hp w) tg) (grandkids (hp w) nd)), w).
Proof.
  intros H. apply on_heap_read. unfold find_grandchild, bind, get_node. by rewrite H.
Qed.

Lemma on_heap_get_node l w nd :
  hp w !! l = Some nd -> on_heap (get_node l) w = (Ok nd, w).
Proof. intros H. apply on_heap_read. unfold get_node. by rewrite H. Qed.

Lemma on_heap_text_of l w nd :
  hp w !! l = Some nd -> on_heap (text_of l) w = (Ok (ntext nd), w).
Proof.
  intros H. apply on_heap_read. unfold text_of, bind, get_node. by rewrite H.
Qed.

(** [ORIGCURRENCY._do_origcurrency], case by case. *)
Lemma ORIGCURRENCY__do_origcurrency_spec element extra_attrs w nd :
  hp w !! element = Some nd ->
  ORIGCURRENCY__do_origcurrency element extra_attrs w
  = (match List.find (has_tag (hp w) "CURRENCY") (grandkids (hp w) nd),
           List.find (has_tag (hp w) "ORIGCURRENCY") (grandkids (hp w) nd) with
     | Some _, Some _ => Raise (NameError "elem")
     | Some _, None => Ok (element, <["curtype" := VStr "CURRENCY"]> extra_attrs)
     | None, Some _ => Ok (element, <["curtype" := VStr "ORIGCURRENCY"]> extra_attrs)
     | None, None => Ok (element, <["curtype" := VNone]> extra_attrs)
     end, w).
Proof.
  intros Hnd. unfold ORIGCURRENCY__do_origcurrency.
  unfold bind at 1. rewrite (on_heap_find_grandchild _ _ _ _ Hnd).
  unfold bind at 1. rewrite (on_heap_find_grandchild _ _ _ _ Hnd).
  destruct (List.find (has_tag (hp w) "CURRENCY") _) as [c|] eqn:Ec;
    destruct (List.find (has_tag (hp w) "ORIGCURRENCY") _) as [o|] eqn:Eo;
    try reflexivity.
  - apply find_some in Ec as [_ Hc]. apply has_tag_true in Hc as (cn & Hcn & Ht).
    unfold bind. rewrite (on_heap_get_node _ _ _ Hcn). unfold ret. by rewrite Ht.
  - apply find_some in Eo as [_ Hc]. apply has_tag_true in Hc as (cn & Hcn & Ht).
    unfold bind. rewrite (on_heap_get_node _ _ _ Hcn). unfold ret. by rewrite Ht.
Qed.

Lemma call_do_origcurrency_frame c element extra_attrs w r w' :
  is_Some (hp w !! element) ->
  call_do_origcurrency c element extra_attrs w = (r, w') ->
  w' = w /\ forall el ex, r = Ok (el, ex) ->
              el = element /\ forall k, k <> "curtype" -> ex !! k = extra_attrs !! k.
Proof.
  intros [nd Hnd]. unfold call_do_origcurrency.
  destruct (resolve c "_do_origcurrency") as [d|]; [|intros [= <- <-]; split; [done|discriminate]].
  destruct (String.eqb d "ORIGCURRENCY").
  - rewrite (ORIGCURRENCY__do_origcurrency_spec _ _ _ _ Hnd).
    intros [= <- <-]. split; [done|].
    intros el ex.
    destruct (List.find _ _), (List.find _ _); intros [= <- <-]; (split; [done|]);
      intros k Hk; by rewrite lookup_insert_ne.
  - intros [= <- <-]. split; [done|]. intros el ex [= <- <-]. done.
Qed.

Lemma secid_classes_dispatch :
  forallb (fun p => implb (secid_class (fst p)) (secid_dispatch (fst p))) classes = true.
Proof. vm_compute. reflexivity. Qed.

Lemma mapM_nil_inv {A B} (f : A -> option B) l : mapM f l = Some [] -> l = [].
Proof.
  destruct l as [|a l]; [done|]. simpl. destruct (f a); simpl; [|done].
  destruct (mapM f l); simpl; done.
Qed.

Lemma linearise_S n c :
  linearise (S n) c =
  match class_of c with
  | None => None
  | Some k =>
      match mapM (linearise n) (bases k) with
      | None => None
      | Some ms =>
          match c3_merge 64 (ms ++ [bases k]) with
          | Some r => Some (c :: r)
          | None => None
          end
      end
  end.
Proof. reflexivity. Qed.

Lemma mro_in_classes c : mro c <> [] -> exists p, In (c, p) classes.
Proof.
  intros Hm. destruct (class_of c) as [k|] eqn:E.
  - unfold class_of in E.
    destruct (List.find (fun p => String.eqb (fst p) c) classes) as [[k' p]|] eqn:Ef;
      [|discriminate].
    apply find_some in Ef as [Hin Hk]. cbn [fst] in Hk.
    apply String.eqb_eq in Hk. subst k'. by exists p.
  - exfalso. apply Hm. unfold mro.
    change (linearise 16 c) with (linearise (S 15) c).
    rewrite linearise_S. by rewrite E.
Qed.

Lemma secid_class_dispatch c : secid_class c = true -> secid_dispatch c = true.
Proof.
  intros Hc. assert (Hin : exists p, In (c, p) classes).
  { apply mro_in_classes. intros Hm. unfold secid_class in Hc. by rewrite Hm in Hc. }
  destruct Hin as [p Hp].
  pose proof secid_classes_dispatch as H.
  rewrite forallb_forall in H. specialize (H _ Hp). cbn [fst] in H.
  by rewrite Hc in H.
Qed.

Lemma remove_first_other c c' ks ks' :
  remove_first c ks = Some ks' -> In c' ks -> c' <> c -> In c' ks'.
Proof.
  revert ks'. induction ks as [|k ks IH]; simpl; [done|]. intros ks'.
  destruct (Nat.eqb k c) eqn:E.
  - intros [= <-]. intros [->|H] Hne; [|done].
    apply Nat.eqb_eq in E. congruence.
  - destruct (remove_first c ks) as [r|]; [|done]. intros [= <-].
    intros [->|H] Hne; [by left | right; by apply IH].
Qed.

Lemma remove_first_in c ks : In c ks -> is_Some (remove_first c ks).
Proof.
  induction ks as [|k ks IH]; simpl; [done|]. intros H.
  destruct (Nat.eqb k c) eqn:E; [eauto|].
  destruct H as [->|H]; [by rewrite Nat.eqb_refl in E|].
  destruct (IH H) as [r ->]. eauto.
Qed.

(** The primary key [SECID._do_secid] looks a security up by. *)
Lemma SECINFO_get ut ui w :
  get "SECINFO" {[ "uniqueidtype" := ut; "uniqueid" := ui ]} w
  = one (query "SECINFO" [("uniqueid", ui); ("uniqueidtype", ut)] w) w.
Proof.
  unfold get.
  change (primary_keys "SECINFO") with (ret (S:=world) ["uniqueid"; "uniqueidtype"]).
  unfold bind at 1, ret at 1. cbn [mapM].
  rewrite (lookup_insert_ne _ "uniqueidtype" "uniqueid") by done.
  rewrite lookup_singleton_eq. rewrite lookup_insert_eq. simpl. reflexivity.
Qed.

Lemma query_row c pk w r :
  In r (query c pk w) ->
  exists e, objs w !! r = Some e /\ issubclass (cls e) c = true
            /\ Forall (fun kv => getattr e (fst kv) = snd kv) pk.
Proof.
  unfold query. intros H. apply filter_In in H as [_ H].
  destruct (objs w !! r) as [e|]; [|discriminate].
  exists e. split; [reflexivity|]. unfold row_matches in H.
  apply andb_true_iff in H as [H1 H2]. split; [exact H1|].
  apply Forall_forall. intros kv Hkv. rewrite forallb_forall in H2.
  specialize (H2 kv (proj1 (list_elem_of_In _ _) Hkv)).
  by apply bool_decide_eq_true in H2.
Qed.

Lemma SECID__do_secid_spec element extra_attrs w s sn t tn u un :
  List.find (has_tag (hp w) "SECID") (descendants (length (hp w)) (hp w) element)
    = Some s ->
  hp w !! s = Some sn ->
  List.find (has_tag (hp w) "UNIQUEIDTYPE") (nkids sn) = Some t ->
  hp w !! t = Some tn ->
  List.find (has_tag (hp w) "UNIQUEID") (nkids sn) = Some u ->
  hp w !! u = Some un ->
  SECID__do_secid element extra_attrs w
  = match query "SECINFO" [("uniqueid", text_value un);
                           ("uniqueidtype", text_value tn)] w with
    | [] => (Raise NoResultFound, w)
    | [r] =>
        match objs w !! r with
        | Some e =>
            (Ok (element, <["secinfo_id" := getattr e "id"]> extra_attrs),
             World (emptied_secid s t u (hp w)) (objs w) (session w))
        | None => (Raise (AttributeError "id"), w)
        end
    | _ => (Raise MultipleResultsFound, w)
    end.
Proof.
  intros Hs Hsn Ht Htn Hu Hun. unfold SECID__do_secid.
  unfold bind at 1.
  rewrite (on_heap_read (find_descendant "SECID" element) w (Ok (Some s)));
    [|unfold find_descendant; by rewrite Hs].
  unfold bind at 1. rewrite (on_heap_find_child _ _ _ _ Hsn), Ht.
  unfold bind at 1. rewrite (on_heap_find_child _ _ _ _ Hsn), Hu.
  unfold bind at 1, text_attr at 1, bind at 1. rewrite (on_heap_text_of _ _ _ Htn).
  unfold ret at 1.
  unfold bind at 1, text_attr at 1, bind at 1. rewrite (on_heap_text_of _ _ _ Hun).
  unfold ret at 1.
  unfold bind at 1. rewrite SECINFO_get.
  fold (text_value tn). fold (text_value un).
  destruct (query "SECINFO" _ w) as [|r [|r' rows]] eqn:Eq; try reflexivity.
  unfold one, ret at 1. unfold bind at 1, getattr_of.
  destruct (objs w !! r) as [e|] eqn:Ee; [|reflexivity].
  assert (Htu : t <> u).
  { intros ->. apply find_some in Ht as [_ Ht], Hu as [_ Hu].
    apply has_tag_true in Ht as (n1 & Hn1 & Ht1), Hu as (n2 & Hn2 & Ht2).
    rewrite Hn1 in Hn2. injection Hn2 as ->. rewrite Ht1 in Ht2. discriminate. }
  assert (Hint : In t (nkids sn)) by (apply find_some in Ht; tauto).
  assert (Hinu : In u (nkids sn)) by (apply find_some in Hu; tauto).
  destruct (remove_first_in _ _ Hint) as [ks1 Hks1].
  assert (Hinu1 : In u ks1) by (eapply remove_first_other; eauto).
  destruct (remove_first_in _ _ Hinu1) as [ks2 Hks2].
  assert (Hlt : s < length (hp w)) by (eapply lookup_lt_Some; eauto).
  unfold bind at 1, on_heap at 1, remove at 1, bind at 1, get_node at 1.
  rewrite Hsn, Hks1. cbn [hp objs session].
  unfold bind at 1, on_heap at 1, remove at 1, bind at 1, get_node at 1.
  cbn [hp objs session]. rewrite list_lookup_insert_eq by exact Hlt.
  cbn [ntag ntext nkids]. rewrite Hks2. unfold ret.
  rewrite list_insert_insert_eq.
  unfold emptied_secid, drop_loc. rewrite Hsn, Hks1. simpl. rewrite Hks2. reflexivity.
Qed.


Lemma key_of_values pks a pk :
  key_of pks a = Some pk -> Forall (fun kv => a !! fst kv = Some (snd kv)) pk.
Proof.
  unfold key_of. revert pk. induction pks as [|k pks IH]; intros pk; cbn [mapM].
  - intros [= <-]. constructor.
  - destruct (a !! k) as [v|] eqn:E; [|done]. cbn.
    destruct (mapM _ pks) as [rest|]; [|done]. cbn. intros [= <-].
    constructor; [exact E | by apply IH].
Qed.


Lemma mro_head c : mro c <> [] -> mem c (mro c) = true.
Proof.
  unfold mro. change (linearise 16 c) with (linearise (S 15) c).
  rewrite linearise_S. generalize (linearise 15). intros f.
  destruct (class_of c) as [k|]; [|cbn; congruence].
  destruct (mapM f (bases k)) as [ms|]; [|cbn; congruence].
  destruct (c3_merge 64 (ms ++ [bases k])) as [r|]; [|cbn; congruence].
  intros _. cbn. by rewrite String.eqb_refl.
Qed.

Lemma primary_keys_class c pks w :
  primary_keys c w = (Ok pks, w) -> mem c (mro c) = true.
Proof.
  intros H. apply mro_head. intros Hm. unfold primary_keys, resolve in H.
  rewrite Hm in H. cbn in H. discriminate.
Qed.

Lemma primary_keys_pure c w : snd (primary_keys c w) = w.
Proof.
  unfold primary_keys. destruct (resolve c "primary_keys") as [d|]; [|done].
  destruct (String.eqb d "Aggregate"); [done|].
  destruct (resolve c "pks") as [k|]; [|done].
  destruct (class_of k ≫= cpks); done.
Qed.

Lemma get_spec c pks a pk w :
  primary_keys c w = (Ok pks, w) -> key_of pks a = Some pk ->
  get c a w = one (query c pk w) w.
Proof.
  intros Hp Hk. unfold get, bind at 1. rewrite Hp.
  unfold key_of in Hk. rewrite Hk. reflexivity.
Qed.

Lemma primary_keys_any_world c pks w w' :
  primary_keys c w = (Ok pks, w) -> primary_keys c w' = (Ok pks, w').
Proof.
  unfold primary_keys. destruct (resolve c "primary_keys") as [d|]; [|done].
  destruct (String.eqb d "Aggregate"); [by intros [= <-]|].
  destruct (resolve c "pks") as [k|]; [|done].
  destruct (class_of k ≫= cpks); [by intros [= <-] | done].
Qed.

Lemma query_extend c pk w i :
  session_ok w ->
  query c pk (World (hp w) (objs w ++ [i]) (session w ++ [length (objs w)]))
  = query c pk w ++ (if row_matches c pk i then [length (objs w)] else []).
Proof.
  intros Hok. unfold query. cbn [objs session].
  rewrite List.filter_app. f_equal.
  - apply filter_ext_in. intros r Hr.
    unfold session_ok in Hok. rewrite Forall_forall in Hok.
    specialize (Hok r (proj2 (list_elem_of_In _ _) Hr)).
    by rewrite lookup_app_l.
  - cbn. rewrite lookup_app_r by lia. rewrite Nat.sub_diag. cbn.
    by destruct (row_matches c pk i).
Qed.

Section WithParser.
Variable _flatten : heap -> loc -> option kwargs.
Variable accepts : string -> kwargs -> bool.

Lemma from_etree_unfold n element extra_attrs w nd :
  hp w !! element = Some nd ->
  from_etree _flatten accepts (S n) element extra_attrs w =
  match globals_lookup (ntag nd) with
  | Raise e => (Raise e, w)
  | Ok GOther => (Raise (AttributeError "_preflatten"), w)
  | Ok (GClass SubClass) =>
      bind_as _flatten accepts (from_etree _flatten accepts n) SubClass
        (default (VBool false) (extra_attrs !! "get_or_create"))
        element (delete "get_or_create" extra_attrs) w
  end.
Proof.
  intros Hnd. simpl. unfold bind at 1, on_heap, get_node. rewrite Hnd.
  destruct w as [h o s]; simpl in *.
  destruct (globals_lookup (ntag nd)) as [[c|]|e]; reflexivity.
Qed.


(** C10. Binding an OPTINFO takes the SECID child that names the
    underlying out of the element and queries nothing: whatever the session
    holds, the pre-flatten hook succeeds with the keywords unchanged, and
    the instance is built from the flattened rest alone, so it carries no
    [secinfo_id] unless the caller or the parser supplied one; no
    [NoResultFound] is raised for the underlying. *)
Theorem C10_optinfo_underlying_not_resolved n element extra_attrs w nd :
  hp w !! element = Some nd -> ntag nd = "OPTINFO" ->
  extra_attrs !! "get_or_create" = None ->
  let h1 := without_child "SECID" element (hp w) in
  (forall bind_child,
     call_preflatten bind_child "OPTINFO" element extra_attrs w
     = (Ok (element, extra_attrs), World h1 (objs w) (session w)))
  /\ (forall a, _flatten h1 element = Some a ->
        accepts "OPTINFO" (extra_attrs ∪ a) = true ->
        from_etree _flatten accepts (S n) element extra_attrs w
        = (Ok (length (objs w)),
           World h1 (objs w ++ [{| cls := "OPTINFO"; attrs := extra_attrs ∪ a |}])
                 (session w)))
  /\ (forall a, _flatten h1 element = Some a ->
        accepts "OPTINFO" (extra_attrs ∪ a) = false ->
        from_etree _flatten accepts (S n) element extra_attrs w
        = (Raise (TypeError "invalid keyword argument"),
           World h1 (objs w) (session w)))
  /\ (_flatten h1 element = None ->
        from_etree _flatten accepts (S n) element extra_attrs w
        = (Raise (ValueError "_flatten"), World h1 (objs w) (session w))).
Proof.
  intros Hnd Htag Hflag h1.
  assert (Hpre : forall bind_child,
             call_preflatten bind_child "OPTINFO" element extra_attrs w
             = (Ok (element, extra_attrs), World h1 (objs w) (session w))).
  { intros bind_child.
    change (call_preflatten bind_child "OPTINFO" element extra_attrs w)
      with (OPTINFO__do_secid element extra_attrs w).
    apply OPTINFO__do_secid_spec. eauto. }
  assert (Hpost : forall a w0,
             call_postflatten "OPTINFO" a extra_attrs w0 = (Ok (a, extra_attrs), w0)).
  { reflexivity. }
  assert (Hfe : from_etree _flatten accepts (S n) element extra_attrs w
             = bind_as _flatten accepts (from_etree _flatten accepts n) "OPTINFO"
                 (VBool false) element extra_attrs w).
  { rewrite (from_etree_unfold _ _ _ _ _ Hnd). rewrite Htag.
    change (globals_lookup "OPTINFO") with (Ok (E:=exn) (GClass "OPTINFO")).
    cbv iota. rewrite Hflag. simpl default.
    by rewrite delete_id. }
  split; [exact Hpre|].
  rewrite Hfe. unfold bind_as, bind. rewrite Hpre. simpl fst. simpl snd.
  unfold call_flatten. simpl hp.
  repeat split.
  - intros a Ha Hacc. rewrite Ha. rewrite Hpost. simpl.
    unfold construct. rewrite Hacc. reflexivity.
  - intros a Ha Hacc. rewrite Ha. rewrite Hpost. simpl.
    unfold construct. rewrite Hacc. reflexivity.
  - intros Ha. rewrite Ha. reflexivity.
Qed.

(** C2. For a class that mixes SECID into an Aggregate, binding looks the
    pair (uniqueid, uniqueidtype) of the first SECID descendant up among
    the SECINFO rows of the session.  With no such row it fails with
    [NoResultFound] and the world is unchanged, so no SECINFO is created.
    With exactly one row, the hook stores that row's [id] as [secinfo_id]
    and a successful binding adds one object, of the bound class and not a
    SECINFO, that carries it. *)
Theorem C2_security_reference_resolves_or_fails
    n C element extra_attrs w nd s sn t tn u un :
  secid_class C = true ->
  hp w !! element = Some nd -> ntag nd = C ->
  List.find (has_tag (hp w) "SECID") (descendants (length (hp w)) (hp w) element)
    = Some s ->
  hp w !! s = Some sn ->
  List.find (has_tag (hp w) "UNIQUEIDTYPE") (nkids sn) = Some t ->
  hp w !! t = Some tn ->
  List.find (has_tag (hp w) "UNIQUEID") (nkids sn) = Some u ->
  hp w !! u = Some un ->
  let pk := [("uniqueid", text_value un); ("uniqueidtype", text_value tn)] in
  (query "SECINFO" pk w = [] ->
     from_etree _flatten accepts (S n) element extra_attrs w
     = (Raise NoResultFound, w))
  /\ (forall r, query "SECINFO" pk w = [r] ->
        exists e, objs w !! r = Some e
          /\ issubclass (cls e) "SECINFO" = true
          /\ getattr e "uniqueid" = text_value un
          /\ getattr e "uniqueidtype" = text_value tn
          /\ (forall extra,
                call_do_secid C element extra w
                = (Ok (element, <["secinfo_id" := getattr e "id"]> extra),
                   World (emptied_secid s t u (hp w)) (objs w) (session w)))
          /\ (extra_attrs !! "get_or_create" = None ->
              forall x w',
                from_etree _flatten accepts (S n) element extra_attrs w = (Ok x, w') ->
                x = length (objs w) /\ session w' = session w
                /\ exists i, objs w' = objs w ++ [i] /\ cls i = C
                     /\ issubclass (cls i) "SECINFO" = false
                     /\ attrs i !! "secinfo_id" = Some (getattr e "id"))).
Proof.
  intros HC Hnd Htag Hs Hsn Ht Htn Hu Hun pk.
  pose proof (secid_class_dispatch _ HC) as Hd. unfold secid_dispatch in Hd.
  destruct (resolve C "_do_secid") as [d|] eqn:Ed; [|discriminate].
  destruct (resolve C "_preflatten") as [p|] eqn:Ep; [|discriminate].
  destruct (resolve C "_postflatten") as [q|] eqn:Eq; [|discriminate].
  destruct (globals_lookup C) as [[c'|]|] eqn:Eg; try discriminate.
  repeat (apply andb_true_iff in Hd as [Hd ?]).
  apply String.eqb_eq in Hd. subst d.
  match goal with H : String.eqb q _ = true |- _ => apply String.eqb_eq in H; subst q end.
  match goal with H : String.eqb c' _ = true |- _ => apply String.eqb_eq in H; subst c' end.
  match goal with H : negb _ = true |- _ => apply negb_true_iff in H; rename H into Hnot end.
  match goal with H : orb _ _ = true |- _ => rename H into Hp end.
  assert (Hsec : forall extra,
             call_do_secid C element extra w
             = SECID__do_secid element extra w).
  { intros extra. unfold call_do_secid. rewrite Ed. reflexivity. }
  assert (Hpre : forall bind_child extra,
             call_preflatten bind_child C element extra w
             = if String.eqb p "INVTRAN"
               then (r <~ SECID__do_secid element extra ;;
                     call_do_origcurrency C (fst r) (snd r)) w
               else SECID__do_secid element extra w).
  { intros bind_child extra. unfold call_preflatten. rewrite Ep.
    apply orb_true_iff in Hp as [Hp|Hp]; apply String.eqb_eq in Hp; subst p; simpl.
    - unfold bind. by rewrite Hsec.
    - apply Hsec. }
  assert (Hpost : forall a ex w0,
             call_postflatten C a ex w0 = (Ok (a, ex), w0)).
  { intros. unfold call_postflatten. rewrite Eq. reflexivity. }
  assert (Hfe : from_etree _flatten accepts (S n) element extra_attrs w
             = bind_as _flatten accepts (from_etree _flatten accepts n) C
                 (default (VBool false) (extra_attrs !! "get_or_create"))
                 element (delete "get_or_create" extra_attrs) w).
  { rewrite (from_etree_unfold _ _ _ _ _ Hnd). rewrite Htag, Eg. reflexivity. }
  split.
  - intros Hq. rewrite Hfe. unfold bind_as. unfold bind at 1. rewrite Hpre.
    destruct (String.eqb p "INVTRAN").
    + unfold bind at 1.
      rewrite (SECID__do_secid_spec _ _ _ _ _ _ _ _ _ Hs Hsn Ht Htn Hu Hun).
      fold pk. rewrite Hq. reflexivity.
    + rewrite (SECID__do_secid_spec _ _ _ _ _ _ _ _ _ Hs Hsn Ht Htn Hu Hun).
      fold pk. rewrite Hq. reflexivity.
  - intros r Hq.
    destruct (query_row "SECINFO" pk w r) as (e & He & Hsub & Hkeys).
    { rewrite Hq. by left. }
    exists e. split; [exact He|]. split; [exact Hsub|].
    apply Forall_cons in Hkeys as [Hk1 Hkeys]. apply Forall_cons in Hkeys as [Hk2 _].
    split; [exact Hk1|]. split; [exact Hk2|].
    assert (Hdo : forall extra,
               SECID__do_secid element extra w
               = (Ok (element, <["secinfo_id" := getattr e "id"]> extra),
                  World (emptied_secid s t u (hp w)) (objs w) (session w))).
    { intros extra.
      rewrite (SECID__do_secid_spec _ _ _ _ _ _ _ _ _ Hs Hsn Ht Htn Hu Hun).
      fold pk. rewrite Hq, He. reflexivity. }
    split; [intros extra; rewrite Hsec; apply Hdo|].
    intros Hflag x w'. rewrite Hfe, Hflag. cbn [default].
    rewrite delete_id by exact Hflag.
    set (w1 := World (emptied_secid s t u (hp w)) (objs w) (session w)).
    set (ex1 := <["secinfo_id" := getattr e "id"]> extra_attrs).
    assert (Hstage : exists ex2,
               ex2 !! "secinfo_id" = Some (getattr e "id") /\
               (call_preflatten (from_etree _flatten accepts n) C element extra_attrs w
                = (Ok (element, ex2), w1)
                \/ exists err, call_preflatten (from_etree _flatten accepts n) C
                                 element extra_attrs w = (Raise err, w1))).
    { rewrite Hpre. destruct (String.eqb p "INVTRAN").
      - unfold bind. rewrite Hdo. cbn [fst snd]. fold ex1 w1.
        destruct (call_do_origcurrency C element ex1 w1) as [r2 w2] eqn:Eo.
        apply call_do_origcurrency_frame in Eo as [-> Hr2].
        + destruct r2 as [[el ex]|err].
          * destruct (Hr2 el ex eq_refl) as [-> Hex].
            exists ex. split; [|by left].
            rewrite Hex by done. apply lookup_insert_eq.
          * exists ex1. split; [apply lookup_insert_eq|]. right. by exists err.
        + unfold w1, emptied_secid. cbn [hp]. rewrite Hsn.
          apply lookup_lt_is_Some. rewrite length_insert.
          eapply lookup_lt_Some; eauto.
      - rewrite Hdo. fold ex1 w1. exists ex1.
        split; [apply lookup_insert_eq | by left]. }
    destruct Hstage as (ex2 & Hex2 & [Hst|[err Hst]]).
    + unfold bind_as. unfold bind at 1. rewrite Hst. cbn [fst snd].
      unfold bind at 1, call_flatten.
      destruct (_flatten (hp w1) element) as [a|]; [|discriminate].
      unfold bind at 1. rewrite Hpost. cbn [fst snd truthy].
      unfold construct. destruct (accepts C (ex2 ∪ a)); [|discriminate].
      unfold new_object. intros [= <- <-]. cbn [objs session].
      split; [reflexivity|]. split; [reflexivity|].
      eexists. split; [reflexivity|]. cbn [cls attrs].
      split; [reflexivity|]. split; [exact Hnot|].
      apply lookup_union_Some_l. exact Hex2.
    + unfold bind_as. unfold bind at 1. rewrite Hst. discriminate.
Qed.

End WithParser.


(** **** The binder at work *)

(** C3. A BUYSTOCK whose INVBUY holds both CURRENCY and ORIGCURRENCY is
    refused, but not with the [ValueError] the hook means to raise: building
    its message reads the undefined name [elem], so the binding ends in
    [NameError]. *)
Lemma C3_both_currency_variants_raise_NameError :
  forall _flatten accepts n extra_attrs,
    let '(element, w) := world_of (buystock [currency; origcurrency]) [berkshire] in
    fst (from_etree _flatten accepts (S n) element extra_attrs w)
    = Raise (NameError "elem").
Proof. intros. vm_compute. reflexivity. Qed.


(** C9, as stated, fails: binding a BUYSTOCK whose security is in the
    session returns an instance, and the caller's tree has lost the
    children of its SECID node. *)
Lemma C9_counterexample :
  exists _flatten accepts n element extra_attrs w r w' k,
    from_etree _flatten accepts n element extra_attrs w = (r, w')
    /\ read k (hp w') element <> read k (hp w) element.
Proof.
  pose (ew := world_of (buystock []) [berkshire]).
  pose (rw := from_etree flatten_leaves accept_all 1 (fst ew) ∅ (snd ew)).
  exists flatten_leaves, accept_all, 1, (fst ew), ∅, (snd ew), (fst rw), (snd rw), 5.
  split; [exact (surjective_pairing rw)|]. vm_compute. discriminate.
Qed.

(** C5, as stated, fails on the ofxalchemy binder: a PAYEE without ADDR1
    ([nullable=False]) binds to an instance whose [addr1] is unset. *)
Lemma C5_counterexample :
  exists _flatten accepts n element extra_attrs w x w' nd i column,
    from_etree _flatten accepts n element extra_attrs w = (Ok x, w')
    /\ hp w !! element = Some nd /\ objs w' !! x = Some i
    /\ In column (required_columns (ntag nd))
    /\ getattr i column = VNone.
Proof.
  pose (ew := world_of payee_without_addr1 []).
  pose (rw := from_etree flatten_leaves accept_all 1 (fst ew) ∅ (snd ew)).
  exists flatten_leaves, accept_all, 1, (fst ew), ∅, (snd ew), 0, (snd rw),
    (Node "PAYEE" None [0; 1]),
    {| cls := "PAYEE";
       attrs := {[ "name" := VStr "ACME"; "city" := VStr "Springfield" ]} |},
    "addr1".
  repeat split; vm_compute; auto.
Qed.

(** C9 (amended). [MAIL.groom] and [MAIL.ungroom] work on a deep copy: every
    object the caller holds is what it was, and the input tree reads the
    same afterwards.  The pre-flatten hooks of ofxalchemy edit the caller's
    tree in place: [SECID._do_secid] takes UNIQUEIDTYPE and UNIQUEID out of
    the SECID node, [OPTINFO._do_secid] takes the SECID child out of the
    element. *)
Theorem C9_mail_hooks_copy_alchemy_hooks_edit_in_place :
  (forall elem h r h',
     Models.MAIL_groom elem h = (r, h') \/ Models.MAIL_ungroom elem h = (r, h') ->
     (exists ext, h' = h ++ ext)
     /\ forall k t, read k h elem = Some t -> read k h' elem = Some t)
  /\ (forall element extra_attrs w s sn t tn u un r e,
        List.find (has_tag (hp w) "SECID")
          (descendants (length (hp w)) (hp w) element) = Some s ->
        hp w !! s = Some sn ->
        List.find (has_tag (hp w) "UNIQUEIDTYPE") (nkids sn) = Some t ->
        hp w !! t = Some tn ->
        List.find (has_tag (hp w) "UNIQUEID") (nkids sn) = Some u ->
        hp w !! u = Some un ->
        query "SECINFO" [("uniqueid", text_value un);
                         ("uniqueidtype", text_value tn)] w = [r] ->
        objs w !! r = Some e ->
        SECID__do_secid element extra_attrs w
        = (Ok (element, <["secinfo_id" := getattr e "id"]> extra_attrs),
           World (emptied_secid s t u (hp w)) (objs w) (session w)))
  /\ (forall element extra_attrs w,
        is_Some (hp w !! element) ->
        OPTINFO__do_secid element extra_attrs w
        = (Ok (element, extra_attrs),
           World (without_child "SECID" element (hp w)) (objs w) (session w))).
Proof.
  split; [|split].
  - intros elem h r h' Hrun.
    assert (Hext : exists ext, h' = h ++ ext).
    { destruct Hrun as [Hrun|Hrun].
      - exact (ETFacts.rename_hook_frame "FROM" "FRM" elem h r h' Hrun).
      - exact (ETFacts.rename_hook_frame "FRM" "FROM" elem h r h' Hrun). }
    split; [exact Hext|]. destruct Hext as [ext ->].
    intros k t. apply ETFacts.read_app.
  - intros element extra_attrs w s sn t tn u un r e Hs Hsn Ht Htn Hu Hun Hq He.
    rewrite (SECID__do_secid_spec _ _ _ _ _ _ _ _ _ Hs Hsn Ht Htn Hu Hun).
    by rewrite Hq, He.
  - intros element extra_attrs w. apply OPTINFO__do_secid_spec.
Qed.

End AlchemyFacts.

(** * The binder and renderer of the models package *)

Module ModelsFacts.
Import Models ModelsDefs ListFacts.

Lemma Instance_ind' {datetime} (P : Instance datetime -> Prop) :
  (forall tg sc sb it, Forall (fun p => P (snd p)) sb -> Forall P it ->
      P (Inst tg sc sb it)) ->
  forall x, P x.
Proof.
  intros H. fix IH 1. intros [tg sc sb it]. apply H.
  - induction sb as [|p sb IHsb]; constructor; [apply IH | exact IHsb].
  - induction it as [|i it IHit]; constructor; [apply IH | exact IHit].
Qed.

Section Roundtrip.
Context {datetime : Type}.
Variable parse_datetime : string -> option datetime.
Variable render_datetime : datetime -> option string.
Hypothesis datetime_roundtrip :
  forall d text, render_datetime d = Some text -> parse_datetime text = Some d.
Variable registry : list (string * Schema).

Lemma parse_render ft (v : Value datetime) text :
  render datetime render_datetime ft v = Some text ->
  parse datetime parse_datetime ft text = Some (Some v).
Proof.
  destruct ft as [n| | |allowed|], v as [s|b|d]; cbn; try done.
  - destruct (N.leb _ n) eqn:E; [|done]. intros [= <-]. by rewrite E.
  - destruct b; intros [= <-]; reflexivity.
  - intros H. by rewrite (datetime_roundtrip _ _ H).
  - destruct (existsb _ allowed) eqn:E; [|done]. intros [= <-]. by rewrite E.
Qed.

Abbreviation from_etree := (Models.from_etree datetime parse_datetime registry).
Abbreviation to_etree := (Models.to_etree datetime render_datetime registry).
Abbreviation render := (Models.render datetime render_datetime).
Abbreviation fits_scalars := (ModelsDefs.fits_scalars render_datetime).

(** **** Looking a child up by tag *)

Lemma child_none T K : (forall k, k ∈ K -> etag k <> T) -> child T K = None.
Proof.
  induction K as [|a K IH]; cbn; [done|]. intros H.
  destruct (String.eqb (etag a) T) eqn:E.
  - apply String.eqb_eq in E. exfalso. apply (H a); [left | done].
  - apply IH. intros k Hk. apply H. by right.
Qed.

Lemma child_in T K k : child T K = Some k -> k ∈ K /\ etag k = T.
Proof.
  intros H. apply find_some in H as [H1 H2].
  split; [by apply list_elem_of_In | by apply String.eqb_eq].
Qed.

Lemma child_nodup A B k :
  NoDup (map etag A) -> k ∈ A -> child (etag k) (A ++ B) = Some k.
Proof.
  induction A as [|a A IH]; cbn; intros Hnd Hk; [by apply elem_of_nil in Hk|].
  apply NoDup_cons in Hnd as [Ha Hnd].
  destruct (String.eqb (etag a) (etag k)) eqn:E.
  - apply String.eqb_eq in E. apply elem_of_cons in Hk as [->|Hk]; [done|].
    exfalso. apply Ha. rewrite E. apply list_elem_of_fmap. by exists k.
  - apply elem_of_cons in Hk as [->|Hk]; [by rewrite String.eqb_refl in E|].
    by apply IH.
Qed.

Lemma assoc_none {A} k (l : list (string * A)) :
  k ∉ map fst l -> assoc k l = None.
Proof.
  induction l as [|[k' a] l IH]; cbn; [done|]. intros H.
  apply not_elem_of_cons in H as [Hne H].
  destruct (String.eqb k' k) eqn:E; [apply String.eqb_eq in E; congruence|].
  by apply IH.
Qed.

Lemma assoc_map {A B} (f : A -> B) k (l : list (string * A)) :
  assoc k (map (fun p => (fst p, f (snd p))) l) = f <$> assoc k l.
Proof.
  induction l as [|[k' a] l IH]; cbn; [done|].
  destruct (String.eqb k' k); [done | exact IH].
Qed.

(** **** Scalar members *)

Lemma scalar_tag_in name ft r ms :
  (name, Scalar ft r) ∈ ms -> upper name ∈ scalar_tags ms.
Proof.
  intros H. unfold scalar_tags. apply list_elem_of_In, in_flat_map.
  exists (name, Scalar ft r). split; [by apply list_elem_of_In | by left].
Qed.

Lemma sub_tag_in name schema r ms :
  (name, SubAggregate schema r) ∈ ms -> schema ∈ sub_tags ms.
Proof.
  intros H. unfold sub_tags. apply list_elem_of_In, in_flat_map.
  exists (name, SubAggregate schema r). split; [by apply list_elem_of_In | by left].
Qed.

Lemma fits_scalars_keys ms : forall sc,
  fits_scalars ms sc = true ->
  forall k, k ∈ map fst sc -> upper k ∈ scalar_tags ms.
Proof.
  induction ms as [|[name [ft r|schema r]] ms IH]; intros sc; cbn [ModelsDefs.fits_scalars].
  - destruct sc; [|done]. intros _ k Hk. by apply elem_of_nil in Hk.
  - destruct sc as [|[k v] sc].
    + intros _ k Hk. by apply elem_of_nil in Hk.
    + destruct (String.eqb k name) eqn:E.
      * apply String.eqb_eq in E. subst k.
        destruct (render ft v); [|done]. intros H k Hk. cbn in Hk.
        apply elem_of_cons in Hk as [->|Hk].
        -- cbn. left.
        -- cbn. right. by apply (IH sc).
      * intros H k' Hk'. cbn. right. by apply (IH _ H).
  - intros H k Hk. cbn. by apply (IH _ H).
Qed.

Lemma render_scalars_ext tg ms (sc1 sc2 : list (string * Value datetime)) :
  (forall name ft r, (name, Scalar ft r) ∈ ms -> assoc name sc1 = assoc name sc2) ->
  render_scalars datetime render_datetime tg ms sc1
  = render_scalars datetime render_datetime tg ms sc2.
Proof.
  induction ms as [|[name [ft r|schema r]] ms IH]; intros H; cbn; [done| |].
  - rewrite (H name ft r) by left.
    rewrite IH; [done|]. intros n f r' Hin. apply (H n f r'). by right.
  - apply IH. intros n f r' Hin. apply (H n f r'). by right.
Qed.

Lemma scalars_roundtrip tg ms : forall sc,
  NoDup (scalar_tags ms) -> fits_scalars ms sc = true ->
  exists sk,
    render_scalars datetime render_datetime tg ms sc = Ok sk
    /\ map etag sk `sublist_of` scalar_tags ms
    /\ forall K,
         (forall k, k ∈ sk -> child (etag k) K = Some k) ->
         (forall T, T ∈ scalar_tags ms -> T ∉ map etag sk -> child T K = None) ->
         bind_scalars datetime parse_datetime tg ms K = Ok sc.
Proof.
  induction ms as [|[name [ft r|schema r]] ms IH]; intros sc Hnd Hfit;
    cbn [ModelsDefs.fits_scalars] in Hfit.
  - destruct sc; [|done]. exists []. cbn. repeat split; constructor.
  - cbn [scalar_tags flat_map snd fst app] in Hnd. cbn in Hnd.
    apply NoDup_cons in Hnd as [Hname Hnd].
    assert (Habsent : forall sc', fits_scalars ms sc' = true -> assoc name sc' = None).
    { intros sc' Hf. apply assoc_none. intros Hk.
      apply Hname. by apply (fits_scalars_keys ms sc' Hf). }
    assert (Hskip : forall sc', fits_scalars ms sc' = true ->
              exists sk,
                render_scalars datetime render_datetime tg
                  ((name, Scalar ft r) :: ms) sc' = Ok sk
                /\ map etag sk `sublist_of` scalar_tags ((name, Scalar ft r) :: ms)
                /\ forall K,
                     (forall k, k ∈ sk -> child (etag k) K = Some k) ->
                     (forall T, T ∈ scalar_tags ((name, Scalar ft r) :: ms) ->
                        T ∉ map etag sk -> child T K = None) ->
                     bind_scalars datetime parse_datetime tg
                       ((name, Scalar ft r) :: ms) K = Ok sc').
    { intros sc' Hf. destruct (IH sc' Hnd Hf) as (sk & Hr & Hsub & Hb).
      exists sk. cbn [render_scalars]. rewrite (Habsent _ Hf).
      split; [exact Hr|]. split; [by apply sublist_cons|].
      intros K H1 H2. cbn [bind_scalars].
      rewrite (H2 (upper name)).
      - apply Hb; [exact H1|]. intros T HT HnT. apply H2; [by right | exact HnT].
      - by left.
      - intros Hin. apply Hname. eapply elem_of_sublist; eauto. }
    destruct sc as [|[k v] sc]; [by apply Hskip|].
    destruct (String.eqb k name) eqn:E; [|by apply Hskip].
    apply String.eqb_eq in E. subst k.
    destruct (render ft v) as [text|] eqn:Ev; [|done].
    destruct (IH sc Hnd Hfit) as (sk & Hr & Hsub & Hb).
    exists (Elem (upper name) (Some text) [] :: sk).
    cbn [render_scalars assoc]. rewrite String.eqb_refl, Ev.
    rewrite (render_scalars_ext tg ms ((name, v) :: sc) sc).
    2:{ intros n f r' Hin. cbn. destruct (String.eqb name n) eqn:En; [|done].
        apply String.eqb_eq in En. subst n. exfalso. apply Hname.
        by apply (scalar_tag_in _ _ _ _ Hin). }
    rewrite Hr. cbn. split; [done|]. split; [by apply sublist_skip|].
    intros K H1 H2. cbn [bind_scalars].
    assert (Hc : child (upper name) K = Some (Elem (upper name) (Some text) [])).
    { apply (H1 (Elem (upper name) (Some text) [])). left. }
    rewrite Hc. cbn [etext default]. unfold id. rewrite (parse_render _ _ _ Ev).
    rewrite Hb; [done | |].
    + intros k Hk. apply H1. by right.
    + intros T HT HnT. apply H2; [by right|]. cbn.
      intros Hin. apply elem_of_cons in Hin as [->|Hin]; done.
  - cbn [scalar_tags flat_map snd app] in Hnd. cbn in Hnd.
    destruct (IH sc Hnd Hfit) as (sk & Hr & Hsub & Hb).
    exists sk. cbn. done.
Qed.


(** **** Sub-aggregate members *)

Definition tagged (sb : list (string * Instance datetime)) : list (string * string) :=
  map (fun p => (fst p, itag (snd p))) sb.

Definition rendered (sb : list (string * Instance datetime))
  : list (string * result BindError Element) :=
  map (fun p => (fst p, to_etree (snd p))) sb.

(** [x] renders to a tree that carries its tag and binds back to it. *)
Definition roundtrips (n : nat) (x : Instance datetime) : Prop :=
  exists t, to_etree x = Ok t /\ etag t = itag x /\ from_etree n t = Ok x.

Lemma fits_subs_keys ms : forall sbt,
  fits_subs ms sbt = true -> forall k, k ∈ map fst sbt -> k ∈ map fst ms.
Proof.
  induction ms as [|[name [ft r|schema r]] ms IH]; intros sbt; cbn [fits_subs].
  - destruct sbt; [|done]. intros _ k Hk. by apply elem_of_nil in Hk.
  - intros H k Hk. cbn. right. by apply (IH _ H).
  - destruct sbt as [|[k tg] sbt].
    + intros _ k Hk. by apply elem_of_nil in Hk.
    + destruct (String.eqb k name) eqn:E.
      * apply String.eqb_eq in E. subst k.
        intros H k Hk. apply andb_true_iff in H as [_ H]. cbn in Hk.
        apply elem_of_cons in Hk as [->|Hk]; cbn; [left | right; by apply (IH sbt)].
      * intros H k' Hk'. cbn. right. by apply (IH _ H).
Qed.

Lemma render_subs_ext ms (r1 r2 : list (string * result BindError Element)) :
  (forall name, name ∈ map fst ms -> assoc name r1 = assoc name r2) ->
  render_subs ms r1 = render_subs ms r2.
Proof.
  induction ms as [|[name [ft r|schema r]] ms IH]; intros H; cbn; [done| |].
  - apply IH. intros n Hin. apply H. cbn. by right.
  - rewrite (H name) by (cbn; left).
    rewrite IH; [done|]. intros n Hin. apply H. cbn. by right.
Qed.

Lemma subs_roundtrip n ms : forall sb,
  NoDup (map fst ms) -> NoDup (sub_tags ms) ->
  fits_subs ms (tagged sb) = true ->
  Forall (fun p => roundtrips n (snd p)) sb ->
  exists ak,
    render_subs ms (rendered sb) = Ok ak
    /\ map etag ak `sublist_of` sub_tags ms
    /\ forall K,
         (forall k, k ∈ ak -> child (etag k) K = Some k) ->
         (forall T, T ∈ sub_tags ms -> T ∉ map etag ak -> child T K = None) ->
         bind_subs datetime (from_etree n) ms K = Ok sb.
Proof.
  induction ms as [|[name [ft r|schema r]] ms IH]; intros sb Hnames Hnd Hfit Hrt;
    cbn [fits_subs] in Hfit.
  - destruct sb; [|done]. exists []. cbn. repeat split; constructor.
  - cbn in Hnames. apply NoDup_cons in Hnames as [_ Hnames].
    destruct (IH sb Hnames Hnd Hfit Hrt) as (ak & Hr & Hsub & Hb).
    exists ak. cbn. done.
  - cbn in Hnames. apply NoDup_cons in Hnames as [Hname Hnames].
    cbn [sub_tags flat_map snd app] in Hnd. cbn in Hnd.
    apply NoDup_cons in Hnd as [Hschema Hnd].
    assert (Habsent : forall sb', fits_subs ms (tagged sb') = true ->
              assoc name (rendered sb') = None).
    { intros sb' Hf. apply assoc_none. intros Hk. apply Hname.
      apply (fits_subs_keys ms _ Hf).
      unfold rendered in Hk. unfold tagged.
      rewrite map_map in Hk |- *. exact Hk. }
    assert (Hskip : forall sb', fits_subs ms (tagged sb') = true ->
              Forall (fun p => roundtrips n (snd p)) sb' ->
              exists ak,
                render_subs ((name, SubAggregate schema r) :: ms) (rendered sb') = Ok ak
                /\ map etag ak `sublist_of` sub_tags ((name, SubAggregate schema r) :: ms)
                /\ forall K,
                     (forall k, k ∈ ak -> child (etag k) K = Some k) ->
                     (forall T, T ∈ sub_tags ((name, SubAggregate schema r) :: ms) ->
                        T ∉ map etag ak -> child T K = None) ->
                     bind_subs datetime (from_etree n)
                       ((name, SubAggregate schema r) :: ms) K = Ok sb').
    { intros sb' Hf Hrt'. destruct (IH sb' Hnames Hnd Hf Hrt') as (ak & Hr & Hsub & Hb).
      exists ak. cbn [render_subs]. rewrite (Habsent _ Hf).
      split; [exact Hr|]. split; [by apply sublist_cons|].
      intros K H1 H2. cbn [bind_subs].
      rewrite (H2 schema).
      - apply Hb; [exact H1|]. intros T HT HnT. apply H2; [by right | exact HnT].
      - by left.
      - intros Hin. apply Hschema. eapply elem_of_sublist; eauto. }
    destruct sb as [|[k x] sb]; [by apply Hskip|].
    cbn [tagged map fst snd] in Hfit.
    destruct (String.eqb k name) eqn:E; [|by apply Hskip].
    apply String.eqb_eq in E. subst k.
    apply andb_true_iff in Hfit as [Htag Hfit]. apply String.eqb_eq in Htag.
    apply Forall_cons in Hrt as [(t & Ht & Het & Hft) Hrt]. cbn [snd] in *.
    destruct (IH sb Hnames Hnd Hfit Hrt) as (ak & Hr & Hsub & Hb).
    exists (t :: ak).
    cbn [render_subs rendered map assoc fst snd]. rewrite String.eqb_refl, Ht.
    fold (rendered sb).
    rewrite (render_subs_ext ms ((name, Ok t) :: rendered sb) (rendered sb)).
    2:{ intros n' Hin. cbn. destruct (String.eqb name n') eqn:En; [|done].
        apply String.eqb_eq in En. by subst n'. }
    rewrite Hr. cbn. split; [done|].
    rewrite Het, Htag. split; [by apply sublist_skip|].
    intros K H1 H2. cbn [bind_subs].
    assert (Hc : child schema K = Some t).
    { rewrite <- Htag, <- Het. apply H1. left. }
    rewrite Hc. cbn. rewrite Hft. cbn.
    rewrite Hb; [done | |].
    + intros k Hk. apply H1. by right.
    + intros T HT HnT. apply H2; [by right|].
      intros Hin. apply elem_of_cons in Hin as [->|Hin]; done.
Qed.

(** **** List items *)

Lemma items_roundtrip n it :
  Forall (roundtrips n) it ->
  exists ik,
    Models.sequence (map to_etree it) = Ok ik
    /\ map etag ik = map itag it
    /\ bind_items datetime (from_etree n) ik = Ok it.
Proof.
  induction 1 as [|x it (t & Ht & Het & Hft) _ (ik & Hs & Htags & Hb)].
  - exists []. done.
  - exists (t :: ik). cbn. rewrite Ht, Hs. cbn. rewrite Het, Htags, Hft, Hb. done.
Qed.


(** **** The whole instance *)

Abbreviation valid := (ModelsDefs.valid render_datetime registry).

Lemma to_etree_unfold tg sc sb it :
  to_etree (Inst tg sc sb it) =
  match resolve registry tg with
  | None => Raise (UnknownAggregateError tg)
  | Some s =>
      sk <-! render_scalars datetime render_datetime tg (members s) sc ;;
      ak <-! render_subs (members s) (rendered sb) ;;
      ik <-! Models.sequence (map to_etree it) ;;
      match ungroom s (Elem tg None (sk ++ ak ++ ik)) with
      | Ok t => Ok t
      | Raise e => Raise (HookError e)
      end
  end.
Proof. reflexivity. Qed.

Lemma valid_unfold tg sc sb it :
  valid (Inst tg sc sb it) <->
  exists s, resolve registry tg = Some s
    /\ schema_ok tg s
    /\ fits_scalars (members s) sc = true
    /\ fits_subs (members s) (tagged sb) = true
    /\ missing_required s sc sb = None
    /\ Forall (fun p => valid (snd p)) sb
    /\ Forall (fun i => valid i /\ In (itag i) (dataTags s)) it.
Proof.
  cbn [ModelsDefs.valid]. destruct (resolve registry tg) as [s|].
  - split.
    + intros (H1 & H2 & H3 & H4 & H5 & H6). exists s.
      split; [done|]. split; [done|]. split; [done|]. split; [done|].
      split; [done|]. split.
      * clear -H5. induction sb as [|p sb IH]; constructor; [tauto|]. apply IH. tauto.
      * clear -H6. induction it as [|i it IH]; constructor; [tauto|]. apply IH. tauto.
    + intros (s' & [= <-] & H1 & H2 & H3 & H4 & H5 & H6).
      split; [done|]. split; [done|]. split; [done|]. split; [done|]. split.
      * clear -H5. induction H5; [done|]. split; done.
      * clear -H6. induction H6; [done|]. split; done.
  - split; [done|]. intros (s' & ? & _). done.
Qed.

Lemma member_tags_split s T :
  T ∈ member_tags s <-> T ∈ scalar_tags (members s) \/ T ∈ sub_tags (members s).
Proof.
  unfold member_tags. induction (members s) as [|[name [ft r|schema r]] ms IH]; cbn.
  - rewrite !elem_of_nil. tauto.
  - rewrite !elem_of_cons, IH. tauto.
  - rewrite !elem_of_cons, IH. tauto.
Qed.

Lemma depth_subs (sb : list (string * Instance datetime)) p :
  p ∈ sb -> depth (snd p) <= foldr (fun p n => Nat.max (depth (snd p)) n) 0 sb.
Proof.
  induction sb as [|q sb IH]; [by intros H%elem_of_nil|].
  intros [->|H]%elem_of_cons; cbn; [lia|]. specialize (IH H). lia.
Qed.

Lemma depth_items (it : list (Instance datetime)) i :
  i ∈ it -> depth i <= foldr (fun i n => Nat.max (depth i) n) 0 it.
Proof.
  induction it as [|q it IH]; [by intros H%elem_of_nil|].
  intros [->|H]%elem_of_cons; cbn; [lia|]. specialize (IH H). lia.
Qed.

Lemma roundtrip x : valid x -> forall n, depth x <= n -> roundtrips n x.
Proof.
  induction x as [tg sc sb it IHsb IHit] using Instance_ind'.
  intros Hv n Hn. apply valid_unfold in Hv
    as (s & Es & (Hnames & Hnd & Hdisj & Hhooks) & Hfs & Hfb & Hmiss & Hvsb & Hvit).
  destruct n as [|n]; [cbn in Hn; lia|]. cbn [depth] in Hn.
  assert (Hsb : Forall (fun p => roundtrips n (snd p)) sb).
  { apply Forall_forall. intros p Hp.
    rewrite Forall_forall in IHsb, Hvsb. apply (IHsb p Hp (Hvsb p Hp)).
    pose proof (depth_subs sb p Hp). lia. }
  assert (Hit : Forall (roundtrips n) it).
  { apply Forall_forall. intros i Hi.
    rewrite Forall_forall in IHit, Hvit. apply (IHit i Hi (proj1 (Hvit i Hi))).
    pose proof (depth_items it i Hi). lia. }
  apply NoDup_app in Hnd as (Hnd1 & Hnd12 & Hnd2).
  destruct (scalars_roundtrip tg (members s) sc Hnd1 Hfs) as (sk & Hrs & Hsks & Hbs).
  destruct (subs_roundtrip n (members s) sb Hnames Hnd2 Hfb Hsb) as (ak & Hra & Haks & Hba).
  destruct (items_roundtrip n it Hit) as (ik & Hri & Hiks & Hbi).
  set (K := sk ++ ak ++ ik).
  assert (Hsk : forall k, k ∈ sk -> etag k ∈ scalar_tags (members s)).
  { intros k Hk. eapply elem_of_sublist; [|exact Hsks].
    apply list_elem_of_fmap. by exists k. }
  assert (Hak : forall k, k ∈ ak -> etag k ∈ sub_tags (members s)).
  { intros k Hk. eapply elem_of_sublist; [|exact Haks].
    apply list_elem_of_fmap. by exists k. }
  assert (Hik : forall k, k ∈ ik -> etag k ∈ dataTags s).
  { intros k Hk.
    assert (Hin : etag k ∈ map itag it).
    { rewrite <- Hiks. apply list_elem_of_fmap. by exists k. }
    apply list_elem_of_fmap in Hin as (i & -> & Hi).
    rewrite Forall_forall in Hvit. apply list_elem_of_In. apply (Hvit i Hi). }
  assert (Hik' : forall k, k ∈ ik -> etag k ∉ member_tags s).
  { intros k Hk Hin. apply (Hdisj (etag k)); apply list_elem_of_In; auto. }
  assert (Hperm : forallb (permitted s) K = true).
  { apply forallb_forall. intros k Hk. apply list_elem_of_In in Hk.
    unfold K in Hk. rewrite !elem_of_app in Hk. unfold permitted.
    apply orb_true_iff. destruct Hk as [Hk|[Hk|Hk]].
    - left. apply existsb_elem_of. apply member_tags_split. left. by apply Hsk.
    - left. apply existsb_elem_of. apply member_tags_split. right. by apply Hak.
    - right. apply existsb_elem_of. by apply Hik. }
  destruct (Hhooks K Hperm) as (t & Hun & Htag & Hgr).
  assert (Hnd_ka : NoDup (map etag (sk ++ ak))).
  { rewrite map_app. eapply sublist_NoDup; [|apply sublist_app; eassumption].
    apply NoDup_app. done. }
  assert (Hfind : forall k, k ∈ sk ++ ak -> child (etag k) K = Some k).
  { intros k Hk. unfold K. rewrite app_assoc. by apply child_nodup. }
  assert (Hnone : forall T, T ∈ member_tags s -> T ∉ map etag (sk ++ ak) ->
             child T K = None).
  { intros T HT HnT. apply child_none. intros k Hk Hek. subst T.
    unfold K in Hk. rewrite app_assoc in Hk. apply elem_of_app in Hk as [Hk|Hk].
    - apply HnT. apply list_elem_of_fmap. by exists k.
    - by apply (Hik' k). }
  exists t. split; [|split].
  - rewrite to_etree_unfold, Es, Hrs. cbn [rbind]. rewrite Hra. cbn [rbind].
    rewrite Hri. cbn [rbind]. fold K. by rewrite Hun.
  - exact Htag.
  - cbn [Models.from_etree]. rewrite Htag, Es, Hgr. cbn [echildren]. fold K.
    rewrite (find_none_all _ K).
    2:{ intros k Hk. rewrite forallb_forall in Hperm.
        by rewrite (Hperm k Hk). }
    rewrite Hbs.
    2:{ intros k Hk. apply Hfind. apply elem_of_app. by left. }
    2:{ intros T HT HnT. apply Hnone.
        - apply member_tags_split. by left.
        - rewrite map_app. intros [Hin|Hin]%elem_of_app; [done|].
          apply (Hnd12 T HT). eapply elem_of_sublist; eauto. }
    cbn [rbind]. rewrite Hba.
    2:{ intros k Hk. apply Hfind. apply elem_of_app. by right. }
    2:{ intros T HT HnT. apply Hnone.
        - apply member_tags_split. by right.
        - rewrite map_app. intros [Hin|Hin]%elem_of_app; [|done].
          apply (Hnd12 T); [|done]. eapply elem_of_sublist; eauto. }
    cbn [rbind].
    assert (Hfilter : List.filter (is_item s) K = ik).
    { unfold K. rewrite !List.filter_app.
      rewrite (filter_none _ sk).
      2:{ intros k Hk. apply list_elem_of_In in Hk.
          unfold is_item. apply negb_false_iff.
          apply existsb_elem_of, member_tags_split. left. by apply Hsk. }
      rewrite (filter_none _ ak).
      2:{ intros k Hk. apply list_elem_of_In in Hk.
          unfold is_item. apply negb_false_iff.
          apply existsb_elem_of, member_tags_split. right. by apply Hak. }
      cbn. apply List.forallb_filter_id.
      apply forallb_forall. intros k Hk. apply list_elem_of_In in Hk.
      unfold is_item. apply negb_true_iff. apply not_true_iff_false.
      intros H. apply existsb_elem_of in H. by apply (Hik' k). }
    rewrite Hfilter, Hbi. cbn [rbind]. by rewrite Hmiss.
Qed.

End Roundtrip.
End ModelsFacts.

Module EmailFacts.
Import ET Models ModelsDefs ETFacts ModelsFacts EmailDefs ListFacts.

Lemma retag_inverse old new ks :
  (forall k, k ∈ ks -> etag k <> new) ->
  retag_first new old (retag_first old new ks) = ks.
Proof.
  induction ks as [|[tg tx cs] ks IH]; cbn; [done|]. intros H.
  destruct (String.eqb tg old) eqn:E.
  - apply String.eqb_eq in E. subst tg. cbn. by rewrite String.eqb_refl.
  - cbn. destruct (String.eqb tg new) eqn:E'.
    + apply String.eqb_eq in E'. exfalso. apply (H (Elem tg tx cs)); [left | done].
    + rewrite IH; [done|]. intros k Hk. apply H. by right.
Qed.

Lemma aggregate_hooks_inverse tg ms tags : hooks_inverse tg (aggregate ms tags).
Proof.
  intros ks _. exists (Elem tg None ks). cbn [ungroom groom aggregate].
  unfold Aggregate_ungroom. fold Aggregate_groom.
  rewrite !Aggregate_groom_tree. done.
Qed.

Lemma MAIL_hooks_inverse : hooks_inverse "MAIL" MAIL.
Proof.
  intros ks Hperm. exists (Elem "MAIL" None (retag_first "FRM" "FROM" ks)).
  cbn [ungroom groom MAIL]. rewrite MAIL_ungroom_tree, MAIL_groom_tree.
  split; [done|]. split; [done|]. cbn [retag_child].
  rewrite retag_inverse; [done|].
  intros k Hk Hfrom. rewrite forallb_forall in Hperm.
  specialize (Hperm k (proj1 (list_elem_of_In _ _) Hk)).
  unfold permitted in Hperm. rewrite Hfrom in Hperm. vm_compute in Hperm. done.
Qed.

Lemma MAIL_ok : schema_ok "MAIL" MAIL.
Proof.
  split; [|split; [|split]].
  - apply (bool_decide_unpack _). vm_compute. done.
  - apply (bool_decide_unpack _). vm_compute. done.
  - intros T []. 
  - exact MAIL_hooks_inverse.
Qed.

Lemma aggregate_ok tg ms tags :
  bool_decide (NoDup (map fst ms)) = true ->
  bool_decide (NoDup (scalar_tags ms ++ sub_tags ms)) = true ->
  forallb (fun T => negb (existsb (String.eqb T) (map member_tag ms))) tags = true ->
  schema_ok tg (aggregate ms tags).
Proof.
  intros H1 H2 H3. split; [|split; [|split]].
  - by apply bool_decide_eq_true in H1.
  - by apply bool_decide_eq_true in H2.
  - intros T HT Hin. rewrite forallb_forall in H3. specialize (H3 T HT).
    apply negb_true_iff in H3.
    assert (existsb (String.eqb T) (map member_tag ms) = true); [|congruence].
    apply existsb_elem_of. by apply list_elem_of_In.
  - apply aggregate_hooks_inverse.
Qed.



Section MailRoundtrip.
Context {datetime : Type}.
Variable parse_datetime : string -> option datetime.
Variable render_datetime : datetime -> option string.
Hypothesis datetime_roundtrip :
  forall d text, render_datetime d = Some text -> parse_datetime text = Some d.
Variable registry : list (string * Schema).

Lemma roundtrip_tree x :
  valid render_datetime registry x ->
  exists t, to_etree datetime render_datetime registry x = Ok t
    /\ forall n, depth x <= n ->
         from_etree datetime parse_datetime registry n t = Ok x.
Proof.
  intros Hv.
  destruct (roundtrip parse_datetime render_datetime datetime_roundtrip registry
              x Hv (depth x) (le_n _)) as (t & Ht & _ & _).
  exists t. split; [exact Ht|]. intros n Hn.
  destruct (roundtrip parse_datetime render_datetime datetime_roundtrip registry
              x Hv n Hn) as (t' & Ht' & _ & Hf).
  rewrite Ht in Ht'. injection Ht' as <-. exact Hf.
Qed.

Lemma mail_roundtrip userid dtcreated dtext frm to subject msgbody incimages usehtml :
  resolve registry "MAIL" = Some MAIL ->
  fits 32 userid -> render_datetime dtcreated = Some dtext ->
  fits 32 frm -> fits 32 to -> fits 60 subject -> fits 10000 msgbody ->
  let x := mail_instance userid dtcreated frm to subject msgbody incimages usehtml in
  let t := mail_tree userid dtext frm to subject msgbody incimages usehtml in
  to_etree datetime render_datetime registry x = Ok t
  /\ forall n, from_etree datetime parse_datetime registry (S n) t = Ok x.
Proof.
  intros Hreg H1 H2 H3 H4 H5 H6 x t.
  unfold fits in *. apply N.leb_le in H1, H3, H4, H5, H6.
  assert (Hv : valid render_datetime registry x).
  { apply valid_unfold. exists MAIL. split; [exact Hreg|]. split; [exact MAIL_ok|].
    split; [|split; [|split; [|split]]]; try constructor.
    cbn. rewrite H1, H2, H3, H4, H5, H6. by destruct incimages, usehtml. }
  assert (Ht : to_etree datetime render_datetime registry x = Ok t).
  { unfold x, mail_instance. rewrite to_etree_unfold, Hreg.
    cbn [members MAIL render_scalars assoc String.eqb Ascii.eqb Bool.eqb render rbind].
    rewrite H1, H2, H3, H4, H5, H6.
    cbn [rbind render_subs rendered map Models.sequence app ungroom].
    destruct incimages, usehtml; cbn -[on_tree]; rewrite MAIL_ungroom_tree;
      reflexivity. }
  split; [exact Ht|]. intros n.
  destruct (roundtrip_tree x Hv) as (t' & Ht' & Hf).
  rewrite Ht in Ht'. injection Ht' as <-. apply Hf. cbn. lia.
Qed.

(** C1. Rendering a valid instance and binding the tree back gives the
    instance again, for every registered schema with distinct member tags
    and mutually inverse hooks.  A MAIL aggregate written with the tag FROM
    binds to the instance whose member is [frm], with INCIMAGES and USEHTML
    read from "Y" and "N"; that instance renders to the same tree, FROM
    restored and the two literals unchanged. *)
Theorem C1_render_then_bind_is_identity :
  (forall x, valid render_datetime registry x ->
     exists t, to_etree datetime render_datetime registry x = Ok t
       /\ forall n, depth x <= n ->
            from_etree datetime parse_datetime registry n t = Ok x)
  /\ (resolve registry "MAIL" = Some MAIL ->
      forall userid dtcreated dtext frm to subject msgbody incimages usehtml n,
        fits 32 userid -> render_datetime dtcreated = Some dtext ->
        fits 32 frm -> fits 32 to -> fits 60 subject -> fits 10000 msgbody ->
        from_etree datetime parse_datetime registry (S n)
          (mail_tree userid dtext frm to subject msgbody incimages usehtml)
        = Ok (mail_instance userid dtcreated frm to subject msgbody incimages usehtml)
        /\ to_etree datetime render_datetime registry
             (mail_instance userid dtcreated frm to subject msgbody incimages usehtml)
           = Ok (mail_tree userid dtext frm to subject msgbody incimages usehtml)).
Proof.
  split.
  - exact roundtrip_tree.
  - intros Hreg userid dtcreated dtext frm to subject msgbody incimages usehtml n
      H1 H2 H3 H4 H5 H6.
    destruct (mail_roundtrip userid dtcreated dtext frm to subject msgbody
                incimages usehtml Hreg H1 H2 H3 H4 H5 H6) as [Hr Hb].
    split; [apply Hb | exact Hr].
Qed.
End MailRoundtrip.

End EmailFacts.

Module BinderFacts.
Import Models ModelsDefs ModelsFacts ListFacts.

Section Binder.
Context {datetime : Type}.
Variable parse_datetime : string -> option datetime.
Variable registry : list (string * Schema).

Abbreviation from_etree := (Models.from_etree datetime parse_datetime registry).

Lemma bind_unfold n elem s elem' :
  resolve registry (etag elem) = Some s -> groom s elem = Ok elem' ->
  from_etree (S n) elem =
  match List.find (fun k => negb (permitted s k)) (echildren elem') with
  | Some k => Raise (InvalidContainmentError (etag elem) (etag k))
  | None =>
      scalars <-! bind_scalars datetime parse_datetime (etag elem) (members s)
                    (echildren elem') ;;
      subs <-! bind_subs datetime (from_etree n) (members s) (echildren elem') ;;
      items <-! bind_items datetime (from_etree n)
                  (List.filter (is_item s) (echildren elem')) ;;
      match missing_required s scalars subs with
      | Some name => Raise (MissingRequiredError (etag elem) name)
      | None => Ok (Inst (etag elem) scalars subs items)
      end
  end.
Proof. intros Hs Hg. cbn [Models.from_etree]. by rewrite Hs, Hg. Qed.

Lemma bind_items_Forall2 (bind : Element -> result BindError (Instance datetime)) ks xs :
  Forall2 (fun k x => bind k = Ok x) ks xs -> bind_items datetime bind ks = Ok xs.
Proof. induction 1 as [|k x ks xs Hk _ IH]; cbn; [done|]. by rewrite Hk, IH. Qed.

Lemma bind_scalars_no_member tg ms ks :
  (forall k, k ∈ ks -> etag k ∉ map member_tag ms) ->
  bind_scalars datetime parse_datetime tg ms ks = Ok [].
Proof.
  induction ms as [|[name [ft r|schema r]] ms IH]; intros H; cbn; [done| |].
  - rewrite child_none.
    + apply IH. intros k Hk Hin. apply (H k Hk). cbn. by right.
    + intros k Hk Hek. apply (H k Hk). cbn. rewrite Hek. left.
  - apply IH. intros k Hk Hin. apply (H k Hk). cbn. by right.
Qed.

Lemma bind_subs_no_member (bind : Element -> result BindError (Instance datetime)) ms ks :
  (forall k, k ∈ ks -> etag k ∉ map member_tag ms) ->
  bind_subs datetime bind ms ks = Ok [].
Proof.
  induction ms as [|[name [ft r|schema r]] ms IH]; intros H; cbn; [done| |].
  - apply IH. intros k Hk Hin. apply (H k Hk). cbn. by right.
  - rewrite child_none.
    + apply IH. intros k Hk Hin. apply (H k Hk). cbn. by right.
    + intros k Hk Hek. apply (H k Hk). cbn. rewrite Hek. left.
Qed.

(** C4. A list aggregate: if some child is neither a member nor one of
    the allowed tags, binding fails with [InvalidContainmentError] on the
    first such child; when every child carries an allowed tag and each
    binds, the items of the result are the children bound in input
    order. *)
Theorem C4_list_items_in_order_or_refused n elem s elem' :
  resolve registry (etag elem) = Some s -> groom s elem = Ok elem' ->
  ((exists k, k ∈ echildren elem' /\ permitted s k = false) ->
     exists k, k ∈ echildren elem' /\ permitted s k = false
       /\ from_etree (S n) elem
          = Raise (InvalidContainmentError (etag elem) (etag k)))
  /\ ((forall k, k ∈ echildren elem' ->
         etag k ∈ dataTags s /\ etag k ∉ member_tags s) ->
      missing_required (datetime:=datetime) s [] [] = None ->
      forall xs,
        Forall2 (fun k x => from_etree n k = Ok x) (echildren elem') xs ->
        from_etree (S n) elem = Ok (Inst (etag elem) [] [] xs)).
Proof.
  intros Hs Hg. rewrite (bind_unfold n elem s elem' Hs Hg). split.
  - intros (k & Hk & Hp).
    destruct (find_first (fun k => negb (permitted s k)) (echildren elem') k)
      as [k' Hk']; [by apply list_elem_of_In | by rewrite Hp |].
    rewrite Hk'. apply find_some in Hk' as [Hin Hneg].
    exists k'. split; [by apply list_elem_of_In|]. split; [|done].
    by apply negb_true_iff.
  - intros Hall Hmiss xs Hxs.
    rewrite find_none_all.
    2:{ intros k Hk. apply list_elem_of_In in Hk. destruct (Hall k Hk) as [Hd _].
        unfold permitted. apply negb_false_iff, orb_true_iff. right.
        by apply existsb_elem_of. }
    rewrite bind_scalars_no_member by (intros k Hk; apply (Hall k Hk)).
    cbn [rbind].
    rewrite bind_subs_no_member by (intros k Hk; apply (Hall k Hk)).
    cbn [rbind].
    rewrite List.forallb_filter_id.
    2:{ apply forallb_forall. intros k Hk. apply list_elem_of_In in Hk.
        destruct (Hall k Hk) as [_ Hm]. unfold is_item. apply negb_true_iff.
        apply not_true_iff_false. intros H. by apply existsb_elem_of in H. }
    rewrite (bind_items_Forall2 _ _ _ Hxs). cbn [rbind]. by rewrite Hmiss.
Qed.

(** **** Required and optional members *)

Lemma missing_required_first s (sc : list (string * Value datetime)) sb pre name m post :
  members s = pre ++ (name, m) :: post ->
  is_required m = true -> present sc sb (name, m) = false ->
  (forall m', m' ∈ pre -> is_required (snd m') = true -> present sc sb m' = true) ->
  missing_required s sc sb = Some name.
Proof.
  intros Hm Hr Hp Hpre. unfold missing_required. rewrite Hm. clear Hm.
  induction pre as [|m' pre IH]; cbn.
  - by rewrite Hr, Hp.
  - destruct (is_required (snd m')) eqn:E.
    + rewrite (Hpre m') by (done || left). cbn. apply IH.
      intros m'' Hin. apply Hpre. by right.
    + cbn. apply IH. intros m'' Hin. apply Hpre. by right.
Qed.

Lemma missing_required_none s (sc : list (string * Value datetime)) sb :
  (forall m, m ∈ members s -> is_required (snd m) = true -> present sc sb m = true) ->
  missing_required s sc sb = None.
Proof.
  intros H. unfold missing_required. rewrite find_none_all; [done|].
  intros m Hm. apply list_elem_of_In in Hm.
  destruct (is_required (snd m)) eqn:E; [|done]. by rewrite (H m Hm E).
Qed.

Lemma bind_scalars_keys tg ms ks sc :
  bind_scalars datetime parse_datetime tg ms ks = Ok sc ->
  forall k, k ∈ map fst sc -> is_Some (child (upper k) ks).
Proof.
  revert sc. induction ms as [|[name [ft r|schema r]] ms IH]; intros sc; cbn.
  - intros [= <-] k Hk. by apply elem_of_nil in Hk.
  - destruct (child (upper name) ks) as [c|] eqn:Ec; [|by apply IH].
    destruct (parse datetime parse_datetime ft _) as [[v|]|]; [| by apply IH | done].
    destruct (bind_scalars datetime parse_datetime tg ms ks) as [rest|] eqn:Er; [|done].
    cbn. intros [= <-] k Hk. cbn in Hk. apply elem_of_cons in Hk as [->|Hk].
    + by rewrite Ec.
    + by apply (IH rest).
  - by apply IH.
Qed.

Lemma bind_subs_keys (bind : Element -> result BindError (Instance datetime)) ms ks sb :
  bind_subs datetime bind ms ks = Ok sb ->
  forall k, k ∈ map fst sb ->
    exists schema r, (k, SubAggregate schema r) ∈ ms /\ is_Some (child schema ks).
Proof.
  revert sb. induction ms as [|[name [ft r|schema r]] ms IH]; intros sb; cbn.
  - intros [= <-] k Hk. by apply elem_of_nil in Hk.
  - intros H k Hk. destruct (IH _ H k Hk) as (sch & r' & Hin & Hc).
    exists sch, r'. split; [by right | done].
  - destruct (child schema ks) as [c|] eqn:Ec.
    + destruct (bind c) as [x|]; [|done]. cbn.
      destruct (bind_subs datetime bind ms ks) as [rest|] eqn:Er; [|done].
      cbn. intros [= <-] k Hk. cbn in Hk. apply elem_of_cons in Hk as [->|Hk].
      * exists schema, r. split; [left | by rewrite Ec].
      * destruct (IH rest eq_refl k Hk) as (sch & r' & Hin & Hc).
        exists sch, r'. split; [by right | done].
    + intros H k Hk. destruct (IH _ H k Hk) as (sch & r' & Hin & Hc).
      exists sch, r'. split; [by right | done].
Qed.

Lemma assoc_absent {A} k (l : list (string * A)) :
  k ∉ map fst l -> bool_decide (is_Some (assoc k l)) = false.
Proof.
  intros H. rewrite (assoc_none k l H). apply bool_decide_eq_false.
  by intros [? ?].
Qed.

(** An absent member stays absent in the bound attributes. *)
Lemma absent_member_not_bound tg s ks sc sb n name m :
  NoDup (map fst (members s)) ->
  bind_scalars datetime parse_datetime tg (members s) ks = Ok sc ->
  bind_subs datetime (from_etree n) (members s) ks = Ok sb ->
  (name, m) ∈ members s -> child (member_tag (name, m)) ks = None ->
  present sc sb (name, m) = false.
Proof.
  intros Hnd Hsc Hsb Hin Hc. unfold present. cbn [fst snd].
  destruct m as [ft r|schema r]; cbn [member_tag fst snd] in Hc.
  - apply assoc_absent. intros Hk.
    destruct (bind_scalars_keys _ _ _ _ Hsc name Hk) as [c Hc']. congruence.
  - apply assoc_absent. intros Hk.
    destruct (bind_subs_keys _ _ _ _ Hsb name Hk) as (sch & r' & Hin' & [c Hc']).
    assert (sch = schema); [|congruence].
    clear -Hnd Hin Hin'. induction (members s) as [|[k' m'] ms IH]; cbn in *.
    + by apply elem_of_nil in Hin.
    + apply NoDup_cons in Hnd as [Hk Hnd].
      apply elem_of_cons in Hin as [[= <- <-]|Hin];
        apply elem_of_cons in Hin' as [[= -> ?]|Hin']; try done.
      * exfalso. apply Hk. apply list_elem_of_fmap.
        by exists (name, SubAggregate sch r').
      * exfalso. apply Hk. subst. apply list_elem_of_fmap.
        by exists (k', SubAggregate schema r).
      * by apply IH.
Qed.
(** C5 (amended). In the binder of the models package, when the rest of
    the input binds, the first required member that has no child fails the
    binding with [MissingRequiredError] naming it, and nothing is returned;
    when every required member is bound, the instance is returned and a
    member without a child is absent from it.  The ofxalchemy binder checks
    no required member: with the hooks of [Aggregate] it builds the
    instance from whatever the flattened dictionary holds. *)
Theorem C5_required_checked_by_models_binder_only :
  (forall n elem s elem' sc sb it,
     resolve registry (etag elem) = Some s -> groom s elem = Ok elem' ->
     NoDup (map fst (members s)) ->
     List.find (fun k => negb (permitted s k)) (echildren elem') = None ->
     bind_scalars datetime parse_datetime (etag elem) (members s)
       (echildren elem') = Ok sc ->
     bind_subs datetime (from_etree n) (members s) (echildren elem') = Ok sb ->
     bind_items datetime (from_etree n)
       (List.filter (is_item s) (echildren elem')) = Ok it ->
     (forall pre name m post,
        members s = pre ++ (name, m) :: post -> is_required m = true ->
        child (member_tag (name, m)) (echildren elem') = None ->
        (forall m', m' ∈ pre -> is_required (snd m') = true ->
                    present sc sb m' = true) ->
        from_etree (S n) elem = Raise (MissingRequiredError (etag elem) name))
     /\ ((forall m, m ∈ members s -> is_required (snd m) = true ->
                    present sc sb m = true) ->
         from_etree (S n) elem = Ok (Inst (etag elem) sc sb it)
         /\ forall name m, (name, m) ∈ members s ->
              child (member_tag (name, m)) (echildren elem') = None ->
              present sc sb (name, m) = false))
  /\ (forall _flatten accepts k element extra_attrs w nd C a,
        Alchemy.hp w !! element = Some nd ->
        Alchemy.globals_lookup (ET.ntag nd) = Ok (Alchemy.GClass C) ->
        Alchemy.resolve C "_preflatten" = Some "Aggregate" ->
        Alchemy.resolve C "_postflatten" = Some "Aggregate" ->
        extra_attrs !! "get_or_create" = None ->
        _flatten (Alchemy.hp w) element = Some a ->
        accepts C (extra_attrs ∪ a) = true ->
        Alchemy.from_etree _flatten accepts (S k) element extra_attrs w
        = (Ok (length (Alchemy.objs w)),
           Alchemy.World (Alchemy.hp w)
             (Alchemy.objs w ++ [{| Alchemy.cls := C;
                                    Alchemy.attrs := extra_attrs ∪ a |}])
             (Alchemy.session w))).
Proof.
  split.
  - intros n elem s elem' sc sb it Hs Hg Hnd Hperm Hsc Hsb Hit.
    rewrite (bind_unfold n elem s elem' Hs Hg), Hperm, Hsc, Hsb, Hit.
    cbn [rbind]. split.
    + intros pre name m post Hm Hr Hc Hpre.
      rewrite (missing_required_first s sc sb pre name m post Hm Hr); [done| |done].
      eapply absent_member_not_bound; eauto.
      rewrite Hm. apply elem_of_app. right. left.
    + intros Hall. rewrite (missing_required_none s sc sb Hall).
      split; [done|]. intros name m Hin Hc.
      eapply absent_member_not_bound; eauto.
  - intros _flatten accepts k element extra_attrs w nd C a
      Hnode Hg Hpre Hpost Hflag Ha Hacc.
    rewrite (AlchemyFacts.from_etree_unfold _ _ _ _ _ _ _ Hnode), Hg, Hflag.
    cbn [default]. rewrite delete_id by exact Hflag.
    unfold Alchemy.bind_as, bind at 1, Alchemy.call_preflatten. rewrite Hpre.
    cbn [String.eqb Ascii.eqb Bool.eqb]. unfold ret at 1. cbn [fst snd].
    unfold bind at 1, Alchemy.call_flatten. rewrite Ha.
    unfold bind at 1, Alchemy.call_postflatten. rewrite Hpost.
    cbn [String.eqb Ascii.eqb Bool.eqb]. unfold ret at 1. cbn [fst snd Alchemy.truthy].
    unfold Alchemy.construct. rewrite Hacc. reflexivity.
Qed.

End Binder.
End BinderFacts.

(** * The claims on sample documents *)

Module AlchemyScenarios.
Import ET Alchemy AlchemyDefs AlchemyFacts.


(** C10 on the sample OPTINFO: the session is empty, the binding succeeds,
    and the instance holds no reference to the underlying. *)
Lemma C10_witness :
  exists a,
    from_etree flatten_leaves accept_all 1 (fst optinfo_world) ∅ (snd optinfo_world)
    = (Ok 0,
       World (without_child "SECID" (fst optinfo_world) (hp (snd optinfo_world)))
             [{| cls := "OPTINFO"; attrs := ∅ ∪ a |}] [])
    /\ a !! "secinfo_id" = None.
Proof.
  destruct (C10_optinfo_underlying_not_resolved flatten_leaves accept_all 0
              (fst optinfo_world) ∅ (snd optinfo_world)
              (Node "OPTINFO" None [4; 5; 6; 7; 8; 11]) eq_refl eq_refl
              (lookup_empty _))
    as (_ & Hok & _ & _).
  eexists. split.
  - apply Hok; vm_compute; reflexivity.
  - vm_compute. reflexivity.
Defined.

(** C2 on the sample BUYSTOCK: without the security the binding fails and
    the world is untouched; with it, the instance refers to row 7. *)
Lemma C2_witness :
  from_etree flatten_leaves accept_all 1 (fst buystock_world_empty) ∅
    (snd buystock_world_empty)
  = (Raise NoResultFound, snd buystock_world_empty)
  /\ exists w' i,
       from_etree flatten_leaves accept_all 1 (fst buystock_world) ∅
         (snd buystock_world) = (Ok 1, w')
       /\ objs w' = [berkshire; i] /\ cls i = "BUYSTOCK"
       /\ attrs i !! "secinfo_id" = Some (VInt 7).
Proof.
  split.
  - refine (proj1 (C2_security_reference_resolves_or_fails flatten_leaves
                     accept_all 0 "BUYSTOCK" (fst buystock_world_empty) ∅
                     (snd buystock_world_empty)
                     (Node "BUYSTOCK" None [9; 10]) 5 (Node "SECID" None [3; 4])
                     4 (Node "UNIQUEIDTYPE" (Some "CUSIP") [])
                     3 (Node "UNIQUEID" (Some "084670108") [])
                     eq_refl eq_refl eq_refl eq_refl eq_refl eq_refl eq_refl
                     eq_refl eq_refl) eq_refl).
  - destruct (proj2 (C2_security_reference_resolves_or_fails flatten_leaves
                     accept_all 0 "BUYSTOCK" (fst buystock_world) ∅
                     (snd buystock_world)
                     (Node "BUYSTOCK" None [9; 10]) 5 (Node "SECID" None [3; 4])
                     4 (Node "UNIQUEIDTYPE" (Some "CUSIP") [])
                     3 (Node "UNIQUEID" (Some "084670108") [])
                     eq_refl eq_refl eq_refl eq_refl eq_refl eq_refl eq_refl
                     eq_refl eq_refl) 0 eq_refl)
      as (e & He & _ & _ & _ & _ & Hbind).
    injection He as <-.
    pose (rw := from_etree flatten_leaves accept_all 1 (fst buystock_world) ∅
                  (snd buystock_world)).
    destruct (Hbind (lookup_empty _) 1 (snd rw)) as (_ & _ & i & Hobjs & Hcls & _ & Hid).
    + vm_compute. reflexivity.
    + exists (snd rw), i. split; [vm_compute; reflexivity|].
      split; [exact Hobjs|]. split; [exact Hcls | exact Hid].
Defined.


(** C9 on sample trees: [MAIL.groom] only extends the store, the SECID
    hook empties the SECID node of the caller's BUYSTOCK, and the OPTINFO
    hook takes the SECID child out of the caller's OPTINFO. *)
Lemma C9_witness :
  (exists ext,
     snd (Models.MAIL_groom (fst (alloc EmailDefs.scenario_a_tree []))
            (snd (alloc EmailDefs.scenario_a_tree [])))
     = snd (alloc EmailDefs.scenario_a_tree []) ++ ext)
  /\ SECID__do_secid (fst buystock_world) ∅ (snd buystock_world)
     = (Ok (fst buystock_world, <["secinfo_id" := getattr berkshire "id"]> ∅),
        World (emptied_secid 5 4 3 (hp (snd buystock_world)))
              (objs (snd buystock_world)) (session (snd buystock_world)))
  /\ OPTINFO__do_secid (fst optinfo_world) ∅ (snd optinfo_world)
     = (Ok (fst optinfo_world, ∅),
        World (without_child "SECID" (fst optinfo_world) (hp (snd optinfo_world)))
              (objs (snd optinfo_world)) (session (snd optinfo_world))).
Proof.
  destruct C9_mail_hooks_copy_alchemy_hooks_edit_in_place as (Hmail & Hsec & Hopt).
  split; [|split].
  - refine (proj1 (Hmail (fst (alloc EmailDefs.scenario_a_tree []))
                     (snd (alloc EmailDefs.scenario_a_tree [])) _ _
                     (or_introl (surjective_pairing _)))).
  - refine (Hsec (fst buystock_world) ∅ (snd buystock_world)
              5 (Node "SECID" None [3; 4])
              4 (Node "UNIQUEIDTYPE" (Some "CUSIP") [])
              3 (Node "UNIQUEID" (Some "084670108") [])
              0 berkshire eq_refl eq_refl eq_refl eq_refl eq_refl eq_refl
              eq_refl eq_refl).
  - refine (Hopt (fst optinfo_world) ∅ (snd optinfo_world) _).
    eexists. vm_compute. reflexivity.
Defined.

End AlchemyScenarios.

Module ModelsScenarios.
Import ET Models ModelsDefs EmailDefs ListFacts ModelsFacts EmailFacts BinderFacts.

(** C4 on scenario B: the three children bind in input order, and a
    fourth child MAILTRNRS, which the request list does not allow, is
    refused. *)
Lemma C4_witness :
  Models.from_etree string text_datetime email_registry 5
    (Elem "EMAILMSGSRQV1" None scenario_b_children)
  = Ok (Inst "EMAILMSGSRQV1" [] [] scenario_b_items)
  /\ Models.from_etree string text_datetime email_registry 5
       (Elem "EMAILMSGSRQV1" None (scenario_b_children ++ [mailtrnrs_tree]))
     = Raise (InvalidContainmentError "EMAILMSGSRQV1" "MAILTRNRS").
Proof.
  split.
  - refine (proj2 (C4_list_items_in_order_or_refused text_datetime email_registry
                     4 (Elem "EMAILMSGSRQV1" None scenario_b_children)
                     EMAILMSGSRQV1
                     (Elem "EMAILMSGSRQV1" None scenario_b_children) _ _)
                  _ _ scenario_b_items _).
    + vm_compute. reflexivity.
    + vm_compute. reflexivity.
    + intros k Hk.
      repeat (apply elem_of_cons in Hk as [->|Hk]);
        [| | |by apply elem_of_nil in Hk];
        (split; apply (bool_decide_unpack _); vm_compute; exact I).
    + reflexivity.
    + repeat constructor; vm_compute; reflexivity.
  - destruct (proj1 (C4_list_items_in_order_or_refused text_datetime email_registry
                       4 (Elem "EMAILMSGSRQV1" None
                            (scenario_b_children ++ [mailtrnrs_tree]))
                       EMAILMSGSRQV1
                       (Elem "EMAILMSGSRQV1" None
                            (scenario_b_children ++ [mailtrnrs_tree]))
                       ltac:(vm_compute; reflexivity)
                       ltac:(vm_compute; reflexivity)))
      as (k & Hk & Hp & Hr).
    + exists mailtrnrs_tree. split; [|vm_compute; reflexivity].
      cbn [echildren scenario_b_children app].
      do 3 (apply elem_of_cons; right). apply elem_of_cons. by left.
    + rewrite Hr. cbn [etag]. cbn [scenario_b_children app] in Hk.
      repeat (apply elem_of_cons in Hk as [->|Hk]);
        [| | | |by apply elem_of_nil in Hk];
        try (vm_compute in Hp; discriminate Hp).
      reflexivity.
Defined.

(** C5 on samples: a MAIL without SUBJECT is refused with the member
    named; a MAILSYNCRQ without TOKEN binds and holds no token; the
    ofxalchemy binder returns a PAYEE from a tree without ADDR1. *)
Lemma C5_witness :
  Models.from_etree string text_datetime email_registry 1 mail_without_subject
  = Raise (MissingRequiredError "MAIL" "subject")
  /\ (exists sc,
        Models.from_etree string text_datetime email_registry 1
          mailsyncrq_without_token = Ok (Inst "MAILSYNCRQ" sc [] [])
        /\ present sc [] ("token", Scalar (String 10%N) false) = false)
  /\ Alchemy.from_etree Alchemy.flatten_leaves Alchemy.accept_all 1
       (fst AlchemyDefs.payee_world) ∅ (snd AlchemyDefs.payee_world)
     = (Ok 0,
        Alchemy.World (Alchemy.hp (snd AlchemyDefs.payee_world))
          [{| Alchemy.cls := "PAYEE"; Alchemy.attrs := ∅ ∪ AlchemyDefs.acme |}] []).
Proof.
  destruct (C5_required_checked_by_models_binder_only text_datetime email_registry)
    as [Hmodels Halchemy].
  split; [|split].
  - edestruct (Hmodels 0 mail_without_subject MAIL) as [Hmissing _].
    + reflexivity.
    + lazy. reflexivity.
    + apply (bool_decide_unpack _). vm_compute. exact I.
    + reflexivity.
    + lazy. reflexivity.
    + lazy. reflexivity.
    + lazy. reflexivity.
    + refine (Hmissing [ ("userid", Scalar (String 32%N) true);
                         ("dtcreated", Scalar DateTime true);
                         ("frm", Scalar (String 32%N) true);
                         ("to", Scalar (String 32%N) true) ]
                "subject" (Scalar (String 60%N) true)
                [ ("msgbody", Scalar (String 10000%N) true);
                  ("incimages", Scalar Bool true);
                  ("usehtml", Scalar Bool true) ] eq_refl eq_refl eq_refl _).
      intros m' Hm' _.
      repeat (apply elem_of_cons in Hm' as [->|Hm']);
        [| | | |by apply elem_of_nil in Hm']; reflexivity.
  - edestruct (Hmodels 0 mailsyncrq_without_token (MAILSYNCRQ SyncRqList))
      as [_ Hbound].
    + reflexivity.
    + lazy. reflexivity.
    + apply (bool_decide_unpack _). vm_compute. exact I.
    + reflexivity.
    + lazy. reflexivity.
    + lazy. reflexivity.
    + lazy. reflexivity.
    + destruct Hbound as [Hok Habsent].
      * intros m Hm Hreq. cbn [members MAILSYNCRQ aggregate SyncRqList app] in Hm.
        repeat (apply elem_of_cons in Hm as [->|Hm]);
          [| | | |by apply elem_of_nil in Hm];
          first [reflexivity | cbn in Hreq; discriminate Hreq].
      * eexists. split; [exact Hok|].
        apply (Habsent "token" (Scalar (String 10%N) false)); [|reflexivity].
        apply elem_of_cons. by left.
  - apply (Halchemy Alchemy.flatten_leaves Alchemy.accept_all 0
             (fst AlchemyDefs.payee_world) ∅ (snd AlchemyDefs.payee_world)
             (ET.Node "PAYEE" None [0; 1]) "PAYEE" AlchemyDefs.acme);
      try apply lookup_empty; vm_compute; reflexivity.
Defined.

(** C1 on scenario A, with timestamps kept as their text: the tree binds
    to the instance, the instance renders to the tree, and the request
    that wraps it in its envelope renders and binds back. *)
Lemma C1_witness :
  Models.from_etree string text_datetime email_registry 1 scenario_a_tree
  = Ok scenario_a_instance
  /\ Models.to_etree string text_datetime email_registry scenario_a_instance
     = Ok scenario_a_tree
  /\ Models.to_etree string text_datetime email_registry mailtrnrq_instance
     = Ok mailtrnrq_tree
  /\ Models.from_etree string text_datetime email_registry 3 mailtrnrq_tree
     = Ok mailtrnrq_instance.
Proof.
  assert (Hdt : forall d text : string,
             text_datetime d = Some text -> text_datetime text = Some d).
  { intros d text H. injection H as <-. reflexivity. }
  destruct (C1_render_then_bind_is_identity text_datetime text_datetime Hdt
              email_registry) as [Hall Hmail].
  destruct (Hmail eq_refl "x" "20190102120000" "20190102120000" "a@b" "c@d"
              "hi" "body" false true 0) as [Hbind Hrender];
    try (vm_compute; discriminate); try reflexivity.
  split; [exact Hbind|]. split; [exact Hrender|].
  destruct (Hall mailtrnrq_instance) as (t & Ht & Hback).
  - apply valid_unfold. exists (MAILTRNRQ TrnRq).
    split; [reflexivity|]. split; [apply aggregate_ok; vm_compute; reflexivity|].
    split; [reflexivity|]. split; [reflexivity|]. split; [reflexivity|].
    split; [|constructor]. constructor; [|constructor]. cbn [snd].
    apply valid_unfold. exists MAILRQ.
    split; [reflexivity|]. split; [apply aggregate_ok; vm_compute; reflexivity|].
    split; [reflexivity|]. split; [reflexivity|]. split; [reflexivity|].
    split; [|constructor]. constructor; [|constructor]. cbn [snd].
    apply valid_unfold. exists MAIL.
    split; [reflexivity|]. split; [exact MAIL_ok|].
    split; [vm_compute; reflexivity|]. split; [reflexivity|].
    split; [reflexivity|]. split; constructor.
  - assert (Et : t = mailtrnrq_tree).
    { assert (H0 : Models.to_etree string text_datetime email_registry
                     mailtrnrq_instance = Ok mailtrnrq_tree)
        by (vm_compute; reflexivity).
      rewrite Ht in H0. by injection H0. }
    subst t. split; [exact Ht|]. apply Hback. vm_compute. lia.
Defined.

End ModelsScenarios.

(** * More of the code: the session, the hooks, the keys *)

Module SessionFacts.
Import ET Alchemy AlchemyDefs ListFacts AlchemyFacts.


Section WithConstructor.
Variable accepts : string -> kwargs -> bool.


(** X2. [Aggregate.get_or_create] either leaves the world as it is, or
    no row matched the key and it appends one object, of the class asked
    for and holding every keyword given (not the key alone), and adds it to
    the session; the element trees are never touched. *)
Theorem X2_get_or_create_changes_nothing_or_appends_one c a w r w' :
  get_or_create accepts c a w = (r, w') ->
  w' = w
  \/ (r = Ok (length (objs w))
      /\ w' = World (hp w) (objs w ++ [{| cls := c; attrs := a |}])
                    (session w ++ [length (objs w)])
      /\ accepts c a = true
      /\ exists pks pk, primary_keys c w = (Ok pks, w)
           /\ key_of pks a = Some pk /\ query c pk w = []).
Proof.
  unfold get_or_create, try_except, get. unfold bind at 1.
  destruct (primary_keys c w) as [[pks|e] w0] eqn:Hp.
  2:{ pose proof (primary_keys_pure c w) as Hw. rewrite Hp in Hw. cbn in Hw. subst w0.
      destruct (is_NoResultFound e) eqn:He.
      - exfalso. unfold primary_keys in Hp.
        destruct (resolve c "primary_keys") as [d|]; [|by inversion Hp; subst].
        destruct (String.eqb d "Aggregate"); [discriminate|].
        destruct (resolve c "pks") as [k|]; [|by inversion Hp; subst].
        destruct (class_of k ≫= cpks); [discriminate | by inversion Hp; subst].
      - intros [= <- <-]. by left. }
  pose proof (primary_keys_pure c w) as Hw. rewrite Hp in Hw. cbn in Hw. subst w0.
  destruct (mapM (fun k => pair k <$> a !! k) pks) as [pk|] eqn:Hk.
  2:{ cbn. intros [= <- <-]. by left. }
  unfold bind, get_state. cbn.
  destruct (query c pk w) as [|r0 [|r1 rs]] eqn:Hq; cbn.
  - unfold construct. destruct (accepts c a) eqn:Hacc.
    + cbn. intros [= <- <-]. right.
      split; [done|]. split; [done|]. split; [done|].
      exists pks, pk. done.
    + cbn. intros [= <- <-]. by left.
  - intros [= <- <-]. by left.
  - intros [= <- <-]. by left.
Qed.

(** A call that finds at most one row for the key: afterwards the
    session holds exactly one, the row returned. *)
Lemma get_or_create_settles c pks a pk w :
  primary_keys c w = (Ok pks, w) -> key_of pks a = Some pk ->
  session_ok w -> length (query c pk w) <= 1 -> accepts c a = true ->
  exists r new_objs new_session,
    get_or_create accepts c a w
    = (Ok r, World (hp w) (objs w ++ new_objs) (session w ++ new_session))
    /\ query c pk (World (hp w) (objs w ++ new_objs) (session w ++ new_session))
       = [r]
    /\ (new_objs = [] /\ new_session = []
        \/ new_objs = [{| cls := c; attrs := a |}]
           /\ new_session = [length (objs w)]).
Proof.
  intros Hp Hk Hok Hlen Hacc.
  unfold get_or_create, try_except. rewrite (get_spec _ _ _ _ _ Hp Hk).
  destruct (query c pk w) as [|r [|r' rs]] eqn:Hq; [| |cbn in Hlen; lia].
  - unfold one, raise. cbn [is_NoResultFound].
    unfold bind, construct. rewrite Hacc. unfold new_object, session_add, ret.
    cbn [hp objs session].
    exists (length (objs w)), [{| cls := c; attrs := a |}], [length (objs w)].
    split; [done|]. split; [|by right].
    rewrite (query_extend _ _ _ _ Hok), Hq. cbn [app].
    assert (Hrow : row_matches c pk {| cls := c; attrs := a |} = true).
    { unfold row_matches. apply andb_true_iff. split.
      - exact (primary_keys_class _ _ _ Hp).
      - apply forallb_forall. intros kv Hkv. apply bool_decide_eq_true.
        pose proof (key_of_values _ _ _ Hk) as Hv. rewrite Forall_forall in Hv.
        specialize (Hv kv (proj2 (list_elem_of_In _ _) Hkv)).
        unfold getattr. cbn [attrs]. by rewrite Hv. }
    by rewrite Hrow.
  - unfold one, ret. exists r, [], []. rewrite !app_nil_r, world_eta.
    split; [done|]. split; [done | by left].
Qed.

End WithConstructor.
End SessionFacts.

Module FrameFacts.
Import ET Alchemy AlchemyDefs ListFacts AlchemyFacts.

(** **** Computations that keep the size of the heap *)















(** **** Computations that only add to the world *)


















Section WithParser.
Variable _flatten : heap -> loc -> option kwargs.
Variable accepts : string -> kwargs -> bool.

















End WithParser.
End FrameFacts.

Module KeywordFacts.
Import ET Alchemy AlchemyDefs MoreDefs ListFacts AlchemyFacts.

(** **** What a successful computation returns *)

Definition post {A} (m : M world A) (Q : A -> Prop) : Prop :=
  forall w a w', m w = (Ok a, w') -> Q a.

Lemma post_ret {A} (a : A) (Q : A -> Prop) : Q a -> post (ret a) Q.
Proof. by intros H w a' w' [= <- <-]. Qed.

Lemma post_raise {A} e (Q : A -> Prop) : post (raise e) Q.
Proof. by intros w a w' [=]. Qed.

Lemma post_bind {A B} (m : M world A) (k : A -> M world B) Q1 Q2 :
  post m Q1 -> (forall a, Q1 a -> post (k a) Q2) -> post (bind m k) Q2.
Proof.
  intros Hm Hk w b w'. unfold bind.
  destruct (m w) as [[a|e] w1] eqn:E; [|done].
  intros Hr. eapply Hk; [eapply Hm|]; eauto.
Qed.

Lemma post_any {A} (m : M world A) : post m (fun _ => True).
Proof. done. Qed.

Lemma post_skip {A B} (m : M world A) (k : A -> M world B) Q :
  (forall a, post (k a) Q) -> post (bind m k) Q.
Proof. intros Hk. eapply post_bind; [apply post_any | auto]. Qed.

(** [b] is [a] but for the keys [ks]. *)
Definition same_but (ks : list string) (a b : kwargs) : Prop :=
  forall k, k ∉ ks -> b !! k = a !! k.

Lemma same_but_refl ks a : same_but ks a a.
Proof. done. Qed.

Lemma same_but_trans ks a b c : same_but ks a b -> same_but ks b c -> same_but ks a c.
Proof. intros H1 H2 k Hk. by rewrite H2, H1. Qed.

Lemma same_but_insert ks a k v : k ∈ ks -> same_but ks a (<[k := v]> a).
Proof.
  intros Hk k' Hk'. apply lookup_insert_ne. intros ->. done.
Qed.

Definition passes {A} (extra_attrs : kwargs) (r : A * kwargs) : Prop :=
  same_but hook_keys extra_attrs (snd r).

Ltac hook_key := apply (bool_decide_unpack _); vm_compute; exact I.

Lemma SECID__do_secid_passes element extra_attrs :
  post (SECID__do_secid element extra_attrs) (passes extra_attrs).
Proof.
  apply post_skip. intros [s|]; [|apply post_raise].
  do 6 (apply post_skip; intros ?).
  destruct a, a0; try apply post_raise.
  do 2 (apply post_skip; intros ?).
  apply post_ret. apply same_but_insert. hook_key.
Qed.

Lemma OPTINFO__do_secid_passes element extra_attrs :
  post (OPTINFO__do_secid element extra_attrs) (passes extra_attrs).
Proof.
  apply post_skip. intros [s|]; [|by apply post_ret].
  apply post_skip. intros _. by apply post_ret.
Qed.

Lemma call_do_secid_passes c element extra_attrs :
  post (call_do_secid c element extra_attrs) (passes extra_attrs).
Proof.
  unfold call_do_secid. destruct (resolve c "_do_secid") as [d|]; [|apply post_raise].
  destruct (String.eqb d "SECID"); [apply SECID__do_secid_passes|].
  destruct (String.eqb d "OPTINFO"); [apply OPTINFO__do_secid_passes | apply post_raise].
Qed.

Lemma ORIGCURRENCY__do_origcurrency_passes element extra_attrs :
  post (ORIGCURRENCY__do_origcurrency element extra_attrs) (passes extra_attrs).
Proof.
  do 2 (apply post_skip; intros ?).
  destruct a, a0; try apply post_raise;
    (apply post_skip; intros ?; apply post_ret; apply same_but_insert; hook_key).
Qed.

Lemma call_do_origcurrency_passes c element extra_attrs :
  post (call_do_origcurrency c element extra_attrs) (passes extra_attrs).
Proof.
  unfold call_do_origcurrency.
  destruct (resolve c "_do_origcurrency") as [d|]; [|apply post_raise].
  destruct (String.eqb d "ORIGCURRENCY");
    [apply ORIGCURRENCY__do_origcurrency_passes | by apply post_ret].
Qed.

Lemma BANKTRAN__preflatten_passes bind_child element extra_attrs :
  post (BANKTRAN__preflatten bind_child element extra_attrs) (passes extra_attrs).
Proof.
  do 2 (apply post_skip; intros ?).
  apply (post_bind _ _ (same_but hook_keys extra_attrs)).
  - assert (Hcc : post (ccacctto <~ on_heap (find_child "CCACCTTO" element) ;;
                        b <~ element_truthy ccacctto ;;
                        match ccacctto, b with
                        | Some ccacctto, true =>
                            instance <~ bind_child ccacctto {[ "get_or_create" := VBool true ]} ;;
                            id <~ getattr_of instance "id" ;;
                            on_heap (remove element ccacctto) ;;;
                            ret (<["acctto_id" := id]> extra_attrs)
                        | _, _ => ret extra_attrs
                        end) (same_but hook_keys extra_attrs)).
    { do 2 (apply post_skip; intros ?).
      destruct a1 as [cc|], a2; try by apply post_ret.
      do 3 (apply post_skip; intros ?).
      apply post_ret. apply same_but_insert. hook_key. }
    destruct a as [ba|], a0; try exact Hcc.
    do 2 (apply post_skip; intros ?). apply post_raise.
  - intros ex Hex. do 2 (apply post_skip; intros ?).
    destruct a1 as [p|], a2; try by apply post_ret.
    do 3 (apply post_skip; intros ?).
    apply post_ret. unfold passes. cbn [snd].
    eapply same_but_trans; [exact Hex|]. apply same_but_insert. hook_key.
Qed.

Lemma call_preflatten_passes bind_child c element extra_attrs :
  post (call_preflatten bind_child c element extra_attrs) (passes extra_attrs).
Proof.
  unfold call_preflatten.
  destruct (resolve c "_preflatten") as [d|]; [|apply post_raise].
  destruct (String.eqb d "OPTINFO"); [apply call_do_secid_passes|].
  destruct (String.eqb d "BANKTRAN"); [apply BANKTRAN__preflatten_passes|].
  destruct (String.eqb d "INVTRAN").
  { eapply post_bind; [apply call_do_secid_passes|]. intros r Hr.
    intros w [el ex] w' Hrun.
    pose proof (call_do_origcurrency_passes c (fst r) (snd r) w (el, ex) w' Hrun) as H2.
    unfold passes in *. cbn [snd] in *. by eapply same_but_trans. }
  destruct (String.eqb d "INVPOS"); [apply call_do_secid_passes | by apply post_ret].
Qed.

Lemma call_postflatten_extra c a ex :
  post (call_postflatten c a ex) (fun r => snd r = ex).
Proof.
  unfold call_postflatten. destruct (resolve c "_postflatten") as [d|];
    [|apply post_raise].
  destruct (String.eqb d "STOCKINFO"); by apply post_ret.
Qed.

Section WithParser.
Variable _flatten : heap -> loc -> option kwargs.
Variable accepts : string -> kwargs -> bool.

(** X4. [attributes.update(extra_attrs)]: when [Aggregate.from_etree]
    is called without [get_or_create] and returns, the object it returns
    holds every keyword of the caller at the caller's value, whatever the
    tree says, except [get_or_create] itself and the four keywords the
    pre-flatten hooks set. *)
Theorem X4_caller_keywords_override_the_tree n element extra_attrs w x w' k v :
  from_etree _flatten accepts n element extra_attrs w = (Ok x, w') ->
  truthy (default (VBool false) (extra_attrs !! "get_or_create")) = false ->
  k <> "get_or_create" -> k ∉ hook_keys ->
  extra_attrs !! k = Some v ->
  exists i, objs w' !! x = Some i /\ attrs i !! k = Some v.
Proof.
  destruct n as [|n]; [discriminate|]. cbn [from_etree].
  intros Hrun Hflag Hk1 Hk2 Hkv. unfold bind at 1 in Hrun.
  destruct (on_heap (get_node element) w) as [[nd|e] w0] eqn:E0; [|discriminate].
  destruct (globals_lookup (ntag nd)) as [[c|]|e]; try discriminate.
  unfold bind_as in Hrun. rewrite Hflag in Hrun. unfold bind at 1 in Hrun.
  destruct (call_preflatten _ c element _ w0) as [[[el ex]|e] w1] eqn:E1; [|discriminate].
  pose proof (call_preflatten_passes _ _ _ _ _ _ _ E1 k Hk2) as Hex. cbn [snd] in Hex.
  rewrite lookup_delete_ne in Hex by done.
  unfold bind at 1 in Hrun. cbn [fst snd] in Hrun.
  destruct (call_flatten _flatten el w1) as [[a|e] w2] eqn:E2; [|discriminate].
  unfold bind at 1 in Hrun.
  destruct (call_postflatten c a ex w2) as [[[a' ex']|e] w3] eqn:E3; [|discriminate].
  pose proof (call_postflatten_extra _ _ _ _ _ _ E3) as Hex'. cbn [snd] in Hex'. subst ex'.
  cbn [fst snd] in Hrun. unfold construct in Hrun.
  destruct (accepts c (ex ∪ a')); [|discriminate].
  unfold new_object in Hrun. injection Hrun as <- <-. cbn [objs].
  eexists. split.
  - rewrite lookup_app_r by lia. rewrite Nat.sub_diag. reflexivity.
  - cbn [attrs]. apply lookup_union_Some_l. by rewrite Hex.
Qed.

(** X5. [INVTRAN._do_secid] is a plain function (its [classmethod] line
    has no [@]), so calling it through the class is a [TypeError].  The
    classes that reach it are INVTRAN, JRNLFUND and MARGININTEREST: an
    element with one of these tags is never bound, and the failure leaves
    the tree, the objects and the session as they were.  Every other class
    of the module whose pre-flatten hook calls [_do_secid] finds
    [SECID._do_secid] or [OPTINFO._do_secid]. *)
Theorem X5_invtran_do_secid_is_not_a_classmethod :
  (forall n element extra_attrs w nd,
     hp w !! element = Some nd ->
     ntag nd ∈ ["INVTRAN"; "JRNLFUND"; "MARGININTEREST"] ->
     from_etree _flatten accepts (S n) element extra_attrs w
     = (Raise (TypeError "_do_secid"), w))
  /\ (forall c k, (c, k) ∈ classes ->
        c ∉ ["INVTRAN"; "JRNLFUND"; "MARGININTEREST"] ->
        match resolve c "_preflatten" with
        | Some "INVTRAN" | Some "INVPOS" => resolve c "_do_secid" = Some "SECID"
        | Some "OPTINFO" => resolve c "_do_secid" = Some "OPTINFO"
        | _ => True
        end).
Proof.
  split.
  - intros n element extra_attrs w nd Hnd Htag.
    rewrite (from_etree_unfold _ _ _ _ _ _ _ Hnd).
    assert (Hc : exists c, ntag nd = c /\ globals_lookup c = Ok (GClass c)
                   /\ resolve c "_preflatten" = Some "INVTRAN"
                   /\ resolve c "_do_secid" = Some "INVTRAN").
    { repeat (apply elem_of_cons in Htag as [->|Htag]);
        [| | |by apply elem_of_nil in Htag];
        eexists; (split; [reflexivity|]); vm_compute; done. }
    destruct Hc as (c & -> & Hg & Hp & Hd). rewrite Hg.
    unfold bind_as, bind at 1, call_preflatten. rewrite Hp. cbn -[call_do_secid].
    unfold bind at 1, call_do_secid. rewrite Hd. reflexivity.
  - intros c k Hin Hnot.
    assert (Hall : forallb (fun p =>
                      mem (fst p) ["INVTRAN"; "JRNLFUND"; "MARGININTEREST"]
                      || match resolve (fst p) "_preflatten" with
                         | Some d =>
                             if String.eqb d "INVTRAN" || String.eqb d "INVPOS"
                             then bool_decide (resolve (fst p) "_do_secid" = Some "SECID")
                             else if String.eqb d "OPTINFO"
                             then bool_decide (resolve (fst p) "_do_secid" = Some "OPTINFO")
                             else true
                         | None => true
                         end) classes = true) by (vm_compute; reflexivity).
    rewrite forallb_forall in Hall.
    specialize (Hall (c, k) (proj1 (list_elem_of_In _ _) Hin)). cbn [fst] in Hall.
    apply orb_true_iff in Hall as [Hall|Hall].
    { exfalso. apply Hnot. by apply existsb_elem_of. }
    destruct (resolve c "_preflatten") as [d|]; [|done].
    destruct (String.eqb d "INVTRAN") eqn:E1.
    { apply String.eqb_eq in E1. subst d. by apply bool_decide_eq_true in Hall. }
    destruct (String.eqb d "INVPOS") eqn:E2.
    { apply String.eqb_eq in E2. subst d. by apply bool_decide_eq_true in Hall. }
    cbn [orb] in Hall.
    destruct (String.eqb d "OPTINFO") eqn:E3.
    { apply String.eqb_eq in E3. subst d. by apply bool_decide_eq_true in Hall. }
    apply String.eqb_neq in E1, E2, E3.
    repeat (match goal with
            | |- context [match ?s with EmptyString => _ | String _ _ => _ end] =>
                destruct s; try done
            | |- context [match ?a with Ascii _ _ _ _ _ _ _ _ => _ end] =>
                destruct a as [[] [] [] [] [] [] [] []]; try done
            end).
Qed.

End WithParser.
End KeywordFacts.

Module HookFacts.
Import ET Alchemy AlchemyDefs ListFacts AlchemyFacts.



Section WithParser.
Variable _flatten : heap -> loc -> option kwargs.
Variable accepts : string -> kwargs -> bool.


End WithParser.

(** X7. [STOCKINFO._postflatten] never leaves a key [yield]: a true
    value under it moves to [yld], anything else under it is dropped and
    [yld] keeps what the tree gave it; every other attribute and the
    caller's keywords are returned as they came. *)
Theorem X7_stockinfo_moves_yield_to_yld attributes extra_attrs :
  let r := STOCKINFO__postflatten attributes extra_attrs in
  snd r = extra_attrs
  /\ fst r !! "yield" = None
  /\ fst r !! "yld"
     = (match attributes !! "yield" with
        | Some y => if truthy y then Some y else attributes !! "yld"
        | None => attributes !! "yld"
        end)
  /\ forall k, k <> "yield" -> k <> "yld" -> fst r !! k = attributes !! k.
Proof.
  unfold STOCKINFO__postflatten. cbn zeta. cbn [fst snd].
  split; [done|].
  destruct (attributes !! "yield") as [y|] eqn:Ey; cbn [default]; unfold id.
  - destruct (truthy y).
    + split.
      { rewrite lookup_insert_ne by done. apply lookup_delete_eq. }
      split; [apply lookup_insert_eq|].
      intros k H1 H2. rewrite lookup_insert_ne by done.
      by rewrite lookup_delete_ne.
    + split; [apply lookup_delete_eq|].
      split; [by rewrite lookup_delete_ne|].
      intros k H1 H2. by rewrite lookup_delete_ne.
  - cbn [truthy]. split; [apply lookup_delete_eq|].
    split; [by rewrite lookup_delete_ne|].
    intros k H1 H2. by rewrite lookup_delete_ne.
Qed.

(** X8. When at most one of CURRENCY and ORIGCURRENCY is found,
    [ORIGCURRENCY._do_origcurrency] changes nothing in the world and
    always sets the keyword [curtype]: to the tag found, or to [None] when
    neither is there.  The search is among the grandchildren of the
    element, so a CURRENCY that is a child of the element itself counts as
    absent. *)
Theorem X8_curtype_is_the_variant_among_the_grandchildren
    element extra_attrs w nd :
  hp w !! element = Some nd ->
  let found tg := List.find (has_tag (hp w) tg) (grandkids (hp w) nd) in
  (is_Some (found "CURRENCY") -> found "ORIGCURRENCY" = None ->
     ORIGCURRENCY__do_origcurrency element extra_attrs w
     = (Ok (element, <["curtype" := VStr "CURRENCY"]> extra_attrs), w))
  /\ (found "CURRENCY" = None -> is_Some (found "ORIGCURRENCY") ->
        ORIGCURRENCY__do_origcurrency element extra_attrs w
        = (Ok (element, <["curtype" := VStr "ORIGCURRENCY"]> extra_attrs), w))
  /\ (found "CURRENCY" = None -> found "ORIGCURRENCY" = None ->
        ORIGCURRENCY__do_origcurrency element extra_attrs w
        = (Ok (element, <["curtype" := VNone]> extra_attrs), w)).
Proof.
  intros Hnd found. rewrite (ORIGCURRENCY__do_origcurrency_spec _ _ _ _ Hnd).
  fold (found "CURRENCY") (found "ORIGCURRENCY").
  split; [|split].
  - intros [c ->] ->. reflexivity.
  - intros -> [c ->]. reflexivity.
  - intros -> ->. reflexivity.
Qed.


End HookFacts.

Module BankTranFacts.
Import ET Alchemy AlchemyDefs ListFacts AlchemyFacts.

Lemma element_truthy_node l w ln :
  hp w !! l = Some ln ->
  element_truthy (Some l) w = (Ok (negb (Nat.eqb (length (nkids ln)) 0)), w).
Proof.
  intros Hl. unfold element_truthy, bind, on_heap, children_of, bind, get_node.
  rewrite Hl. cbn. by rewrite world_eta.
Qed.

Lemma on_heap_remove_tagged tg element l w nd :
  hp w !! element = Some nd ->
  List.find (has_tag (hp w) tg) (nkids nd) = Some l ->
  on_heap (remove element l) w
  = (Ok tt, World (without_child tg element (hp w)) (objs w) (session w)).
Proof.
  intros Hnd Hl. unfold on_heap, remove, bind, get_node. rewrite Hnd.
  rewrite (find_remove_first _ _ _ _ Hl). unfold without_child. by rewrite Hnd.
Qed.

Lemma has_tag_without_child tg element h tg' l :
  has_tag (without_child tg element h) tg' l = has_tag h tg' l.
Proof.
  unfold without_child. destruct (h !! element) as [nd|] eqn:E; [|done].
  unfold has_tag, tag_of. destruct (decide (l = element)) as [->|Hne].
  - rewrite list_lookup_insert_eq by (by eapply lookup_lt_Some). by rewrite E.
  - by rewrite list_lookup_insert_ne.
Qed.

Lemma find_ext_eq {A} (f g : A -> bool) l :
  (forall x, f x = g x) -> List.find f l = List.find g l.
Proof. intros H. induction l as [|x l IH]; cbn; [done|]. by rewrite H, IH. Qed.

Lemma find_none_after_drop h tg tg' ks :
  List.find (has_tag h tg') ks = None ->
  List.find (has_tag h tg') (drop_first_tagged h tg ks) = None.
Proof.
  induction ks as [|k ks IH]; cbn; [done|].
  destruct (has_tag h tg' k) eqn:E; [done|]. intros Hn.
  destruct (has_tag h tg k); [done|]. cbn. rewrite E. auto.
Qed.

Section WithParser.
Variable _flatten : heap -> loc -> option kwargs.
Variable accepts : string -> kwargs -> bool.

(** Binding an element of a class with the hooks of [Aggregate] under
    [get_or_create=True] is [get_or_create] on what the element flattens
    to. *)
Lemma from_etree_get_or_create n l w ln c a :
  hp w !! l = Some ln ->
  globals_lookup (ntag ln) = Ok (GClass c) ->
  resolve c "_preflatten" = Some "Aggregate" ->
  resolve c "_postflatten" = Some "Aggregate" ->
  is_Some (resolve c "get_or_create") ->
  _flatten (hp w) l = Some a ->
  from_etree _flatten accepts (S n) l {[ "get_or_create" := VBool true ]} w
  = get_or_create accepts c a w.
Proof.
  intros Hl Hg Hpre Hpost [d Hd] Ha.
  rewrite (from_etree_unfold _ _ _ _ _ _ _ Hl), Hg.
  rewrite lookup_singleton_eq. cbn [default]. rewrite delete_singleton_eq.
  unfold bind_as, bind at 1, call_preflatten. rewrite Hpre.
  cbn [String.eqb Ascii.eqb Bool.eqb]. unfold ret at 1. cbn [fst snd].
  unfold bind at 1, call_flatten. rewrite Ha.
  unfold bind at 1, call_postflatten. rewrite Hpost.
  cbn [String.eqb Ascii.eqb Bool.eqb]. unfold ret at 1. cbn [fst snd truthy].
  rewrite Hd. by rewrite (left_id_L ∅ (∪)).
Qed.

(** X10. In [BANKTRAN._preflatten], the branch for a BANKACCTTO child
    that has children binds the account and then hands the bound instance,
    not the child, to [element.remove]: the hook never returns, and what
    binding the account did to the session stays.  So no STMTTRN or
    INVBANKTRAN with such a child is ever bound. *)
Theorem X10_bankacctto_branch_never_returns element w nd b bn :
  hp w !! element = Some nd ->
  List.find (has_tag (hp w) "BANKACCTTO") (nkids nd) = Some b ->
  hp w !! b = Some bn -> nkids bn <> [] ->
  (forall bind_child extra_attrs r w',
     BANKTRAN__preflatten bind_child element extra_attrs w = (r, w') ->
     (exists e, r = Raise e)
     /\ w' = snd (bind_child b {[ "get_or_create" := VBool true ]} w))
  /\ (forall n extra_attrs r w',
        ntag nd ∈ ["STMTTRN"; "INVBANKTRAN"] ->
        from_etree _flatten accepts (S n) element extra_attrs w = (r, w') ->
        (exists e, r = Raise e)
        /\ w' = snd (from_etree _flatten accepts n b
                       {[ "get_or_create" := VBool true ]} w)).
Proof.
  intros Hnd Hb Hbn Hkids.
  assert (Hhook : forall bind_child extra_attrs r w',
             BANKTRAN__preflatten bind_child element extra_attrs w = (r, w') ->
             (exists e, r = Raise e)
             /\ w' = snd (bind_child b {[ "get_or_create" := VBool true ]} w)).
  { intros bind_child extra_attrs r w'.
    unfold BANKTRAN__preflatten. unfold bind at 1.
    rewrite (on_heap_find_child _ _ _ _ Hnd), Hb.
    unfold bind at 1. rewrite (element_truthy_node _ _ _ Hbn).
    destruct (nkids bn) as [|k ks] eqn:Ek; [done|]. cbn [length Nat.eqb negb].
    unfold bind at 1. unfold bind at 1.
    destruct (bind_child b _ w) as [[i|e] w1] eqn:Eb; cbn [snd].
    - unfold bind at 1.
      destruct (getattr_of i "id" w1) as [[id|e] w2] eqn:Ei.
      + assert (w2 = w1) as ->.
        { unfold getattr_of in Ei. destruct (objs w1 !! i); by injection Ei. }
        intros [= <- <-]. split; [by eexists | done].
      + assert (w2 = w1) as ->.
        { unfold getattr_of in Ei. destruct (objs w1 !! i); by injection Ei. }
        intros [= <- <-]. split; [by eexists | done].
    - intros [= <- <-]. split; [by eexists | done]. }
  split; [exact Hhook|].
  intros n extra_attrs r w' Htag.
  rewrite (from_etree_unfold _ _ _ _ _ _ _ Hnd).
  assert (Hc : exists c, ntag nd = c /\ globals_lookup c = Ok (GClass c)
                 /\ resolve c "_preflatten" = Some "BANKTRAN").
  { repeat (apply elem_of_cons in Htag as [->|Htag]);
      [| |by apply elem_of_nil in Htag];
      eexists; (split; [reflexivity|]); vm_compute; done. }
  destruct Hc as (c & -> & Hg & Hp). rewrite Hg.
  unfold bind_as, bind at 1, call_preflatten. rewrite Hp.
  cbn [String.eqb Ascii.eqb Bool.eqb].
  destruct (BANKTRAN__preflatten _ element _ w) as [r0 w0] eqn:E0.
  destruct (Hhook _ _ _ _ E0) as [[e ->] ->].
  intros [= <- <-]. split; [by eexists | done].
Qed.

(** X11. [BANKTRAN._preflatten] on an element with a PAYEE child that
    has children, and neither BANKACCTTO nor CCACCTTO: the payee is
    bound with [get_or_create], so afterwards the session holds exactly
    one PAYEE of that name, made now or there before; the keyword
    [payee_name] is the name in the tree; the PAYEE child is taken out of
    the caller's element; nothing else changes. *)
Theorem X11_payee_becomes_a_reference n element extra_attrs w nd p pn a v :
  hp w !! element = Some nd ->
  List.find (has_tag (hp w) "BANKACCTTO") (nkids nd) = None ->
  List.find (has_tag (hp w) "CCACCTTO") (nkids nd) = None ->
  List.find (has_tag (hp w) "PAYEE") (nkids nd) = Some p ->
  hp w !! p = Some pn -> nkids pn <> [] ->
  _flatten (hp w) p = Some a -> a !! "name" = Some v ->
  accepts "PAYEE" a = true ->
  session_ok w -> length (query "PAYEE" [("name", v)] w) <= 1 ->
  exists r new_objs new_session,
    BANKTRAN__preflatten (from_etree _flatten accepts (S n)) element extra_attrs w
    = (Ok (element, <["payee_name" := v]> extra_attrs),
       World (without_child "PAYEE" element (hp w))
             (objs w ++ new_objs) (session w ++ new_session))
    /\ query "PAYEE" [("name", v)]
         (World (hp w) (objs w ++ new_objs) (session w ++ new_session)) = [r]
    /\ (new_objs = [] /\ new_session = []
        \/ new_objs = [{| cls := "PAYEE"; attrs := a |}]
           /\ new_session = [length (objs w)]).
Proof.
  intros Hnd Hba Hcc Hp Hpn Hkids Ha Hv Hacc Hok Hlen.
  destruct (find_some _ _ Hp) as [_ Htag]. apply has_tag_true in Htag as (pn' & Hpn' & Htag).
  rewrite Hpn in Hpn'. injection Hpn' as <-.
  assert (Hbind : from_etree _flatten accepts (S n) p
                    {[ "get_or_create" := VBool true ]} w
                  = get_or_create accepts "PAYEE" a w).
  { apply (from_etree_get_or_create n p w pn "PAYEE" a Hpn).
    - by rewrite Htag.
    - vm_compute. reflexivity.
    - vm_compute. reflexivity.
    - eexists. vm_compute. reflexivity.
    - exact Ha. }
  assert (Hpk : primary_keys "PAYEE" w = (Ok ["name"], w)).
  { apply (primary_keys_any_world "PAYEE" ["name"] (World [] [] [])). reflexivity. }
  assert (Hkey : key_of ["name"] a = Some [("name", v)]).
  { unfold key_of. cbn. by rewrite Hv. }
  assert (Hgoc : exists r new_objs new_session,
             get_or_create accepts "PAYEE" a w
             = (Ok r, World (hp w) (objs w ++ new_objs) (session w ++ new_session))
             /\ query "PAYEE" [("name", v)]
                  (World (hp w) (objs w ++ new_objs) (session w ++ new_session)) = [r]
             /\ (new_objs = [] /\ new_session = []
                 \/ new_objs = [{| cls := "PAYEE"; attrs := a |}]
                    /\ new_session = [length (objs w)])).
  { unfold get_or_create, try_except. rewrite (get_spec _ _ _ _ _ Hpk Hkey).
    destruct (query "PAYEE" [("name", v)] w) as [|r [|r' rs]] eqn:Hq;
      [| |cbn in Hlen; lia].
    - unfold one, raise. cbn [is_NoResultFound].
      unfold bind, construct. rewrite Hacc. unfold new_object, session_add, ret.
      cbn [hp objs session].
      exists (length (objs w)), [{| cls := "PAYEE"; attrs := a |}], [length (objs w)].
      split; [done|]. split; [|by right].
      rewrite (query_extend _ _ _ _ Hok), Hq. cbn [app].
      assert (Hrow : row_matches "PAYEE" [("name", v)]
                       {| cls := "PAYEE"; attrs := a |} = true).
      { unfold row_matches. cbn [cls forallb fst snd]. unfold getattr. cbn [attrs].
        rewrite Hv. cbn [default]. rewrite bool_decide_eq_true_2 by done.
        reflexivity. }
      by rewrite Hrow.
    - unfold one, ret. exists r, [], []. rewrite !app_nil_r, world_eta.
      split; [done|]. split; [done | by left]. }
  destruct Hgoc as (r & new_objs & new_session & Hrun & Hq & Hnew).
  exists r, new_objs, new_session. split; [|split; [exact Hq | exact Hnew]].
  set (w1 := World (hp w) (objs w ++ new_objs) (session w ++ new_session)) in *.
  destruct (query_row "PAYEE" [("name", v)] w1 r) as (e & He & _ & Hname).
  { rewrite Hq. by left. }
  apply Forall_cons in Hname as [Hname _]. cbn [fst snd] in Hname.
  unfold BANKTRAN__preflatten. unfold bind at 1.
  rewrite (on_heap_find_child _ _ _ _ Hnd), Hba.
  unfold bind at 1. cbn [element_truthy]. unfold ret at 1.
  unfold bind at 1. unfold bind at 1.
  rewrite (on_heap_find_child _ _ _ _ Hnd), Hcc.
  unfold bind at 1. cbn [element_truthy]. unfold ret at 1. unfold ret at 1.
  unfold bind at 1. rewrite (on_heap_find_child _ _ _ _ Hnd), Hp.
  unfold bind at 1. rewrite (element_truthy_node _ _ _ Hpn).
  destruct (nkids pn) as [|k ks] eqn:Ek; [done|]. cbn [length Nat.eqb negb].
  unfold bind at 1. rewrite Hbind, Hrun.
  unfold bind at 1, getattr_of. rewrite He, Hname.
  unfold bind at 1.
  assert (Hnd1 : hp w1 !! element = Some nd) by exact Hnd.
  assert (Hp1 : List.find (has_tag (hp w1) "PAYEE") (nkids nd) = Some p) by exact Hp.
  rewrite (on_heap_remove_tagged "PAYEE" element p w1 nd Hnd1 Hp1).
  reflexivity.
Qed.

(** X12. [BANKTRAN._preflatten] on an element with a CCACCTTO child
    that has children, and neither BANKACCTTO nor PAYEE: the account is
    bound with [get_or_create], so afterwards the session holds exactly
    one CCACCTTO of that [acctid]; the keyword [acctto_id] is the [id] of
    that row as it is now (for a row made by this call, what the tree
    gave, else [None]); the CCACCTTO child is taken out of the caller's
    element. *)
Theorem X12_ccacctto_becomes_a_reference n element extra_attrs w nd cc cn a v :
  hp w !! element = Some nd ->
  List.find (has_tag (hp w) "BANKACCTTO") (nkids nd) = None ->
  List.find (has_tag (hp w) "CCACCTTO") (nkids nd) = Some cc ->
  hp w !! cc = Some cn -> nkids cn <> [] ->
  List.find (has_tag (hp w) "PAYEE") (nkids nd) = None ->
  _flatten (hp w) cc = Some a -> a !! "acctid" = Some v ->
  accepts "CCACCTTO" a = true ->
  session_ok w -> length (query "CCACCTTO" [("acctid", v)] w) <= 1 ->
  exists r e new_objs new_session,
    (objs w ++ new_objs) !! r = Some e
    /\ query "CCACCTTO" [("acctid", v)]
         (World (hp w) (objs w ++ new_objs) (session w ++ new_session)) = [r]
    /\ BANKTRAN__preflatten (from_etree _flatten accepts (S n)) element extra_attrs w
       = (Ok (element, <["acctto_id" := getattr e "id"]> extra_attrs),
          World (without_child "CCACCTTO" element (hp w))
                (objs w ++ new_objs) (session w ++ new_session))
    /\ (new_objs = [] /\ new_session = []
        \/ new_objs = [{| cls := "CCACCTTO"; attrs := a |}]
           /\ new_session = [length (objs w)]).
Proof.
  intros Hnd Hba Hcc Hcn Hkids Hp Ha Hv Hacc Hok Hlen.
  destruct (find_some _ _ Hcc) as [_ Htag].
  apply has_tag_true in Htag as (cn' & Hcn' & Htag).
  rewrite Hcn in Hcn'. injection Hcn' as <-.
  assert (Hbind : from_etree _flatten accepts (S n) cc
                    {[ "get_or_create" := VBool true ]} w
                  = get_or_create accepts "CCACCTTO" a w).
  { apply (from_etree_get_or_create n cc w cn "CCACCTTO" a Hcn).
    - by rewrite Htag.
    - vm_compute. reflexivity.
    - vm_compute. reflexivity.
    - eexists. vm_compute. reflexivity.
    - exact Ha. }
  assert (Hpk : primary_keys "CCACCTTO" w = (Ok ["acctid"], w)).
  { apply (primary_keys_any_world "CCACCTTO" ["acctid"] (World [] [] [])). reflexivity. }
  assert (Hkey : key_of ["acctid"] a = Some [("acctid", v)]).
  { unfold key_of. cbn. by rewrite Hv. }
  destruct (SessionFacts.get_or_create_settles accepts _ _ _ _ _ Hpk Hkey Hok Hlen Hacc)
    as (r & new_objs & new_session & Hrun & Hq & Hnew).
  set (w1 := World (hp w) (objs w ++ new_objs) (session w ++ new_session)) in *.
  destruct (query_row "CCACCTTO" [("acctid", v)] w1 r) as (e & He & _ & _).
  { rewrite Hq. by left. }
  exists r, e, new_objs, new_session.
  split; [exact He|]. split; [exact Hq|]. split; [|exact Hnew].
  unfold BANKTRAN__preflatten. unfold bind at 1.
  rewrite (on_heap_find_child _ _ _ _ Hnd), Hba.
  unfold bind at 1. cbn [element_truthy]. unfold ret at 1.
  unfold bind at 1. unfold bind at 1.
  rewrite (on_heap_find_child _ _ _ _ Hnd), Hcc.
  unfold bind at 1. rewrite (element_truthy_node _ _ _ Hcn).
  destruct (nkids cn) as [|k ks] eqn:Ek; [done|]. cbn [length Nat.eqb negb].
  unfold bind at 1. rewrite Hbind, Hrun.
  unfold bind at 1, getattr_of. rewrite He.
  unfold bind at 1.
  assert (Hnd1 : hp w1 !! element = Some nd) by exact Hnd.
  assert (Hc1 : List.find (has_tag (hp w1) "CCACCTTO") (nkids nd) = Some cc) by exact Hcc.
  rewrite (on_heap_remove_tagged "CCACCTTO" element cc w1 nd Hnd1 Hc1).
  unfold ret at 1. cbn [hp objs session].
  set (w2 := World (without_child "CCACCTTO" element (hp w)) (objs w ++ new_objs)
                   (session w ++ new_session)).
  assert (Hnd2 : hp w2 !! element
                 = Some (Node (ntag nd) (ntext nd)
                           (drop_first_tagged (hp w) "CCACCTTO" (nkids nd)))).
  { unfold w2, without_child. cbn [hp]. rewrite Hnd. apply list_lookup_insert_eq.
    by eapply lookup_lt_Some. }
  unfold bind at 1. rewrite (on_heap_find_child _ _ _ _ Hnd2). cbn [nkids].
  assert (Hp2 : List.find (has_tag (hp w2) "PAYEE")
                  (drop_first_tagged (hp w) "CCACCTTO" (nkids nd)) = None).
  { rewrite (find_ext_eq _ (has_tag (hp w) "PAYEE")).
    - by apply find_none_after_drop.
    - intros x. apply has_tag_without_child. }
  rewrite Hp2. unfold bind at 1. cbn [element_truthy]. unfold ret at 1.
  reflexivity.
Qed.


End WithParser.
End BankTranFacts.

Module MailHookFacts.
Import ET Models ModelsDefs ETFacts EmailFacts ListFacts.

(** X14. What [MAIL.groom] hands on, with the base-class hook taken as
    the identity: the tree of its argument with the first child tagged
    FROM retagged FRM, and nothing else changed (a second FROM child, or a
    FROM deeper in the tree, keeps its tag); [MAIL.ungroom] does the same
    from FRM to FROM.  So [ungroom] undoes [groom] on every tree that has
    no child tagged FRM, and [groom] undoes [ungroom] on every tree that
    has no child tagged FROM. *)
Theorem X14_mail_hooks_rename_one_child_and_invert t :
  on_tree MAIL_groom t = Ok (retag_child "FROM" "FRM" t)
  /\ on_tree MAIL_ungroom t = Ok (retag_child "FRM" "FROM" t)
  /\ ((forall k, k ∈ echildren t -> etag k <> "FRM") ->
      rbind (on_tree MAIL_groom t) (on_tree MAIL_ungroom) = Ok t)
  /\ ((forall k, k ∈ echildren t -> etag k <> "FROM") ->
      rbind (on_tree MAIL_ungroom t) (on_tree MAIL_groom) = Ok t).
Proof.
  split; [apply MAIL_groom_tree|]. split; [apply MAIL_ungroom_tree|].
  destruct t as [tg tx ks]. split; intros Hno.
  - rewrite MAIL_groom_tree. cbn [rbind]. rewrite MAIL_ungroom_tree.
    cbn [retag_child]. by rewrite retag_inverse.
  - rewrite MAIL_ungroom_tree. cbn [rbind]. rewrite MAIL_groom_tree.
    cbn [retag_child]. by rewrite retag_inverse.
Qed.

End MailHookFacts.

Module KeyFacts.
Import ET Alchemy AlchemyDefs ListFacts AlchemyFacts.

Lemma primary_keys_result c w w' : fst (primary_keys c w) = fst (primary_keys c w').
Proof.
  unfold primary_keys. destruct (resolve c "primary_keys") as [d|]; [|done].
  destruct (String.eqb d "Aggregate"); [done|].
  destruct (resolve c "pks") as [k|]; [|done].
  by destruct (class_of k ≫= cpks).
Qed.

(** X15. The keys [get] and [get_or_create] look a row up by.  For every
    class of the module that derives from [Aggregate], [primary_keys]
    returns a non-empty list of names without the surrogate [id] (for a
    class with an [Inheritor] mixin, the natural keys [pks]), except the
    two bases ACCTFROM and ACCTTO, which set no [pks]: for them it raises
    [AttributeError]. *)
Theorem X15_rows_are_looked_up_by_natural_key c k w :
  (c, k) ∈ classes -> issubclass c "Aggregate" = true -> c <> "Aggregate" ->
  (c ∈ ["ACCTFROM"; "ACCTTO"]
   /\ primary_keys c w = (Raise (AttributeError "pks"), w))
  \/ ((c ∉ ["ACCTFROM"; "ACCTTO"])
      /\ exists pks, primary_keys c w = (Ok pks, w) /\ pks <> [] /\ ("id" ∉ pks)).
Proof.
  intros Hin Hsub Hne.
  assert (Hall : forallb (fun p =>
                    implb (issubclass (fst p) "Aggregate"
                           && negb (String.eqb (fst p) "Aggregate"))
                      (match fst (primary_keys (fst p) (World [] [] [])) with
                       | Ok pks =>
                           negb (mem (fst p) ["ACCTFROM"; "ACCTTO"])
                           && negb (Nat.eqb (length pks) 0) && negb (mem "id" pks)
                       | Raise e =>
                           mem (fst p) ["ACCTFROM"; "ACCTTO"]
                           && match e with
                              | AttributeError a => String.eqb a "pks"
                              | _ => false
                              end
                       end)) classes = true) by (vm_compute; reflexivity).
  rewrite forallb_forall in Hall.
  specialize (Hall (c, k) (proj1 (list_elem_of_In _ _) Hin)). cbn [fst] in Hall.
  rewrite Hsub in Hall. apply String.eqb_neq in Hne. rewrite Hne in Hall.
  cbn [negb andb implb] in Hall.
  pose proof (primary_keys_pure c w) as Hw.
  pose proof (primary_keys_result c w (World [] [] [])) as Hr.
  destruct (primary_keys c w) as [r w0]. cbn in Hw, Hr. subst w0.
  rewrite <- Hr in Hall. destruct r as [pks|e].
  - right. apply andb_true_iff in Hall as [Hall Hid].
    apply andb_true_iff in Hall as [Hc Hlen].
    split.
    { intros Hc'. apply existsb_elem_of in Hc'. unfold mem in Hc.
      by rewrite Hc' in Hc. }
    exists pks. split; [done|]. split.
    + intros ->. done.
    + intros Hid'. apply existsb_elem_of in Hid'. unfold mem in Hid.
      by rewrite Hid' in Hid.
  - left. apply andb_true_iff in Hall as [Hc He].
    destruct e as [| | |a| | | |]; try discriminate He.
    apply String.eqb_eq in He. subst a.
    split; [by apply existsb_elem_of | done].
Qed.

End KeyFacts.

Module MfinfoFacts.
Import ET Alchemy AlchemyDefs ListFacts AlchemyFacts FrameFacts BankTranFacts.


Section WithParser.
Variable _flatten : heap -> loc -> option kwargs.
Variable accepts : string -> kwargs -> bool.



End WithParser.
End MfinfoFacts.

Module SessionScenarios.
Import ET Alchemy AlchemyDefs AlchemyFacts SessionFacts.


(** X2 on the first payee of an empty session: the object made holds
    the city as well as the name. *)
Lemma X2_witness :
  get_or_create accept_all "PAYEE" acme (World [] [] [])
  = (Ok 0, World [] [{| cls := "PAYEE"; attrs := acme |}] [0])
  /\ exists pks pk, primary_keys "PAYEE" (World [] [] []) = (Ok pks, World [] [] [])
       /\ key_of pks acme = Some pk /\ query "PAYEE" pk (World [] [] []) = [].
Proof.
  assert (Hrun : get_or_create accept_all "PAYEE" acme (World [] [] [])
                 = (Ok 0, World [] [{| cls := "PAYEE"; attrs := acme |}] [0]))
    by (vm_compute; reflexivity).
  split; [exact Hrun|].
  destruct (X2_get_or_create_changes_nothing_or_appends_one accept_all "PAYEE" acme
              (World [] [] []) _ _ Hrun) as [Hsame|(_ & _ & _ & Hkey)].
  - discriminate Hsame.
  - exact Hkey.
Defined.

End SessionScenarios.

Module MoreScenarios.
Import ET Alchemy AlchemyDefs MoreDefs ListFacts AlchemyFacts.
Import FrameFacts KeywordFacts HookFacts BankTranFacts KeyFacts MfinfoFacts.

Lemma class_of_in c k : class_of c = Some k -> (c, k) ∈ classes.
Proof.
  unfold class_of. destruct (List.find _ classes) as [[c' k']|] eqn:E; [|done].
  cbn. intros [= ->]. apply find_some in E as [Hin Hc]. cbn in Hc.
  apply String.eqb_eq in Hc. subst c'. by apply list_elem_of_In.
Qed.


(** X4 on the sample PAYEE bound with a keyword [name]: the object has
    the caller's name, not the tree's ACME. *)
Lemma X4_witness :
  exists i,
    objs (snd (from_etree flatten_leaves accept_all 1 (fst payee_world)
                 {[ "name" := VStr "J. Doe" ]} (snd payee_world))) !! 0 = Some i
    /\ attrs i !! "name" = Some (VStr "J. Doe").
Proof.
  apply (X4_caller_keywords_override_the_tree flatten_leaves accept_all 1
           (fst payee_world) {[ "name" := VStr "J. Doe" ]} (snd payee_world)
           0 _ "name" (VStr "J. Doe")).
  - vm_compute. reflexivity.
  - vm_compute. reflexivity.
  - discriminate.
  - apply (bool_decide_unpack _). vm_compute. exact I.
  - vm_compute. reflexivity.
Defined.

(** X5 on the sample JRNLFUND. *)
Lemma X5_witness :
  from_etree flatten_leaves accept_all 2 (fst jrnlfund_world) ∅ (snd jrnlfund_world)
  = (Raise (TypeError "_do_secid"), snd jrnlfund_world).
Proof.
  apply (proj1 (X5_invtran_do_secid_is_not_a_classmethod flatten_leaves accept_all)
           1 (fst jrnlfund_world) ∅ (snd jrnlfund_world)
           (Node "JRNLFUND" None [2; 3; 4; 5])).
  - reflexivity.
  - cbn [ntag]. apply elem_of_cons. right. apply elem_of_cons. by left.
Defined.


(** X8 on the sample BUYSTOCK, whose CURRENCY is under INVBUY, and on the
    sample INCOME, whose CURRENCY is its own child. *)
Lemma X8_witness :
  ORIGCURRENCY__do_origcurrency (fst buystock_currency_world) ∅
    (snd buystock_currency_world)
  = (Ok (fst buystock_currency_world, <["curtype" := VStr "CURRENCY"]> ∅),
     snd buystock_currency_world)
  /\ ORIGCURRENCY__do_origcurrency (fst income_world) ∅ (snd income_world)
     = (Ok (fst income_world, <["curtype" := VNone]> ∅), snd income_world).
Proof.
  split.
  - apply (proj1 (X8_curtype_is_the_variant_among_the_grandchildren
                    (fst buystock_currency_world) ∅ (snd buystock_currency_world)
                    (Node "BUYSTOCK" None [12; 13]) eq_refl)).
    + eexists. vm_compute. reflexivity.
    + vm_compute. reflexivity.
  - apply (proj2 (proj2 (X8_curtype_is_the_variant_among_the_grandchildren
                    (fst income_world) ∅ (snd income_world)
                    (Node "INCOME" None [2; 5; 6; 7; 8; 9; 12]) eq_refl))).
    + vm_compute. reflexivity.
    + vm_compute. reflexivity.
Defined.


(** X10 on the sample STMTTRN with a BANKACCTTO: binding fails, and the
    account it made on the way is in the session. *)
Lemma X10_witness :
  let run := from_etree flatten_leaves accept_all 2 (fst stmttrn_acctto_world) ∅
               (snd stmttrn_acctto_world) in
  ((exists e, fst run = Raise e)
   /\ snd run = snd (from_etree flatten_leaves accept_all 1 7
                       {[ "get_or_create" := VBool true ]}
                       (snd stmttrn_acctto_world)))
  /\ map cls (objs (snd run)) = ["BANKACCTTO"] /\ session (snd run) = [0].
Proof.
  split.
  - apply (proj2 (X10_bankacctto_branch_never_returns flatten_leaves accept_all
                    (fst stmttrn_acctto_world) (snd stmttrn_acctto_world)
                    (Node "STMTTRN" None [0; 1; 2; 3; 7]) 7
                    (Node "BANKACCTTO" None [4; 5; 6])
                    eq_refl eq_refl eq_refl ltac:(discriminate))
             1 ∅).
    + cbn [ntag]. apply elem_of_cons. by left.
    + apply surjective_pairing.
  - vm_compute. done.
Defined.

(** X11 on the sample STMTTRN with a PAYEE, in an empty session. *)
Lemma X11_witness :
  exists r new_objs new_session,
    BANKTRAN__preflatten (from_etree flatten_leaves accept_all 1)
      (fst stmttrn_payee_world) ∅ (snd stmttrn_payee_world)
    = (Ok (fst stmttrn_payee_world, <["payee_name" := VStr "ACME"]> ∅),
       World (without_child "PAYEE" (fst stmttrn_payee_world)
                (hp (snd stmttrn_payee_world)))
             (objs (snd stmttrn_payee_world) ++ new_objs)
             (session (snd stmttrn_payee_world) ++ new_session))
    /\ query "PAYEE" [("name", VStr "ACME")]
         (World (hp (snd stmttrn_payee_world))
                (objs (snd stmttrn_payee_world) ++ new_objs)
                (session (snd stmttrn_payee_world) ++ new_session)) = [r]
    /\ (new_objs = [] /\ new_session = []
        \/ new_objs = [{| cls := "PAYEE"; attrs := acme |}]
           /\ new_session = [length (objs (snd stmttrn_payee_world))]).
Proof.
  apply (X11_payee_becomes_a_reference flatten_leaves accept_all 0
           (fst stmttrn_payee_world) ∅ (snd stmttrn_payee_world)
           (Node "STMTTRN" None [0; 1; 2; 3; 6]) 6 (Node "PAYEE" None [4; 5])
           acme (VStr "ACME")).
  - reflexivity.
  - vm_compute. reflexivity.
  - vm_compute. reflexivity.
  - vm_compute. reflexivity.
  - reflexivity.
  - discriminate.
  - vm_compute. reflexivity.
  - vm_compute. reflexivity.
  - reflexivity.
  - constructor.
  - vm_compute. lia.
Defined.

(** X15 on STOCKINFO, which inherits the natural keys of SECINFO. *)
Lemma X15_witness :
  exists pks,
    primary_keys "STOCKINFO" (World [] [] []) = (Ok pks, World [] [] [])
    /\ pks <> [] /\ ("id" ∉ pks).
Proof.
  destruct (X15_rows_are_looked_up_by_natural_key "STOCKINFO"
              (Class ["SECINFO"] ["_postflatten"] None [] []) (World [] [] []))
    as [[Hc _]|[_ H]].
  - apply class_of_in. vm_compute. reflexivity.
  - vm_compute. reflexivity.
  - discriminate.
  - exfalso. repeat (apply elem_of_cons in Hc as [Hc|Hc]; [discriminate Hc|]).
    by apply elem_of_nil in Hc.
  - exact H.
Defined.


(** X12 on the sample STMTTRN with a CCACCTTO, in an empty session: the
    account is made, and [acctto_id] is [None], the tree giving no id. *)
Lemma X12_witness :
  exists r e new_objs new_session,
    (objs (snd stmttrn_ccacctto_world) ++ new_objs) !! r = Some e
    /\ query "CCACCTTO" [("acctid", VStr "4111")]
         (World (hp (snd stmttrn_ccacctto_world))
                (objs (snd stmttrn_ccacctto_world) ++ new_objs)
                (session (snd stmttrn_ccacctto_world) ++ new_session)) = [r]
    /\ BANKTRAN__preflatten (from_etree flatten_leaves accept_all 1)
         (fst stmttrn_ccacctto_world) ∅ (snd stmttrn_ccacctto_world)
       = (Ok (fst stmttrn_ccacctto_world, <["acctto_id" := getattr e "id"]> ∅),
          World (without_child "CCACCTTO" (fst stmttrn_ccacctto_world)
                   (hp (snd stmttrn_ccacctto_world)))
                (objs (snd stmttrn_ccacctto_world) ++ new_objs)
                (session (snd stmttrn_ccacctto_world) ++ new_session))
    /\ (new_objs = [] /\ new_session = []
        \/ new_objs = [{| cls := "CCACCTTO";
                          attrs := {[ "acctid" := VStr "4111" ]} |}]
           /\ new_session = [length (objs (snd stmttrn_ccacctto_world))]).
Proof.
  apply (X12_ccacctto_becomes_a_reference flatten_leaves accept_all 0
           (fst stmttrn_ccacctto_world) ∅ (snd stmttrn_ccacctto_world)
           (Node "STMTTRN" None [0; 1; 2; 3; 5]) 5 (Node "CCACCTTO" None [4])
           {[ "acctid" := VStr "4111" ]} (VStr "4111")).
  - reflexivity.
  - vm_compute. reflexivity.
  - vm_compute. reflexivity.
  - reflexivity.
  - discriminate.
  - vm_compute. reflexivity.
  - vm_compute. reflexivity.
  - vm_compute. reflexivity.
  - reflexivity.
  - constructor.
  - vm_compute. lia.
Defined.


End MoreScenarios.
